(** * Agent registry: derivation engine, health prober and reconciler

    A shallow embedding of the Go sources
      - go/api/v1alpha1/agentcard_types.go    (AgentCard, AgentRegistry types)
      - go/internal/controller/registry/cardgen.go       (CardGenerator)
      - go/pkg/registry/a2a (translator)                 (Translator)
      - go/pkg/registry/health/checker.go                (Checker)
      - go/internal/controller/agentregistry_controller.go (AgentRegistryController)

    Go values are modelled as follows: [string] is a byte string, a Go
    [map[string]string] is a [gmap string string], a slice is a [list] (a nil
    slice and an empty slice are both [[]]; the code only ever takes [len] of
    them or ranges over them), a pointer that may be nil is an [option], an
    [(T, error)] result is a pair with an [option error] or a sum, [int32] and
    [int64] are [Z].  Calls into the cluster API, the wall clock and the
    network go through an explicit [World] that is threaded through the
    controller. *)

From Stdlib Require Import ZArith Ascii String DecimalString DecimalPos DecimalZ.
From stdpp Require Import gmap strings list fin_maps sorting.

Local Open Scope string_scope.
Local Open Scope Z_scope.

(** ** Go standard-library helpers that are exact on bytes *)

Module GoStr.

(** [strings.HasPrefix] / [strings.TrimPrefix]: [strip p s] is [Some r]
    exactly when [s = p ++ r]. *)
Fixpoint strip (p s : string) : option string :=
  match p, s with
  | EmptyString, _ => Some s
  | String a p', String b s' =>
      if Ascii.eqb a b then strip p' s' else None
  | String _ _, EmptyString => None
  end.

Definition HasPrefix (s p : string) : bool :=
  match strip p s with Some _ => true | None => false end.

Definition TrimPrefix (s p : string) : string :=
  match strip p s with Some r => r | None => s end.

(** [strings.Split s ","] for a one-byte separator: always at least one
    piece. *)
Fixpoint SplitByte (sep : ascii) (s : string) : list string :=
  match s with
  | EmptyString => [EmptyString]
  | String c s' =>
      if Ascii.eqb c sep then EmptyString :: SplitByte sep s'
      else match SplitByte sep s' with
           | [] => [String c EmptyString]
           | piece :: rest => String c piece :: rest
           end
  end.

(** [strings.Join]. *)
Fixpoint Join (elems : list string) (sep : string) : string :=
  match elems with
  | [] => EmptyString
  | [x] => x
  | x :: rest => x ++ sep ++ Join rest sep
  end.

(** [%d] of [fmt.Sprintf] on an integer. *)
Definition Itoa (z : Z) : string := NilZero.string_of_int (Z.to_int z).

(** [%x] of [fmt.Sprintf] on a byte array: two lower-case hexadecimal
    digits per byte. *)
Definition hex_digit (n : N) : ascii :=
  match n with
  | 0 => "0" | 1 => "1" | 2 => "2" | 3 => "3" | 4 => "4" | 5 => "5"
  | 6 => "6" | 7 => "7" | 8 => "8" | 9 => "9" | 10 => "a" | 11 => "b"
  | 12 => "c" | 13 => "d" | 14 => "e" | _ => "f"
  end%N%char.

Definition hex_value (c : ascii) : N :=
  (let n := N_of_ascii c in
   if (48 <=? n) && (n <=? 57) then n - 48 else n - 87)%N.

Fixpoint Hex (bytes : string) : string :=
  match bytes with
  | EmptyString => EmptyString
  | String b rest =>
      let n := N_of_ascii b in
      String (hex_digit (n / 16)) (String (hex_digit (n mod 16)) (Hex rest))
  end.

Fixpoint Unhex (digits : string) : string :=
  match digits with
  | String hi (String lo rest) =>
      String (ascii_of_N (16 * hex_value hi + hex_value lo)) (Unhex rest)
  | _ => EmptyString
  end.

End GoStr.

(** ** JSON value trees

    [encoding/json] turns a Go value into a tree of objects, arrays, strings
    and numbers and then renders the tree to bytes.  The tree of a struct is
    fixed by its field tags (name, [omitempty]); the byte rendering is the
    library's. *)

#[warnings="-register-all"]
Inductive json : Type :=
| JNull : json
| JBool : bool -> json
| JNum : Z -> json
| JStr : string -> json
| JArr : list json -> json
| JObj : list (string * json) -> json.

Module Json.

(** A struct field tagged [omitempty] is left out when [empty] holds. *)
Definition omitempty (empty : bool) (key : string) (v : json)
  : list (string * json) :=
  if empty then [] else [(key, v)].

Definition field (key : string) (v : json) : list (string * json) :=
  [(key, v)].

Definition is_empty_string (s : string) : bool :=
  match s with EmptyString => true | _ => false end.

Definition is_empty_list {A} (l : list A) : bool :=
  match l with [] => true | _ => false end.

(** Member lookup in an object (first binding of the key). *)
Fixpoint assoc (key : string) (fields : list (string * json)) : option json :=
  match fields with
  | [] => None
  | (k, v) :: rest => if String.eqb k key then Some v else assoc key rest
  end.

Definition member (key : string) (v : json) : option json :=
  match v with JObj fields => assoc key fields | _ => None end.

(** Keys of a Go map are emitted in sorted order. *)
Definition field_le (a b : string * json) : Prop :=
  String.leb a.1 b.1 = true.

#[global] Instance field_le_dec : RelDecision field_le.
Proof. intros a b. unfold field_le. apply bool_eq_dec. Defined.

Definition of_string_map (m : gmap string string) : json :=
  JObj (merge_sort field_le (prod_map id JStr <$> map_to_list m)).

End Json.

(** ** API types (go/api/v1alpha1/agentcard_types.go) *)

(** [metav1.Time]: seconds since the epoch. *)
Definition Time := Z.

(** [corev1.ObjectReference]. *)
Record ObjectReference := {
  ref_Kind : string;
  ref_Namespace : string;
  ref_Name : string;
  ref_UID : string;
  ref_APIVersion : string;
  ref_ResourceVersion : string;
  ref_FieldPath : string;
}.

Record AgentEndpoint := {
  ep_URL : string;
  ep_Protocol : string;
  ep_Port : Z;
}.

Record AgentCardSpec := {
  spec_Name : string;
  spec_Version : string;
  spec_SourceRef : ObjectReference;
  spec_Endpoints : list AgentEndpoint;
  spec_Capabilities : list string;
  spec_A2AVersion : string;
  spec_Metadata : gmap string string;
  spec_PublicCard : string;
}.

(** [metav1.Condition]. *)
Record Condition := {
  cond_Type : string;
  cond_Status : string;
  cond_ObservedGeneration : Z;
  cond_LastTransitionTime : Time;
  cond_Reason : string;
  cond_Message : string;
}.

Record AgentCardStatus := {
  cstat_Hash : string;
  cstat_LastSeen : option Time;
  cstat_EndpointHealthy : option bool;
  cstat_Conditions : list Condition;
  cstat_PublishedRef : option ObjectReference;
  cstat_ObservedGeneration : Z;
}.

(** [metav1.OwnerReference]. *)
Record OwnerReference := {
  owner_APIVersion : string;
  owner_Kind : string;
  owner_Name : string;
  owner_UID : string;
  owner_Controller : option bool;
}.

Record AgentCard := {
  card_APIVersion : string;
  card_Kind : string;
  card_Name : string;
  card_Namespace : string;
  card_OwnerReferences : list OwnerReference;
  card_Spec : AgentCardSpec;
  card_Status : AgentCardStatus;
}.

Definition AgentCardConditionTypeReady : string := "Ready".
Definition AgentCardConditionTypePublished : string := "Published".
Definition ConditionTrue : string := "True".

Definition AgentRegistryConditionTypeReady : string := "Ready".
Definition AgentRegistryConditionTypeDiscovering : string := "Discovering".
Definition AgentRegistryConditionTypeError : string := "Error".

(** [metav1.LabelSelector]; which namespaces it matches is decided by the
    cluster (see [World]). *)
Record LabelSelectorRequirement := {
  req_Key : string;
  req_Operator : string;
  req_Values : list string;
}.

Record LabelSelector := {
  sel_MatchLabels : gmap string string;
  sel_MatchExpressions : list LabelSelectorRequirement;
}.

Record DiscoveryConfig := {
  disc_EnableAutoDiscovery : bool;
  disc_NamespaceSelector : option LabelSelector;
  disc_SyncInterval : option Z;
}.

Record AgentRegistrySpec := {
  rspec_Discovery : DiscoveryConfig;
  rspec_A2AVersion : string;
}.

Record AgentRegistryStatus := {
  rstat_RegisteredAgents : Z;
  rstat_Phase : string;
  rstat_LastSync : option Time;
  rstat_Conditions : list Condition;
  rstat_ObservedGeneration : Z;
}.

Record AgentRegistry := {
  reg_APIVersion : string;
  reg_Kind : string;
  reg_Name : string;
  reg_Namespace : string;
  reg_UID : string;
  reg_Generation : Z;
  reg_Spec : AgentRegistrySpec;
  reg_Status : AgentRegistryStatus;
}.

(** ** The Agent resource (package v1alpha2) and Services

    The type declarations of package v1alpha2 are not among the sources; the
    records below have the fields that the registry code and its tests read. *)

(** Modelled from the spec: a skill of the external-protocol sub-config
    (type declaration of package v1alpha2 missing). *)
Record AgentSkill := { skill_Name : string }.

(** Modelled from the spec: the external-protocol sub-config with its
    skills (type declaration of package v1alpha2 missing). *)
Record A2AConfig := { a2a_Skills : list AgentSkill }.

(** Modelled from the spec: an entry of the tool list (type declaration of
    package v1alpha2 missing).  [tool.McpServer] and [tool.Agent] are
    pointers to references; the code reads only their [Name]. *)
Record Tool := {
  tool_McpServer : option string;
  tool_Agent : option string;
}.

(** Modelled from the spec: the declarative sub-record of an Agent: model
    config reference, tool list, external-protocol sub-config (type
    declaration of package v1alpha2 missing). *)
Record DeclarativeAgentSpec := {
  decl_ModelConfig : string;
  decl_Tools : list Tool;
  decl_A2AConfig : option A2AConfig;
}.

(** Modelled from the spec: the spec of an Agent (type declaration of
    package v1alpha2 missing). *)
Record AgentSpec := {
  aspec_Description : string;
  aspec_Declarative : option DeclarativeAgentSpec;
}.

(** Modelled from the spec: the Agent resource, with the object metadata
    the registry code reads (type declaration of package v1alpha2
    missing). *)
Record Agent := {
  agent_APIVersion : string;
  agent_Kind : string;
  agent_Name : string;
  agent_Namespace : string;
  agent_UID : string;
  agent_ResourceVersion : string;
  agent_Generation : Z;
  agent_Labels : gmap string string;
  agent_Annotations : gmap string string;
  agent_Spec : AgentSpec;
}.

(** [corev1.ServicePort] and [corev1.Service]. *)
Record ServicePort := {
  port_Name : string;
  port_Protocol : string;
  port_Port : Z;
}.

Record Service := {
  svc_Name : string;
  svc_Namespace : string;
  svc_Ports : list ServicePort;
}.

(** ** The external A2A document type (trpc-a2a-go, package server)

    The fields the translator fills in. *)

Record server_AgentCapabilities := {
  caps_Streaming : option bool;
  caps_PushNotifications : option bool;
  caps_StateTransitionHistory : option bool;
}.

Record server_AgentSkill := {
  sskill_ID : string;
  sskill_Name : string;
  sskill_Description : option string;
  sskill_Tags : list string;
}.

Record server_AgentProvider := {
  prov_Organization : string;
  prov_URL : option string;
}.

Record server_AgentCard := {
  doc_Name : string;
  doc_Description : string;
  doc_Version : string;
  doc_URL : string;
  doc_Capabilities : server_AgentCapabilities;
  doc_DefaultInputModes : list string;
  doc_DefaultOutputModes : list string;
  doc_Skills : list server_AgentSkill;
  doc_Provider : option server_AgentProvider;
  doc_IconURL : option string;
  doc_DocumentationURL : option string;
  doc_ProtocolVersion : option string;
}.

(** ** Library functions taken as parameters

    Go errors are modelled by their message. *)

Definition error := string.

(** [fmt.Errorf("prefix: %w", err)]. *)
Definition Errorf_w (prefix : string) (err : error) : error :=
  prefix ++ ": " ++ err.

(** The functions of the Go standard library (and of the A2A library) whose
    results the registry code uses but does not define: Unicode-aware string
    functions, the SHA-256 digest, the byte rendering of a JSON tree and the
    marshalling of the external document type.  Every theorem below holds for
    all of them; [Reference.lib] further down is one concrete instance. *)
Record GoLib := {
  strings_ToLower : string -> string;
  strings_TrimSpace : string -> string;
  sha256_Sum256 : string -> string;
  json_render : json -> string;
  json_Marshal_a2a : server_AgentCard -> string + error;
}.

(** ** Registry constants

    The constants file of package registry (annotation keys, phase names,
    field manager) is not among the sources.  The values below follow the
    annotation vocabulary of the specification, with the [kagent.dev/]
    domain used by the repository's tests and e2e script, and the phase
    enumeration of the AgentRegistry status. *)

(** Modelled from the spec: annotation [register-to-registry] (constants
    file missing). *)
Definition AnnotationRegisterToRegistry : string := "kagent.dev/register-to-registry".

(** Modelled from the spec: annotation [discovery-disabled] (constants file
    missing). *)
Definition AnnotationDiscoveryDisabled : string := "kagent.dev/discovery-disabled".

(** Modelled from the spec: annotation [capabilities] (constants file
    missing). *)
Definition AnnotationCapabilities : string := "kagent.dev/capabilities".

(** Modelled from the spec: annotation [a2a-endpoint] (constants file
    missing). *)
Definition AnnotationA2AEndpoint : string := "kagent.dev/a2a-endpoint".

(** Modelled from the spec: prefix of the [card-<key>] annotations
    (constants file missing). *)
Definition AnnotationCardMetadataPrefix : string := "kagent.dev/card-".

(** Modelled from the spec: the fixed field-manager identifier (constants
    file missing). *)
Definition FieldManagerAgentRegistry : string := "kagent/agent-registry".

(** Modelled from the spec: phase NotStarted (constants file missing). *)
Definition PhaseNotStarted : string := "NotStarted".

(** Modelled from the spec: phase Discovering (constants file missing). *)
Definition PhaseDiscovering : string := "Discovering".

(** Modelled from the spec: phase Ready (constants file missing). *)
Definition PhaseReady : string := "Ready".

(** Modelled from the spec: phase Error (constants file missing). *)
Definition PhaseError : string := "Error".

(** ** JSON trees of the Card spec (field tags of agentcard_types.go) *)

Module CardJson.
Import Json.

(** [corev1.ObjectReference]: every field is [omitempty]. *)
Definition ObjectReference_json (r : ObjectReference) : json :=
  JObj (omitempty (is_empty_string (ref_Kind r)) "kind" (JStr (ref_Kind r))
     ++ omitempty (is_empty_string (ref_Namespace r)) "namespace" (JStr (ref_Namespace r))
     ++ omitempty (is_empty_string (ref_Name r)) "name" (JStr (ref_Name r))
     ++ omitempty (is_empty_string (ref_UID r)) "uid" (JStr (ref_UID r))
     ++ omitempty (is_empty_string (ref_APIVersion r)) "apiVersion" (JStr (ref_APIVersion r))
     ++ omitempty (is_empty_string (ref_ResourceVersion r)) "resourceVersion"
          (JStr (ref_ResourceVersion r))
     ++ omitempty (is_empty_string (ref_FieldPath r)) "fieldPath" (JStr (ref_FieldPath r))).

Definition AgentEndpoint_json (e : AgentEndpoint) : json :=
  JObj (field "url" (JStr (ep_URL e))
     ++ omitempty (is_empty_string (ep_Protocol e)) "protocol" (JStr (ep_Protocol e))
     ++ omitempty (Z.eqb (ep_Port e) 0) "port" (JNum (ep_Port e))).

Definition AgentCardSpec_json (s : AgentCardSpec) : json :=
  JObj (field "name" (JStr (spec_Name s))
     ++ omitempty (is_empty_string (spec_Version s)) "version" (JStr (spec_Version s))
     ++ field "sourceRef" (ObjectReference_json (spec_SourceRef s))
     ++ omitempty (is_empty_list (spec_Endpoints s)) "endpoints"
          (JArr (AgentEndpoint_json <$> spec_Endpoints s))
     ++ omitempty (is_empty_list (spec_Capabilities s)) "capabilities"
          (JArr (JStr <$> spec_Capabilities s))
     ++ omitempty (is_empty_string (spec_A2AVersion s)) "a2aVersion"
          (JStr (spec_A2AVersion s))
     ++ omitempty (bool_decide (spec_Metadata s = ∅)) "metadata"
          (of_string_map (spec_Metadata s))
     ++ omitempty (is_empty_string (spec_PublicCard s)) "publicCard"
          (JStr (spec_PublicCard s))).

End CardJson.

(** ** The A2A translator (package a2a) *)

Module Translator.

Definition extractDescription (card : AgentCard) : string :=
  match spec_Metadata (card_Spec card) !! "description" with
  | Some desc => if Json.is_empty_string desc
                 then "Agent " ++ spec_Name (card_Spec card) else desc
  | None => "Agent " ++ spec_Name (card_Spec card)
  end.

Definition extractVersion (card : AgentCard) : string :=
  if Json.is_empty_string (spec_Version (card_Spec card)) then "1.0.0"
  else spec_Version (card_Spec card).

Definition extractPrimaryURL (card : AgentCard) : string :=
  match spec_Endpoints (card_Spec card) with
  | e :: _ => ep_URL e
  | [] => ""
  end.

Definition extractProvider (card : AgentCard) : option server_AgentProvider :=
  match spec_Metadata (card_Spec card) !! "provider.organization" with
  | None => None
  | Some orgName =>
      Some {| prov_Organization := orgName;
              prov_URL := spec_Metadata (card_Spec card) !! "provider.url" |}
  end.

Definition extractIconURL (card : AgentCard) : string :=
  default "" (spec_Metadata (card_Spec card) !! "iconUrl").

Definition extractDocURL (card : AgentCard) : string :=
  default "" (spec_Metadata (card_Spec card) !! "documentationUrl").

(** The loop [for i, cap := range Capabilities], with [i] counted from
    [start]. *)
Fixpoint skills_from (start : Z) (caps : list string) : list server_AgentSkill :=
  match caps with
  | [] => []
  | cap :: rest =>
      {| sskill_ID := "skill-" ++ GoStr.Itoa start;
         sskill_Name := cap;
         sskill_Description := None;
         sskill_Tags := [] |} :: skills_from (start + 1) rest
  end.

Definition extractSkills (card : AgentCard) : list server_AgentSkill :=
  match spec_Capabilities (card_Spec card) with
  | [] => [ {| sskill_ID := "default";
               sskill_Name := "General Purpose";
               sskill_Description := Some "General purpose agent";
               sskill_Tags := [] |} ]
  | caps => skills_from 0 caps
  end.

Definition nonempty_ptr (s : string) : option string :=
  if Json.is_empty_string s then None else Some s.

(** [card] is a pointer in the source; [None] is the nil pointer. *)
Definition ToA2ACard (card : option AgentCard) : server_AgentCard + error :=
  match card with
  | None => inr "AgentCard cannot be nil"
  | Some card =>
      inl {| doc_Name := spec_Name (card_Spec card);
             doc_Description := extractDescription card;
             doc_Version := extractVersion card;
             doc_URL := extractPrimaryURL card;
             doc_Capabilities :=
               {| caps_Streaming := Some true;
                  caps_PushNotifications := Some false;
                  caps_StateTransitionHistory := Some false |};
             doc_DefaultInputModes := ["text"];
             doc_DefaultOutputModes := ["text"];
             doc_Skills := extractSkills card;
             doc_Provider := extractProvider card;
             doc_IconURL := nonempty_ptr (extractIconURL card);
             doc_DocumentationURL := nonempty_ptr (extractDocURL card);
             doc_ProtocolVersion := nonempty_ptr (spec_A2AVersion (card_Spec card)) |}
  end.

Definition ToJSON (lib : GoLib) (card : option AgentCard) : string + error :=
  match ToA2ACard card with
  | inr err => inr err
  | inl a2aCard =>
      match json_Marshal_a2a lib a2aCard with
      | inr err => inr (Errorf_w "failed to marshal A2A card" err)
      | inl data => inl data
      end
  end.

End Translator.

(** ** The world outside the controller

    [Cluster] is what a pass reads but does not change: the objects served by
    the client's read path, which calls fail, the wall clock, the lifecycle
    context and the network.  [State] is what a pass changes: the stored
    Cards, the write requests issued so far, and how often the clock and the
    network have been consulted. *)

Inductive GetResult (A : Type) : Type :=
| Found (obj : A)
| NotFound
| GetFailed (err : error).
Arguments Found {A} obj.
Arguments NotFound {A}.
Arguments GetFailed {A} err.

(** Outcome of one HTTP HEAD request run to completion or to its timeout. *)
Inductive HttpResult : Type :=
| Response (StatusCode : Z)
| TransportError (err : error).

Record Cluster := {
  (** Services by (namespace, name). *)
  cl_services : gmap (string * string) Service;
  (** Agents, in the order [List] returns them. *)
  cl_agents : list Agent;
  (** Registries by (namespace, name). *)
  cl_registries : gmap (string * string) AgentRegistry;
  (** [LabelSelectorAsSelector] followed by listing the namespaces. *)
  cl_select_namespaces : LabelSelector -> list string + error;
  (** Injected failures of the client calls. *)
  cl_get_service_err : string * string -> option error;
  cl_get_card_err : string * string -> option error;
  cl_get_registry_err : string * string -> option error;
  cl_list_agents_err : string -> option error;
  cl_patch_err : string * string -> option error;
  cl_status_update_err : option error;
  (** The time returned by the n-th call of [metav1.Now]. *)
  cl_clock : nat -> Time;
  (** Whether the lifecycle context is cancelled before the n-th probe has
      received its response. *)
  cl_ctx_done : nat -> bool;
  (** Whether [http.NewRequestWithContext] accepts the URL. *)
  cl_url_ok : string -> bool;
  (** What a HEAD request to the URL yields within the probe timeout. *)
  cl_http_head : string -> HttpResult;
}.

Record State := {
  (** Stored AgentCards by (namespace, name). *)
  st_cards : gmap (string * string) AgentCard;
  (** Apply requests issued, oldest first. *)
  st_applied : list AgentCard;
  (** Registry status updates issued, oldest first. *)
  st_status_updates : list AgentRegistry;
  st_clock_reads : nat;
  st_probes : nat;
}.

Definition set_cards (f : gmap (string * string) AgentCard -> gmap (string * string) AgentCard)
    (st : State) : State :=
  {| st_cards := f (st_cards st); st_applied := st_applied st;
     st_status_updates := st_status_updates st;
     st_clock_reads := st_clock_reads st; st_probes := st_probes st |}.

Definition log_apply (card : AgentCard) (st : State) : State :=
  {| st_cards := st_cards st; st_applied := st_applied st ++ [card];
     st_status_updates := st_status_updates st;
     st_clock_reads := st_clock_reads st; st_probes := st_probes st |}.

Definition log_status_update (reg : AgentRegistry) (st : State) : State :=
  {| st_cards := st_cards st; st_applied := st_applied st;
     st_status_updates := st_status_updates st ++ [reg];
     st_clock_reads := st_clock_reads st; st_probes := st_probes st |}.

Definition tick_clock (st : State) : State :=
  {| st_cards := st_cards st; st_applied := st_applied st;
     st_status_updates := st_status_updates st;
     st_clock_reads := S (st_clock_reads st); st_probes := st_probes st |}.

Definition tick_probe (st : State) : State :=
  {| st_cards := st_cards st; st_applied := st_applied st;
     st_status_updates := st_status_updates st;
     st_clock_reads := st_clock_reads st; st_probes := S (st_probes st) |}.

(** [metav1.Now()]. *)
Definition metav1_Now (cl : Cluster) (st : State) : Time * State :=
  (cl_clock cl (st_clock_reads st), tick_clock st).

(** [Client.Get] on a Service, an AgentCard, a Registry. *)
Definition get_from {A} (store : gmap (string * string) A)
    (fault : string * string -> option error) (key : string * string) : GetResult A :=
  match fault key with
  | Some err => GetFailed err
  | None => match store !! key with
            | Some obj => Found obj
            | None => NotFound
            end
  end.

Definition Client_GetService (cl : Cluster) (key : string * string) : GetResult Service :=
  get_from (cl_services cl) (cl_get_service_err cl) key.

Definition Client_GetCard (cl : Cluster) (st : State) (key : string * string)
  : GetResult AgentCard :=
  get_from (st_cards st) (cl_get_card_err cl) key.

Definition Client_GetRegistry (cl : Cluster) (key : string * string)
  : GetResult AgentRegistry :=
  get_from (cl_registries cl) (cl_get_registry_err cl) key.

(** [Client.List] of Agents in one namespace. *)
Definition Client_ListAgents (cl : Cluster) (ns : string) : list Agent + error :=
  match cl_list_agents_err cl ns with
  | Some err => inr err
  | None => inl (filter (fun a => agent_Namespace a = ns) (cl_agents cl))
  end.

(** [Client.Patch(card, Apply, ForceOwnership, FieldOwner(..))]: the request
    is issued; when it succeeds the applied configuration is the object
    stored under the Card's (namespace, name). *)
Definition Client_PatchApply (cl : Cluster) (card : AgentCard) (st : State)
  : option error * State :=
  let key := (card_Namespace card, card_Name card) in
  let st := log_apply card st in
  match cl_patch_err cl key with
  | Some err => (Some err, st)
  | None => (None, set_cards (insert key card) st)
  end.

(** [Client.Status().Update(registry)]. *)
Definition Client_StatusUpdate (cl : Cluster) (reg : AgentRegistry) (st : State)
  : option error * State :=
  (cl_status_update_err cl, log_status_update reg st).

(** ** The derivation engine (cardgen.go) *)

Inductive Translator_t : Type := NewTranslator.

Record CardGenerator := {
  cg_Client : Cluster;
  cg_Translator : option Translator_t;
}.

Section CardGen.
Context (lib : GoLib).

Definition extractVersion (agent : Agent) : string :=
  match agent_Labels agent !! "version" with
  | Some version => version
  | None =>
      match agent_Labels agent !! "app.kubernetes.io/version" with
      | Some version => version
      | None => agent_ResourceVersion agent
      end
  end.

Definition buildSourceRef (agent : Agent) : ObjectReference :=
  {| ref_APIVersion := agent_APIVersion agent;
     ref_Kind := agent_Kind agent;
     ref_Name := agent_Name agent;
     ref_Namespace := agent_Namespace agent;
     ref_UID := agent_UID agent;
     ref_ResourceVersion := "";
     ref_FieldPath := "" |}.

(** Returns the Service or the error of [Client.Get] (not-found is an
    error of the client). *)
Definition findServiceForAgent (g : CardGenerator) (agent : Agent)
  : Service + error :=
  match Client_GetService (cg_Client g) (agent_Namespace agent, agent_Name agent) with
  | Found service => inl service
  | NotFound => inr "not found"
  | GetFailed err => inr err
  end.

Definition has_A2AConfig (agent : Agent) : bool :=
  match aspec_Declarative (agent_Spec agent) with
  | Some decl => match decl_A2AConfig decl with Some _ => true | None => false end
  | None => false
  end.

Definition service_endpoint (service : Service) (port : ServicePort) : AgentEndpoint :=
  {| ep_URL := "http://" ++ svc_Name service ++ "." ++ svc_Namespace service
                 ++ ".svc.cluster.local:" ++ GoStr.Itoa (port_Port port);
     ep_Protocol := strings_ToLower lib (port_Protocol port);
     ep_Port := port_Port port |}.

Definition extractEndpoints (g : CardGenerator) (agent : Agent) : list AgentEndpoint :=
  match agent_Annotations agent !! AnnotationA2AEndpoint with
  | Some customEndpoint =>
      [ {| ep_URL := customEndpoint; ep_Protocol := "http"; ep_Port := 0 |} ]
  | None =>
      if has_A2AConfig agent then
        [ {| ep_URL := "http://kagent-controller.kagent.svc.cluster.local:8083/api/a2a/"
                         ++ agent_Namespace agent ++ "/" ++ agent_Name agent;
             ep_Protocol := "http";
             ep_Port := 8083 |} ]
      else
        match findServiceForAgent g agent with
        | inl service => service_endpoint service <$> svc_Ports service
        | inr _ => []
        end
  end.

Definition skill_names (skills : list AgentSkill) : list string :=
  filter (fun n => n ≠ "") (skill_Name <$> skills).

Definition extractCapabilities (agent : Agent) : list string :=
  match agent_Annotations agent !! AnnotationCapabilities with
  | Some capStr => strings_TrimSpace lib <$> GoStr.SplitByte "," capStr
  | None =>
      match aspec_Declarative (agent_Spec agent) with
      | Some decl =>
          match decl_A2AConfig decl with
          | Some cfg =>
              match a2a_Skills cfg with
              | [] => []
              | skills => skill_names skills
              end
          | None => []
          end
      | None => []
      end
  end.

(** [tool.McpServer != nil && tool.McpServer.Name != ""], else
    [tool.Agent != nil && tool.Agent.Name != ""], else the tool is skipped. *)
Definition tool_name (tool : Tool) : option string :=
  match tool_McpServer tool ≫= Translator.nonempty_ptr with
  | Some name => Some name
  | None => tool_Agent tool ≫= Translator.nonempty_ptr
  end.

Definition put_if_nonempty (key value : string) (m : gmap string string)
  : gmap string string :=
  if Json.is_empty_string value then m else <[key := value]> m.

Definition declarative_metadata (agent : Agent) (m : gmap string string)
  : gmap string string :=
  match aspec_Declarative (agent_Spec agent) with
  | None => m
  | Some decl =>
      let m := put_if_nonempty "modelConfig" (decl_ModelConfig decl) m in
      match omap tool_name (decl_Tools decl) with
      | [] => m
      | toolNames => <["tools" := GoStr.Join toolNames ","]> m
      end
  end.

(** One iteration of [for key, value := range agent.Annotations]. *)
Definition annotation_step (m : gmap string string) (kv : string * string)
  : gmap string string :=
  if GoStr.HasPrefix kv.1 AnnotationCardMetadataPrefix
  then <[GoStr.TrimPrefix kv.1 AnnotationCardMetadataPrefix := kv.2]> m
  else m.

(** Go ranges over a map in an unspecified order; [order] is the order of
    one particular run, an enumeration of the annotations. *)
Definition extractMetadata_ranging (order : list (string * string)) (agent : Agent)
  : gmap string string :=
  foldl annotation_step
    (declarative_metadata agent
       (put_if_nonempty "description" (aspec_Description (agent_Spec agent)) ∅))
    order.

Definition extractMetadata (agent : Agent) : gmap string string :=
  extractMetadata_ranging (map_to_list (agent_Annotations agent)) agent.

Definition calculateHash (spec : AgentCardSpec) : string :=
  let data := json_render lib (CardJson.AgentCardSpec_json spec) in
  let hash := sha256_Sum256 lib data in
  GoStr.Hex hash.

Definition with_PublicCard (publicCard : string) (card : AgentCard) : AgentCard :=
  {| card_APIVersion := card_APIVersion card;
     card_Kind := card_Kind card;
     card_Name := card_Name card;
     card_Namespace := card_Namespace card;
     card_OwnerReferences := card_OwnerReferences card;
     card_Spec :=
       {| spec_Name := spec_Name (card_Spec card);
          spec_Version := spec_Version (card_Spec card);
          spec_SourceRef := spec_SourceRef (card_Spec card);
          spec_Endpoints := spec_Endpoints (card_Spec card);
          spec_Capabilities := spec_Capabilities (card_Spec card);
          spec_A2AVersion := spec_A2AVersion (card_Spec card);
          spec_Metadata := spec_Metadata (card_Spec card);
          spec_PublicCard := publicCard |};
     card_Status := card_Status card |}.

Definition with_Status (status : AgentCardStatus) (card : AgentCard) : AgentCard :=
  {| card_APIVersion := card_APIVersion card;
     card_Kind := card_Kind card;
     card_Name := card_Name card;
     card_Namespace := card_Namespace card;
     card_OwnerReferences := card_OwnerReferences card;
     card_Spec := card_Spec card;
     card_Status := status |}.

Definition empty_status : AgentCardStatus :=
  {| cstat_Hash := ""; cstat_LastSeen := None; cstat_EndpointHealthy := None;
     cstat_Conditions := []; cstat_PublishedRef := None;
     cstat_ObservedGeneration := 0 |}.

(** The Card literal that opens [GenerateCard]. *)
Definition initial_card (g : CardGenerator) (agentRegistry : AgentRegistry)
    (agent : Agent) : AgentCard :=
  {| card_APIVersion := "kagent.dev/v1alpha1";
     card_Kind := "AgentCard";
     card_Name := agent_Name agent;
     card_Namespace := agent_Namespace agent;
     card_OwnerReferences := [];
     card_Spec :=
       {| spec_Name := agent_Name agent;
          spec_Version := extractVersion agent;
          spec_SourceRef := buildSourceRef agent;
          spec_Endpoints := extractEndpoints g agent;
          spec_Capabilities := extractCapabilities agent;
          spec_A2AVersion := rspec_A2AVersion (reg_Spec agentRegistry);
          spec_Metadata := extractMetadata agent;
          spec_PublicCard := "" |};
     card_Status := empty_status |}.

(** The [if g.Translator != nil] block. *)
Definition embed_public_card (g : CardGenerator) (card : AgentCard) : AgentCard :=
  match cg_Translator g with
  | None => card
  | Some _ =>
      match Translator.ToJSON lib (Some card) with
      | inl publicCard => with_PublicCard publicCard card
      | inr _ => card
      end
  end.

Definition generated_status (hash : string) (now : Time) (agent : Agent)
  : AgentCardStatus :=
  {| cstat_Hash := hash;
     cstat_LastSeen := Some now;
     cstat_EndpointHealthy := None;
     cstat_Conditions :=
       [ {| cond_Type := AgentCardConditionTypeReady;
            cond_Status := ConditionTrue;
            cond_ObservedGeneration := agent_Generation agent;
            cond_LastTransitionTime := now;
            cond_Reason := "Generated";
            cond_Message := "AgentCard generated successfully" |} ];
     cstat_PublishedRef := None;
     cstat_ObservedGeneration := agent_Generation agent |}.

Definition GenerateCard (g : CardGenerator) (agentRegistry : AgentRegistry)
    (agent : Agent) (st : State) : (AgentCard * option error) * State :=
  let card := initial_card g agentRegistry agent in
  let card := embed_public_card g card in
  let hash := calculateHash (card_Spec card) in
  let '(now, st) := metav1_Now (cg_Client g) st in
  let card := with_Status (generated_status hash now agent) card in
  ((card, None), st).

End CardGen.

(** ** The health prober (checker.go) *)

Record Checker := { chk_timeout : Z }.

Definition NewChecker (timeout : Z) : Checker := {| chk_timeout := timeout |}.

(** One HEAD probe.  The request is bound to a context derived from the
    lifecycle context, so a cancelled lifecycle context makes [client.Do]
    return an error; a timeout is a transport error as well. *)
Definition checkEndpoint (c : Checker) (cl : Cluster) (endpoint : AgentEndpoint)
    (st : State) : (bool * option error) * State :=
  let n := st_probes st in
  let st := tick_probe st in
  if negb (cl_url_ok cl (ep_URL endpoint)) then
    ((false, Some (Errorf_w "failed to create request" "invalid URL")), st)
  else if cl_ctx_done cl n then
    ((false, Some (Errorf_w "failed to check endpoint" "context canceled")), st)
  else
    match cl_http_head cl (ep_URL endpoint) with
    | TransportError err =>
        ((false, Some (Errorf_w "failed to check endpoint" err)), st)
    | Response StatusCode =>
        (((200 <=? StatusCode) && (StatusCode <? 500), None), st)
    end.

(** The [for _, endpoint := range endpoints] loop of [CheckEndpoints]. *)
Fixpoint check_each (c : Checker) (cl : Cluster) (endpoints : list AgentEndpoint)
    (st : State) : (bool * option error) * State :=
  match endpoints with
  | [] => ((false, Some "all endpoints unhealthy"), st)
  | endpoint :: rest =>
      let '((healthy, err), st) := checkEndpoint c cl endpoint st in
      match err with
      | Some _ => check_each c cl rest st
      | None => if healthy then ((true, None), st) else check_each c cl rest st
      end
  end.

Definition CheckEndpoints (c : Checker) (cl : Cluster) (endpoints : list AgentEndpoint)
    (st : State) : (bool * option error) * State :=
  match endpoints with
  | [] => ((false, Some "no endpoints to check"), st)
  | _ => check_each c cl endpoints st
  end.

(** ** The reconciler (agentregistry_controller.go) *)

Record AgentRegistryController := {
  ctl_Client : Cluster;
  ctl_HealthChecker : option Checker;
}.

Record Result := { RequeueAfter : Z }.

(** [int32(n)] for an [int] value. *)
Definition int32_of_int (n : Z) : Z := (n + 2^31) mod 2^32 - 2^31.

(** [5 * time.Minute] in nanoseconds. *)
Definition five_minutes : Z := 5 * 60 * 1000000000.

Section Controller.
Context (lib : GoLib).

Definition annotation_is_true (agent : Agent) (key : string) : bool :=
  bool_decide (agent_Annotations agent !! key = Some "true").

Definition selected (agent : Agent) : bool :=
  annotation_is_true agent AnnotationRegisterToRegistry
  && negb (annotation_is_true agent AnnotationDiscoveryDisabled).

Definition filterAgentsByAnnotation (agents : list Agent) : list Agent :=
  filter (fun agent => selected agent = true) agents.

Definition getMatchingNamespaces (r : AgentRegistryController)
    (selector : LabelSelector) : list string + error :=
  cl_select_namespaces (ctl_Client r) selector.

(** Agents of the namespaces in turn; a namespace whose listing fails is
    skipped. *)
Fixpoint list_all (r : AgentRegistryController) (namespaces : list string)
  : list Agent :=
  match namespaces with
  | [] => []
  | ns :: rest =>
      match Client_ListAgents (ctl_Client r) ns with
      | inr _ => list_all r rest
      | inl items => items ++ list_all r rest
      end
  end.

Definition discoverAgents (r : AgentRegistryController)
    (agentRegistry : AgentRegistry) : list Agent + error :=
  match disc_NamespaceSelector (rspec_Discovery (reg_Spec agentRegistry)) with
  | Some selector =>
      match getMatchingNamespaces r selector with
      | inr err => inr (Errorf_w "failed to get matching namespaces" err)
      | inl namespaces => inl (filterAgentsByAnnotation (list_all r namespaces))
      end
  | None =>
      match Client_ListAgents (ctl_Client r) (reg_Namespace agentRegistry) with
      | inr err => inr (Errorf_w "failed to list agents" err)
      | inl items => inl (filterAgentsByAnnotation items)
      end
  end.

Definition with_EndpointHealthy (healthy : bool) (card : AgentCard) : AgentCard :=
  with_Status
    {| cstat_Hash := cstat_Hash (card_Status card);
       cstat_LastSeen := cstat_LastSeen (card_Status card);
       cstat_EndpointHealthy := Some healthy;
       cstat_Conditions := cstat_Conditions (card_Status card);
       cstat_PublishedRef := cstat_PublishedRef (card_Status card);
       cstat_ObservedGeneration := cstat_ObservedGeneration (card_Status card) |}
    card.

Definition SetOwnerReferences (owners : list OwnerReference) (card : AgentCard)
  : AgentCard :=
  {| card_APIVersion := card_APIVersion card;
     card_Kind := card_Kind card;
     card_Name := card_Name card;
     card_Namespace := card_Namespace card;
     card_OwnerReferences := owners;
     card_Spec := card_Spec card;
     card_Status := card_Status card |}.

Definition controller_ref (agentRegistry : AgentRegistry) : OwnerReference :=
  {| owner_APIVersion := reg_APIVersion agentRegistry;
     owner_Kind := reg_Kind agentRegistry;
     owner_Name := reg_Name agentRegistry;
     owner_UID := reg_UID agentRegistry;
     owner_Controller := Some true |}.

(** The health-check block of [reconcileAgentCard]. *)
Definition probe_health (r : AgentRegistryController) (card : AgentCard)
    (st : State) : AgentCard * State :=
  match ctl_HealthChecker r, spec_Endpoints (card_Spec card) with
  | Some checker, _ :: _ =>
      let '((healthy, _), st) :=
        CheckEndpoints checker (ctl_Client r) (spec_Endpoints (card_Spec card)) st in
      (with_EndpointHealthy healthy card, st)
  | _, _ => (card, st)
  end.

(** [reconcileAgentCard] from the health check to the apply. *)
Definition apply_card (r : AgentRegistryController) (agentRegistry : AgentRegistry)
    (card : AgentCard) (st : State) : option error * State :=
  let '(card, st) := probe_health r card st in
  let card := SetOwnerReferences [controller_ref agentRegistry] card in
  match Client_PatchApply (ctl_Client r) card st with
  | (Some err, st) => (Some (Errorf_w "failed to apply agent card" err), st)
  | (None, st) => (None, st)
  end.

(** The generator [reconcileAgentCard] builds: the controller's client
    and a fresh translator. *)
Definition controller_generator (r : AgentRegistryController) : CardGenerator :=
  {| cg_Client := ctl_Client r; cg_Translator := Some NewTranslator |}.

Definition reconcileAgentCard (r : AgentRegistryController)
    (agentRegistry : AgentRegistry) (agent : Agent) (st : State)
  : option error * State :=
  let generator := controller_generator r in
  let '((card, err), st) := GenerateCard lib generator agentRegistry agent st in
  match err with
  | Some err => (Some (Errorf_w "failed to generate agent card" err), st)
  | None =>
      match Client_GetCard (ctl_Client r) st (card_Namespace card, card_Name card) with
      | Found existing =>
          if bool_decide (cstat_Hash (card_Status existing) = cstat_Hash (card_Status card))
          then (None, st)
          else apply_card r agentRegistry card st
      | NotFound => apply_card r agentRegistry card st
      | GetFailed err =>
          (Some (Errorf_w "failed to get existing agent card" err), st)
      end
  end.

(** The condition loop of [updateStatus]: the first condition of the same
    type is replaced, otherwise the new one is appended. *)
Fixpoint upsert_condition (condition : Condition) (existing : list Condition)
  : list Condition :=
  match existing with
  | [] => [condition]
  | c :: rest =>
      if bool_decide (cond_Type c = cond_Type condition)
      then condition :: rest
      else c :: upsert_condition condition rest
  end.

Definition status_condition (agentRegistry : AgentRegistry) (phase message : string)
    (now : Time) : Condition :=
  {| cond_Type :=
       if bool_decide (phase = PhaseError) then AgentRegistryConditionTypeError
       else if bool_decide (phase = PhaseDiscovering)
            then AgentRegistryConditionTypeDiscovering
            else AgentRegistryConditionTypeReady;
     cond_Status := ConditionTrue;
     cond_ObservedGeneration := reg_Generation agentRegistry;
     cond_LastTransitionTime := now;
     cond_Reason :=
       if bool_decide (phase = PhaseError) then "ReconciliationFailed"
       else if bool_decide (phase = PhaseDiscovering) then "DiscoveringAgents"
            else "ReconciliationSucceeded";
     cond_Message := message |}.

Definition with_reg_Status (status : AgentRegistryStatus) (reg : AgentRegistry)
  : AgentRegistry :=
  {| reg_APIVersion := reg_APIVersion reg; reg_Kind := reg_Kind reg;
     reg_Name := reg_Name reg; reg_Namespace := reg_Namespace reg;
     reg_UID := reg_UID reg; reg_Generation := reg_Generation reg;
     reg_Spec := reg_Spec reg; reg_Status := status |}.

(** The registry is updated in place (returned here) and written through
    the status sub-resource; a failed write is only logged. *)
Definition updateStatus (r : AgentRegistryController) (agentRegistry : AgentRegistry)
    (phase message : string) (registeredAgents : Z) (st : State)
  : AgentRegistry * State :=
  let '(now, st) := metav1_Now (ctl_Client r) st in
  let condition := status_condition agentRegistry phase message now in
  let agentRegistry :=
    with_reg_Status
      {| rstat_Phase := phase;
         rstat_RegisteredAgents := registeredAgents;
         rstat_ObservedGeneration := reg_Generation agentRegistry;
         rstat_LastSync := Some now;
         rstat_Conditions :=
           upsert_condition condition (rstat_Conditions (reg_Status agentRegistry)) |}
      agentRegistry in
  let '(_, st) := Client_StatusUpdate (ctl_Client r) agentRegistry st in
  (agentRegistry, st).

(** The [for _, agent := range agents] loop of [reconcileAgentRegistry]. *)
Fixpoint reconcile_each (r : AgentRegistryController) (agentRegistry : AgentRegistry)
    (agents : list Agent) (registeredCount : Z) (st : State) : Z * State :=
  match agents with
  | [] => (registeredCount, st)
  | agent :: rest =>
      match reconcileAgentCard r agentRegistry agent st with
      | (Some _, st) => reconcile_each r agentRegistry rest registeredCount st
      | (None, st) => reconcile_each r agentRegistry rest (registeredCount + 1) st
      end
  end.

Definition reconcileAgentRegistry (r : AgentRegistryController)
    (agentRegistry : AgentRegistry) (st : State)
  : option error * AgentRegistry * State :=
  if negb (disc_EnableAutoDiscovery (rspec_Discovery (reg_Spec agentRegistry))) then
    let '(agentRegistry, st) :=
      updateStatus r agentRegistry PhaseNotStarted "Auto-discovery disabled" 0 st in
    (None, agentRegistry, st)
  else
    let '(agentRegistry, st) :=
      updateStatus r agentRegistry PhaseDiscovering "Discovering agents" 0 st in
    match discoverAgents r agentRegistry with
    | inr err => (Some (Errorf_w "failed to discover agents" err), agentRegistry, st)
    | inl agents =>
        let '(registeredCount, st) := reconcile_each r agentRegistry agents 0 st in
        let '(agentRegistry, st) :=
          updateStatus r agentRegistry PhaseReady "Discovery complete"
            (int32_of_int registeredCount) st in
        (None, agentRegistry, st)
    end.

Definition Reconcile (r : AgentRegistryController) (req : string * string)
    (st : State) : (Result * option error) * State :=
  match Client_GetRegistry (ctl_Client r) req with
  | NotFound => (({| RequeueAfter := 0 |}, None), st)
  | GetFailed err => (({| RequeueAfter := 0 |}, Some err), st)
  | Found agentRegistry =>
      match reconcileAgentRegistry r agentRegistry st with
      | (Some err, agentRegistry, st) =>
          let '(_, st) := updateStatus r agentRegistry PhaseError err 0 st in
          (({| RequeueAfter := 0 |}, Some err), st)
      | (None, agentRegistry, st) =>
          let syncInterval :=
            default five_minutes
              (disc_SyncInterval (rspec_Discovery (reg_Spec agentRegistry))) in
          (({| RequeueAfter := syncInterval |}, None), st)
      end
  end.

End Controller.

(** ** A reference instance of the library parameters

    SHA-256 as in FIPS 180-4, the JSON byte rendering of [encoding/json]
    (HTML-safe escaping, invalid UTF-8 replaced), and the ASCII behaviour of
    [strings.ToLower] and [strings.TrimSpace].  It is used to run the model on
    the concrete scenarios; the theorems do not depend on it. *)

Module Reference.

Definition w32 : Z := 4294967296.

Definition rotr (n x : Z) : Z :=
  Z.lor (Z.shiftr x n) (Z.shiftl x (32 - n) mod w32).

Definition K : list Z :=
  [
    1116352408; 1899447441; 3049323471; 3921009573; 961987163; 1508970993;
    2453635748; 2870763221; 3624381080; 310598401; 607225278; 1426881987;
    1925078388; 2162078206; 2614888103; 3248222580; 3835390401; 4022224774;
    264347078; 604807628; 770255983; 1249150122; 1555081692; 1996064986;
    2554220882; 2821834349; 2952996808; 3210313671; 3336571891; 3584528711;
    113926993; 338241895; 666307205; 773529912; 1294757372; 1396182291;
    1695183700; 1986661051; 2177026350; 2456956037; 2730485921; 2820302411;
    3259730800; 3345764771; 3516065817; 3600352804; 4094571909; 275423344;
    430227734; 506948616; 659060556; 883997877; 958139571; 1322822218;
    1537002063; 1747873779; 1955562222; 2024104815; 2227730452; 2361852424;
    2428436474; 2756734187; 3204031479; 3329325298 ].

Definition H0 : list Z :=
  [
    1779033703; 3144134277; 1013904242; 2773480762; 1359893119; 2600822924;
    528734635; 1541459225 ].

Definition sigma0 x := Z.lxor (Z.lxor (rotr 7 x) (rotr 18 x)) (Z.shiftr x 3).
Definition sigma1 x := Z.lxor (Z.lxor (rotr 17 x) (rotr 19 x)) (Z.shiftr x 10).
Definition Sigma0 x := Z.lxor (Z.lxor (rotr 2 x) (rotr 13 x)) (rotr 22 x).
Definition Sigma1 x := Z.lxor (Z.lxor (rotr 6 x) (rotr 11 x)) (rotr 25 x).
Definition Ch e f g := Z.lxor (Z.land e f) (Z.land (Z.lxor e (w32 - 1)) g).
Definition Maj a b c :=
  Z.lxor (Z.lxor (Z.land a b) (Z.land a c)) (Z.land b c).

Definition byte_val (c : ascii) : Z := Z.of_N (N_of_ascii c).
Definition byte_of (z : Z) : ascii := ascii_of_N (Z.to_N (z mod 256)).

Fixpoint bytes_of (s : string) : list Z :=
  match s with
  | EmptyString => []
  | String c rest => byte_val c :: bytes_of rest
  end.

Fixpoint string_of (l : list Z) : string :=
  match l with
  | [] => EmptyString
  | b :: rest => String (byte_of b) (string_of rest)
  end.

(** Big-endian bytes of a [width]-byte number. *)
Fixpoint be_bytes (width : nat) (x : Z) : list Z :=
  match width with
  | O => []
  | S w => (Z.shiftr x (8 * Z.of_nat w)) mod 256 :: be_bytes w x
  end.

Definition pad (msg : list Z) : list Z :=
  let len := Z.of_nat (length msg) in
  let zeros := Z.to_nat ((55 - len) mod 64) in
  msg ++ [128] ++ replicate zeros 0 ++ be_bytes 8 (8 * len).

(** The sixteen big-endian words of a 64-byte block. *)
Fixpoint words (block : list Z) : list Z :=
  match block with
  | a :: b :: c :: d :: rest =>
      (((a * 256 + b) * 256 + c) * 256 + d) :: words_aux rest
  | _ => []
  end
with words_aux (block : list Z) : list Z :=
  match block with
  | a :: b :: c :: d :: rest =>
      (((a * 256 + b) * 256 + c) * 256 + d) :: words rest
  | _ => []
  end.

(** Message schedule, most recent word first. *)
Fixpoint schedule (n : nat) (rev_w : list Z) : list Z :=
  match n with
  | O => rev_w
  | S n' =>
      let w := (sigma1 (nth 1 rev_w 0) + nth 6 rev_w 0
                + sigma0 (nth 14 rev_w 0) + nth 15 rev_w 0) mod w32 in
      schedule n' (w :: rev_w)
  end.

Definition round (s : list Z) (kw : Z * Z) : list Z :=
  match s with
  | [a; b; c; d; e; f; g; h] =>
      let t1 := (h + Sigma1 e + Ch e f g + kw.1 + kw.2) mod w32 in
      let t2 := (Sigma0 a + Maj a b c) mod w32 in
      [(t1 + t2) mod w32; a; b; c; (d + t1) mod w32; e; f; g]
  | _ => s
  end.

Definition compress (h : list Z) (block : list Z) : list Z :=
  let w := rev (schedule 48 (rev (words block))) in
  let s := foldl round h (zip K w) in
  zip_with (fun x y => (x + y) mod w32) h s.

Fixpoint blocks (n : nat) (msg : list Z) : list (list Z) :=
  match n with
  | O => []
  | S n' => take 64 msg :: blocks n' (drop 64 msg)
  end.

Definition sha256 (msg : string) : string :=
  let padded := pad (bytes_of msg) in
  let h := foldl compress H0 (blocks (length padded / 64) padded) in
  string_of (h ≫= be_bytes 4).

(** *** [strings.ToLower] and [strings.TrimSpace] on ASCII *)

Definition lower_byte (c : ascii) : ascii :=
  let n := N_of_ascii c in
  if ((65 <=? n) && (n <=? 90))%N then ascii_of_N (n + 32) else c.

Fixpoint ToLower (s : string) : string :=
  match s with
  | EmptyString => EmptyString
  | String c rest => String (lower_byte c) (ToLower rest)
  end.

Definition is_space (c : ascii) : bool :=
  let n := N_of_ascii c in
  ((n =? 32) || ((9 <=? n) && (n <=? 13)))%N.

Fixpoint trim_left (s : string) : string :=
  match s with
  | EmptyString => EmptyString
  | String c rest => if is_space c then trim_left rest else s
  end.

Fixpoint trim_right (s : string) : string :=
  match s with
  | EmptyString => EmptyString
  | String c rest =>
      match trim_right rest with
      | EmptyString => if is_space c then EmptyString else String c EmptyString
      | rest' => String c rest'
      end
  end.

Definition TrimSpace (s : string) : string := trim_right (trim_left s).

(** *** Byte rendering of a JSON tree *)

Definition is_cont (lo hi : Z) (c : ascii) : bool :=
  (lo <=? byte_val c) && (byte_val c <=? hi).

(** Length of the valid UTF-8 sequence that starts with the non-ASCII byte
    [b] followed by [rest], or [0] when there is none. *)
Definition utf8_len (b : Z) (rest : string) : nat :=
  let second lo hi := match rest with
                      | String c1 _ => is_cont lo hi c1
                      | _ => false
                      end in
  let third := match rest with
               | String _ (String c2 _) => is_cont 128 191 c2
               | _ => false
               end in
  let fourth := match rest with
                | String _ (String _ (String c3 _)) => is_cont 128 191 c3
                | _ => false
                end in
  if (194 <=? b) && (b <=? 223) then (if second 128 191 then 2%nat else 0%nat)
  else if b =? 224 then (if second 160 191 && third then 3%nat else 0%nat)
  else if b =? 237 then (if second 128 159 && third then 3%nat else 0%nat)
  else if (225 <=? b) && (b <=? 239) then (if second 128 191 && third then 3%nat else 0%nat)
  else if b =? 240 then (if second 144 191 && third && fourth then 4%nat else 0%nat)
  else if (241 <=? b) && (b <=? 243)
       then (if second 128 191 && third && fourth then 4%nat else 0%nat)
  else if b =? 244 then (if second 128 143 && third && fourth then 4%nat else 0%nat)
  else 0%nat.

Definition u00 (b : Z) : string :=
  "\u00" ++ String (GoStr.hex_digit (Z.to_N (b / 16)))
              (String (GoStr.hex_digit (Z.to_N (b mod 16))) EmptyString).

Definition escape_ascii (c : ascii) : string :=
  let b := byte_val c in
  if (b =? 34) || (b =? 92) then String "\" (String c EmptyString)
  else if b =? 8 then "\b"
  else if b =? 12 then "\f"
  else if b =? 10 then "\n"
  else if b =? 13 then "\r"
  else if b =? 9 then "\t"
  else if (b <? 32) || (b =? 60) || (b =? 62) || (b =? 38) then u00 b
  else String c EmptyString.

(** [copy] bytes are passed through (the tail of a valid sequence), [skip]
    bytes are dropped (the tail of an escaped U+2028 or U+2029). *)
Fixpoint escape (copy skip : nat) (s : string) : string :=
  match s with
  | EmptyString => EmptyString
  | String c rest =>
      match skip, copy with
      | S skip', _ => escape copy skip' rest
      | O, S copy' => String c (escape copy' O rest)
      | O, O =>
          let b := byte_val c in
          if b <? 128 then escape_ascii c ++ escape O O rest
          else
            match utf8_len b rest with
            | O => "\ufffd" ++ escape O O rest
            | S n =>
                match rest with
                | String c1 (String c2 _) =>
                    if (b =? 226) && (byte_val c1 =? 128)
                       && ((byte_val c2 =? 168) || (byte_val c2 =? 169))
                    then "\u202" ++ String (GoStr.hex_digit (Z.to_N (byte_val c2 - 160)))
                                      (escape O 2 rest)
                    else String c (escape n O rest)
                | _ => String c (escape n O rest)
                end
            end
      end
  end.

(** The double-quote byte. *)
Definition dquote : ascii := ascii_of_N 34.

Definition quote (s : string) : string :=
  String dquote (escape O O s ++ String dquote EmptyString).

Fixpoint render (v : json) : string :=
  match v with
  | JNull => "null"
  | JBool b => if b then "true" else "false"
  | JNum z => GoStr.Itoa z
  | JStr s => quote s
  | JArr items =>
      "[" ++ (fix elems (l : list json) : string :=
                match l with
                | [] => EmptyString
                | x :: rest =>
                    match rest with
                    | [] => render x
                    | _ => render x ++ "," ++ elems rest
                    end
                end) items ++ "]"
  | JObj fields =>
      "{" ++ (fix members (l : list (string * json)) : string :=
                match l with
                | [] => EmptyString
                | (k, x) :: rest =>
                    match rest with
                    | [] => quote k ++ ":" ++ render x
                    | _ => quote k ++ ":" ++ render x ++ "," ++ members rest
                    end
                end) fields ++ "}"
  end.

(** *** The A2A document (field names of the A2A agent-card schema) *)

Import Json.

Definition opt_field {A} (key : string) (f : A -> json) (o : option A)
  : list (string * json) :=
  match o with Some x => [(key, f x)] | None => [] end.

Definition skill_json (k : server_AgentSkill) : json :=
  JObj (field "id" (JStr (sskill_ID k))
     ++ field "name" (JStr (sskill_Name k))
     ++ opt_field "description" JStr (sskill_Description k)
     ++ field "tags" (JArr (JStr <$> sskill_Tags k))).

Definition provider_json (p : server_AgentProvider) : json :=
  JObj (field "organization" (JStr (prov_Organization p))
     ++ opt_field "url" JStr (prov_URL p)).

Definition capabilities_json (c : server_AgentCapabilities) : json :=
  JObj (opt_field "streaming" JBool (caps_Streaming c)
     ++ opt_field "pushNotifications" JBool (caps_PushNotifications c)
     ++ opt_field "stateTransitionHistory" JBool (caps_StateTransitionHistory c)).

Definition a2a_json (d : server_AgentCard) : json :=
  JObj (field "name" (JStr (doc_Name d))
     ++ field "description" (JStr (doc_Description d))
     ++ field "url" (JStr (doc_URL d))
     ++ opt_field "provider" provider_json (doc_Provider d)
     ++ opt_field "iconUrl" JStr (doc_IconURL d)
     ++ field "version" (JStr (doc_Version d))
     ++ opt_field "documentationUrl" JStr (doc_DocumentationURL d)
     ++ field "capabilities" (capabilities_json (doc_Capabilities d))
     ++ field "defaultInputModes" (JArr (JStr <$> doc_DefaultInputModes d))
     ++ field "defaultOutputModes" (JArr (JStr <$> doc_DefaultOutputModes d))
     ++ field "skills" (JArr (skill_json <$> doc_Skills d))
     ++ opt_field "protocolVersion" JStr (doc_ProtocolVersion d)).

Definition lib : GoLib :=
  {| strings_ToLower := ToLower;
     strings_TrimSpace := TrimSpace;
     sha256_Sum256 := sha256;
     json_render := render;
     json_Marshal_a2a := fun d => inl (render (a2a_json d)) |}.

(** The same library with a document marshaller that fails. *)
Definition lib_marshal_fails : GoLib :=
  {| strings_ToLower := ToLower;
     strings_TrimSpace := TrimSpace;
     sha256_Sum256 := sha256;
     json_render := render;
     json_Marshal_a2a := fun _ => inr "json: unsupported value" |}.

End Reference.

(** ** The scenarios of the specification as concrete inputs *)

Module Scenario.

Definition r1 : AgentRegistry :=
  {| reg_APIVersion := "kagent.dev/v1alpha1"; reg_Kind := "AgentRegistry";
     reg_Name := "r1"; reg_Namespace := "n"; reg_UID := "uid-r1";
     reg_Generation := 1;
     reg_Spec :=
       {| rspec_Discovery :=
            {| disc_EnableAutoDiscovery := true;
               disc_NamespaceSelector := None;
               disc_SyncInterval := None |};
          rspec_A2AVersion := "0.3.0" |};
     reg_Status :=
       {| rstat_RegisteredAgents := 0; rstat_Phase := ""; rstat_LastSync := None;
          rstat_Conditions := []; rstat_ObservedGeneration := 0 |} |}.

(** [r1] with discovery switched off. *)
Definition r1_disabled : AgentRegistry :=
  {| reg_APIVersion := reg_APIVersion r1; reg_Kind := reg_Kind r1;
     reg_Name := reg_Name r1; reg_Namespace := reg_Namespace r1;
     reg_UID := reg_UID r1; reg_Generation := reg_Generation r1;
     reg_Spec :=
       {| rspec_Discovery :=
            {| disc_EnableAutoDiscovery := false;
               disc_NamespaceSelector := None;
               disc_SyncInterval := None |};
          rspec_A2AVersion := "0.3.0" |};
     reg_Status := reg_Status r1 |}.

Definition agent_with (annotations : gmap string string) : Agent :=
  {| agent_APIVersion := "kagent.dev/v1alpha2"; agent_Kind := "Agent";
     agent_Name := "a1"; agent_Namespace := "n"; agent_UID := "uid-a1";
     agent_ResourceVersion := "7"; agent_Generation := 1;
     agent_Labels := ∅;
     agent_Annotations := annotations;
     agent_Spec := {| aspec_Description := "hello"; aspec_Declarative := None |} |}.

(** S1: registered, nothing else. *)
Definition a1 : Agent :=
  agent_with {[ AnnotationRegisterToRegistry := "true" ]}.

(** S3: with the endpoint override. *)
Definition a1_override : Agent :=
  agent_with (<[ AnnotationA2AEndpoint := "https://x.example:9000" ]>
                {[ AnnotationRegisterToRegistry := "true" ]}).

(** S6: registered, then discovery disabled. *)
Definition a1_disabled : Agent :=
  agent_with (<[ AnnotationDiscoveryDisabled := "true" ]>
                {[ AnnotationRegisterToRegistry := "true" ]}).

(** S2: the Service n/a1. *)
Definition svc_a1 : Service :=
  {| svc_Name := "a1"; svc_Namespace := "n";
     svc_Ports := [ {| port_Name := "http"; port_Protocol := "TCP"; port_Port := 8080 |};
                    {| port_Name := "grpc"; port_Protocol := "TCP"; port_Port := 9090 |} ] |}.

(** A cluster without failures: the clock advances by one second per
    reading from 1000, and no endpoint accepts connections. *)
Definition cluster (services : gmap (string * string) Service) (agents : list Agent)
    (registry : AgentRegistry) (ctx_done : bool) : Cluster :=
  {| cl_services := services;
     cl_agents := agents;
     cl_registries := {[ ("n", "r1") := registry ]};
     cl_select_namespaces := fun _ => inl ["n"];
     cl_get_service_err := fun _ => None;
     cl_get_card_err := fun _ => None;
     cl_get_registry_err := fun _ => None;
     cl_list_agents_err := fun _ => None;
     cl_patch_err := fun _ => None;
     cl_status_update_err := None;
     cl_clock := fun n => 1000 + Z.of_nat n;
     cl_ctx_done := fun _ => ctx_done;
     cl_url_ok := fun _ => true;
     cl_http_head := fun _ => TransportError "connection refused" |}.

Definition st0 : State :=
  {| st_cards := ∅; st_applied := []; st_status_updates := [];
     st_clock_reads := 0; st_probes := 0 |}.

Definition controller (cl : Cluster) : AgentRegistryController :=
  {| ctl_Client := cl; ctl_HealthChecker := Some (NewChecker 5000000000) |}.

Definition generator (cl : Cluster) : CardGenerator :=
  {| cg_Client := cl; cg_Translator := Some NewTranslator |}.

Definition s1_cluster : Cluster := cluster ∅ [a1] r1 false.
Definition s2_cluster : Cluster := cluster {[ ("n", "a1") := svc_a1 ]} [a1] r1 false.
Definition s3_cluster : Cluster :=
  cluster {[ ("n", "a1") := svc_a1 ]} [a1_override] r1 false.
Definition s6_cluster : Cluster := cluster ∅ [a1_disabled] r1 false.

(** S3 with the lifecycle context cancelled from the start. *)
Definition s3_cancelled : Cluster := cluster ∅ [a1_override] r1 true.

(** S1 with discovery switched off in the Registry. *)
Definition s1_disabled : Cluster := cluster ∅ [a1] r1_disabled false.

(** The Registry of S1 with a namespace selector, in a cluster where the
    selector matches the namespace [n] and listing the Agents of [n] is
    refused. *)
Definition r1_selecting : AgentRegistry :=
  {| reg_APIVersion := reg_APIVersion r1; reg_Kind := reg_Kind r1;
     reg_Name := reg_Name r1; reg_Namespace := reg_Namespace r1;
     reg_UID := reg_UID r1; reg_Generation := reg_Generation r1;
     reg_Spec :=
       {| rspec_Discovery :=
            {| disc_EnableAutoDiscovery := true;
               disc_NamespaceSelector :=
                 Some {| sel_MatchLabels := ∅; sel_MatchExpressions := [] |};
               disc_SyncInterval := None |};
          rspec_A2AVersion := "0.3.0" |};
     reg_Status := reg_Status r1 |}.

Definition unlisted_cluster : Cluster :=
  {| cl_services := ∅;
     cl_agents := [a1];
     cl_registries := {[ ("n", "r1") := r1_selecting ]};
     cl_select_namespaces := fun _ => inl ["n"];
     cl_get_service_err := fun _ => None;
     cl_get_card_err := fun _ => None;
     cl_get_registry_err := fun _ => None;
     cl_list_agents_err := fun ns => if String.eqb ns "n" then Some "forbidden" else None;
     cl_patch_err := fun _ => None;
     cl_status_update_err := None;
     cl_clock := fun n => 1000 + Z.of_nat n;
     cl_ctx_done := fun _ => false;
     cl_url_ok := fun _ => true;
     cl_http_head := fun _ => TransportError "connection refused" |}.

(** The state after a first pass over S1. *)
Definition st_after_s1 : State :=
  (reconcileAgentRegistry Reference.lib (controller s1_cluster) r1 st0).2.

(** The Card that pass stores for [a1]. *)
Definition card_after_s1 : AgentCard :=
  SetOwnerReferences [controller_ref r1]
    (GenerateCard Reference.lib (generator s1_cluster) r1 a1 (tick_clock st0)).1.1.

(** Two endpoints: the first refuses connections, the second answers 200. *)
Definition dead_endpoint : AgentEndpoint :=
  {| ep_URL := "http://dead.n.svc.cluster.local:8080"; ep_Protocol := "http";
     ep_Port := 8080 |}.

Definition live_endpoint : AgentEndpoint :=
  {| ep_URL := "http://live.n.svc.cluster.local:8080"; ep_Protocol := "http";
     ep_Port := 8080 |}.

Definition probe_cluster : Cluster :=
  {| cl_services := ∅;
     cl_agents := [];
     cl_registries := ∅;
     cl_select_namespaces := fun _ => inl [];
     cl_get_service_err := fun _ => None;
     cl_get_card_err := fun _ => None;
     cl_get_registry_err := fun _ => None;
     cl_list_agents_err := fun _ => None;
     cl_patch_err := fun _ => None;
     cl_status_update_err := None;
     cl_clock := fun n => 1000 + Z.of_nat n;
     cl_ctx_done := fun _ => false;
     cl_url_ok := fun _ => true;
     cl_http_head := fun url =>
       if String.eqb url (ep_URL live_endpoint) then Response 200
       else TransportError "connection refused" |}.

End Scenario.

(** ** Notions used to state the properties *)



(** The serialized spec of the Card has an [endpoints] member. *)
Definition endpoints_present (card : AgentCard) : Prop :=
  is_Some (Json.member "endpoints" (CardJson.AgentCardSpec_json (card_Spec card))).

(** The digest of the rendering of a JSON tree, as [calculateHash] takes it. *)
Definition digest_of (lib : GoLib) (t : json) : string :=
  sha256_Sum256 lib (json_render lib t).

(** Two different JSON trees whose renderings have the same digest. *)
Definition digests_collide (lib : GoLib) (t1 t2 : json) : Prop :=
  t1 <> t2 /\ digest_of lib t1 = digest_of lib t2.

(** [spec] with another public document. *)
Definition spec_with_PublicCard (doc : string) (spec : AgentCardSpec) : AgentCardSpec :=
  {| spec_Name := spec_Name spec;
     spec_Version := spec_Version spec;
     spec_SourceRef := spec_SourceRef spec;
     spec_Endpoints := spec_Endpoints spec;
     spec_Capabilities := spec_Capabilities spec;
     spec_A2AVersion := spec_A2AVersion spec;
     spec_Metadata := spec_Metadata spec;
     spec_PublicCard := doc |}.

(** The lifecycle context is cancelled by the time the [n]-th probe runs,
    and stays so. *)
Definition cancelled_from (cl : Cluster) (n : nat) : Prop :=
  forall m, (n <= m)%nat -> cl_ctx_done cl m = true.

(** The probe numbered [n] of [endpoint] gets the HTTP status [code]: the
    URL is well formed, the context is live and the server replies in time. *)
Definition answers (cl : Cluster) (n : nat) (endpoint : AgentEndpoint) (code : Z)
  : Prop :=
  cl_url_ok cl (ep_URL endpoint) = true
  /\ cl_ctx_done cl n = false
  /\ cl_http_head cl (ep_URL endpoint) = Response code.

(** The probe numbered [n] of [endpoint] gets a status in [200, 500). *)
Definition healthy_answer (cl : Cluster) (n : nat) (endpoint : AgentEndpoint) : Prop :=
  exists code, answers cl n endpoint code /\ 200 <= code < 500.

(** What stays the same in the state while endpoints are probed. *)
Definition probes_only (st st' : State) : Prop :=
  st_cards st' = st_cards st
  /\ st_applied st' = st_applied st
  /\ st_status_updates st' = st_status_updates st
  /\ st_clock_reads st' = st_clock_reads st.

(** The byte [c] occurs in [s]. *)
Fixpoint contains_byte (c : ascii) (s : string) : bool :=
  match s with
  | EmptyString => false
  | String b rest => Ascii.eqb b c || contains_byte c rest
  end.

(** Inverse of [GoStr.Itoa]. *)
Definition Atoi (s : string) : option Z :=
  Z.of_int <$> NilZero.int_of_string s.

(** The skills an Agent declares, none without an A2A sub-config. *)
Definition declared_skills (agent : Agent) : list AgentSkill :=
  match aspec_Declarative (agent_Spec agent) with
  | Some decl => match decl_A2AConfig decl with
                 | Some cfg => a2a_Skills cfg
                 | None => []
                 end
  | None => []
  end.

(** The metadata before the annotations are ranged over. *)
Definition metadata_before_annotations (agent : Agent) : gmap string string :=
  declarative_metadata agent
    (put_if_nonempty "description" (aspec_Description (agent_Spec agent)) ∅).

(** [key] is what a [card-] annotation of the Agent contributes to. *)
Definition annotation_target (agent : Agent) (key : string) : Prop :=
  exists k, is_Some (agent_Annotations agent !! k)
            /\ GoStr.HasPrefix k AnnotationCardMetadataPrefix = true
            /\ GoStr.TrimPrefix k AnnotationCardMetadataPrefix = key.

(** The member an [omitempty] string field contributes. *)
Definition opt_string (s : string) : option json :=
  match s with EmptyString => None | _ => Some (JStr s) end.

(** The string of a JSON string node. *)
Definition json_string (v : json) : string :=
  match v with JStr s => s | _ => EmptyString end.

(** The hash in the status of the Card is the hash of its spec. *)
Definition hash_consistent (lib : GoLib) (card : AgentCard) : Prop :=
  cstat_Hash (card_Status card) = calculateHash lib (card_Spec card).

(** The spec the controller derives for an Agent. *)
Definition derived_spec (lib : GoLib) (r : AgentRegistryController)
    (reg : AgentRegistry) (agent : Agent) : AgentCardSpec :=
  card_Spec (embed_public_card lib (controller_generator r)
               (initial_card lib (controller_generator r) reg agent)).

(** A character of a lower-case hexadecimal numeral. *)
Definition is_hex_digit (c : ascii) : bool :=
  let n := N_of_ascii c in
  (((48 <=? n) && (n <=? 57)) || ((97 <=? n) && (n <=? 102)))%N.

(** All characters of [s] satisfy [p]. *)
Fixpoint string_forall (p : ascii -> bool) (s : string) : bool :=
  match s with
  | EmptyString => true
  | String c rest => p c && string_forall p rest
  end.

(** No client call about the Card of [agent] fails. *)
Definition no_card_faults (cl : Cluster) (agent : Agent) : Prop :=
  cl_get_card_err cl (agent_Namespace agent, agent_Name agent) = None
  /\ cl_patch_err cl (agent_Namespace agent, agent_Name agent) = None.

(** The type of the condition a status write with [phase] records. *)
Definition condition_type_of (phase : string) : string :=
  if bool_decide (phase = PhaseError) then AgentRegistryConditionTypeError
  else if bool_decide (phase = PhaseDiscovering) then AgentRegistryConditionTypeDiscovering
  else AgentRegistryConditionTypeReady.

(** The Agent is in the scope of the Registry: it is an Agent of the
    cluster in the Registry's own namespace or, when the Registry has a
    namespace selector, in a namespace the selector matches. *)
Definition in_scope (cl : Cluster) (reg : AgentRegistry) (agent : Agent) : Prop :=
  agent ∈ cl_agents cl
  /\ match disc_NamespaceSelector (rspec_Discovery (reg_Spec reg)) with
     | None => agent_Namespace agent = reg_Namespace reg
     | Some selector =>
         exists namespaces,
           cl_select_namespaces cl selector = inl namespaces
           /\ agent_Namespace agent ∈ namespaces
     end.

(** Listing the Agents of the Agent's namespace does not fail. *)
Definition listed (cl : Cluster) (agent : Agent) : Prop :=
  cl_list_agents_err cl (agent_Namespace agent) = None.

(** The key under which the Card of an Agent is stored. *)
Definition card_key (agent : Agent) : string * string :=
  (agent_Namespace agent, agent_Name agent).

(** A status write records a terminal phase. *)
Definition terminal_phase (reg : AgentRegistry) : Prop :=
  rstat_Phase (reg_Status reg) = PhaseReady
  \/ rstat_Phase (reg_Status reg) = PhaseError.


(** * Properties *)

(** ** Strings *)

Module GoStrFacts.
Import GoStr.

Lemma strip_app (p s r : string) : strip p s = Some r -> s = p ++ r.
Proof.
  revert s; induction p as [|a p IH]; intros s; simpl.
  - by intros [= ->].
  - destruct s as [|b s]; [discriminate|].
    destruct (Ascii.eqb_spec a b) as [->|]; [|discriminate].
    intros H. apply IH in H. subst s. reflexivity.
Qed.

(** Two keys with the prefix and the same remainder are the same key. *)
Lemma TrimPrefix_inj (p k1 k2 : string) :
  HasPrefix k1 p = true -> HasPrefix k2 p = true ->
  TrimPrefix k1 p = TrimPrefix k2 p -> k1 = k2.
Proof.
  unfold HasPrefix, TrimPrefix.
  destruct (strip p k1) as [r1|] eqn:H1; [|discriminate].
  destruct (strip p k2) as [r2|] eqn:H2; [|discriminate].
  intros _ _ ->. apply strip_app in H1, H2. congruence.
Qed.

Lemma hex_byte_roundtrip (b : ascii) :
  ascii_of_N (16 * hex_value (hex_digit (N_of_ascii b / 16))
              + hex_value (hex_digit (N_of_ascii b mod 16))) = b.
Proof. destruct b as [[] [] [] [] [] [] [] []]; reflexivity. Qed.

Lemma Unhex_Hex (s : string) : Unhex (Hex s) = s.
Proof.
  induction s as [|b s IH]; [reflexivity|].
  cbn [Hex Unhex]. by rewrite hex_byte_roundtrip, IH.
Qed.

Lemma Hex_inj (s1 s2 : string) : Hex s1 = Hex s2 -> s1 = s2.
Proof. intros H. rewrite <- (Unhex_Hex s1), <- (Unhex_Hex s2). by rewrite H. Qed.

End GoStrFacts.

(** ** The derivation engine *)

Section CardGenFacts.
Context (lib : GoLib).

Lemma embed_public_card_spec (g : CardGenerator) (card : AgentCard) :
  let card' := embed_public_card lib g card in
  card_Name card' = card_Name card
  /\ card_Namespace card' = card_Namespace card
  /\ spec_Endpoints (card_Spec card') = spec_Endpoints (card_Spec card)
  /\ spec_Capabilities (card_Spec card') = spec_Capabilities (card_Spec card)
  /\ spec_Metadata (card_Spec card') = spec_Metadata (card_Spec card).
Proof.
  unfold embed_public_card.
  destruct (cg_Translator g); [|done].
  destruct (Translator.ToJSON lib (Some card)); done.
Qed.

Lemma GenerateCard_unfold (g : CardGenerator) (reg : AgentRegistry) (agent : Agent)
    (st : State) :
  GenerateCard lib g reg agent st =
    let card := embed_public_card lib g (initial_card lib g reg agent) in
    ((with_Status
        (generated_status (calculateHash lib (card_Spec card))
           (cl_clock (cg_Client g) (st_clock_reads st)) agent) card, None),
     tick_clock st).
Proof. reflexivity. Qed.

Lemma GenerateCard_endpoints (g : CardGenerator) (reg : AgentRegistry) (agent : Agent)
    (st : State) :
  spec_Endpoints (card_Spec (GenerateCard lib g reg agent st).1.1)
  = extractEndpoints lib g agent.
Proof.
  rewrite GenerateCard_unfold. cbn.
  by destruct (embed_public_card_spec g (initial_card lib g reg agent))
    as (_ & _ & -> & _).
Qed.

Lemma GenerateCard_key (g : CardGenerator) (reg : AgentRegistry) (agent : Agent)
    (st : State) :
  let card := (GenerateCard lib g reg agent st).1.1 in
  card_Namespace card = agent_Namespace agent /\ card_Name card = agent_Name agent.
Proof.
  rewrite GenerateCard_unfold. cbn.
  by destruct (embed_public_card_spec g (initial_card lib g reg agent))
    as (-> & -> & _).
Qed.


(** *** Members of the serialized spec *)

(** Decide every remaining [omitempty] test, then look the key up. *)
Ltac by_field_cases :=
  repeat match goal with
         | |- context [if ?b then _ else _] => destruct b
         end;
  reflexivity.

Lemma member_endpoints (spec : AgentCardSpec) :
  Json.member "endpoints" (CardJson.AgentCardSpec_json spec)
  = match spec_Endpoints spec with
    | [] => None
    | endpoints => Some (JArr (CardJson.AgentEndpoint_json <$> endpoints))
    end.
Proof.
  unfold CardJson.AgentCardSpec_json, Json.member, Json.omitempty, Json.field.
  destruct (spec_Endpoints spec); cbn [Json.is_empty_list]; by_field_cases.
Qed.

Lemma member_publicCard (spec : AgentCardSpec) :
  Json.member "publicCard" (CardJson.AgentCardSpec_json spec)
  = match spec_PublicCard spec with
    | EmptyString => None
    | doc => Some (JStr doc)
    end.
Proof.
  unfold CardJson.AgentCardSpec_json, Json.member, Json.omitempty, Json.field.
  destruct (spec_PublicCard spec); cbn [Json.is_empty_string]; by_field_cases.
Qed.

(** Specs with different public documents serialize to different trees. *)
Lemma AgentCardSpec_json_publicCard (spec1 spec2 : AgentCardSpec) :
  CardJson.AgentCardSpec_json spec1 = CardJson.AgentCardSpec_json spec2 ->
  spec_PublicCard spec1 = spec_PublicCard spec2.
Proof.
  intros H. apply (f_equal (Json.member "publicCard")) in H.
  rewrite !member_publicCard in H.
  destruct (spec_PublicCard spec1), (spec_PublicCard spec2); congruence.
Qed.

(** C5, as amended. When no endpoint rule matches (no a2a-endpoint
    annotation, no A2A sub-config, no Service of the Agent's name in its
    namespace) a Card is still produced, without error; its endpoint list
    is empty, and the [endpoints] member, being tagged [omitempty], is
    left out of the serialized spec. *)
Theorem GenerateCard_without_endpoints
    (g : CardGenerator) (reg : AgentRegistry) (agent : Agent) (st : State) :
  agent_Annotations agent !! AnnotationA2AEndpoint = None ->
  has_A2AConfig agent = false ->
  cl_services (cg_Client g) !! card_key agent = None ->
  let result := (GenerateCard lib g reg agent st).1 in
  result.2 = None
  /\ card_Name result.1 = agent_Name agent
  /\ card_Namespace result.1 = agent_Namespace agent
  /\ spec_Endpoints (card_Spec result.1) = []
  /\ Json.member "endpoints" (CardJson.AgentCardSpec_json (card_Spec result.1)) = None
  /\ ~ endpoints_present result.1.
Proof.
  intros Hann Ha2a Hsvc result.
  assert (Hnone : spec_Endpoints (card_Spec result.1) = []).
  { subst result. rewrite GenerateCard_endpoints.
    unfold extractEndpoints, findServiceForAgent, Client_GetService, get_from.
    rewrite Hann, Ha2a. fold (card_key agent). rewrite Hsvc.
    by destruct (cl_get_service_err (cg_Client g) (card_key agent)). }
  assert (Hmem : Json.member "endpoints"
                   (CardJson.AgentCardSpec_json (card_Spec result.1)) = None).
  { by rewrite member_endpoints, Hnone. }
  destruct (GenerateCard_key g reg agent st) as [Hns Hname].
  repeat split; try done.
  unfold endpoints_present. rewrite Hmem. by intros [? ?].
Qed.

(** C6. The hash in the status of a derived Card is the hexadecimal
    rendering of the SHA-256 digest of the serialized spec of that same
    Card, the spec that already carries the public document produced by
    the translator.  The public document is part of what is hashed: two
    specs with different public documents have different serializations,
    and their hashes are equal only if the digests of these two different
    serializations collide. *)
Theorem GenerateCard_hash
    (g : CardGenerator) (reg : AgentRegistry) (agent : Agent) (st : State) :
  let card := (GenerateCard lib g reg agent st).1.1 in
  cstat_Hash (card_Status card)
    = GoStr.Hex (sha256_Sum256 lib
                   (json_render lib (CardJson.AgentCardSpec_json (card_Spec card))))
  /\ (forall translator doc,
        cg_Translator g = Some translator ->
        Translator.ToJSON lib (Some (initial_card lib g reg agent)) = inl doc ->
        spec_PublicCard (card_Spec card) = doc)
  /\ (forall spec1 spec2,
        calculateHash lib spec1 = calculateHash lib spec2 <->
        digest_of lib (CardJson.AgentCardSpec_json spec1)
        = digest_of lib (CardJson.AgentCardSpec_json spec2))
  /\ (forall spec1 spec2,
        spec_PublicCard spec1 <> spec_PublicCard spec2 ->
        CardJson.AgentCardSpec_json spec1 <> CardJson.AgentCardSpec_json spec2
        /\ (calculateHash lib spec1 = calculateHash lib spec2 ->
            digests_collide lib (CardJson.AgentCardSpec_json spec1)
              (CardJson.AgentCardSpec_json spec2))).
Proof.
  intros card. subst card. rewrite GenerateCard_unfold.
  cbv zeta. cbn [fst snd with_Status card_Spec card_Status].
  split; [reflexivity|]. split; [|split].
  - intros translator doc Htr Hdoc. unfold embed_public_card.
    by rewrite Htr, Hdoc.
  - intros spec1 spec2. unfold calculateHash, digest_of. split.
    + apply GoStrFacts.Hex_inj.
    + by intros ->.
  - intros spec1 spec2 Hne.
    assert (Htree : CardJson.AgentCardSpec_json spec1
                    <> CardJson.AgentCardSpec_json spec2).
    { intros Heq. by apply Hne, AgentCardSpec_json_publicCard. }
    split; [done|].
    intros Hhash. apply GoStrFacts.Hex_inj in Hhash. by split.
Qed.

(** C10. [GenerateCard] always returns a Card and a nil error.  When the
    translator fails, or when there is none, the public document of the
    Card is empty and nothing else tells the caller. *)
Theorem GenerateCard_never_fails
    (g : CardGenerator) (reg : AgentRegistry) (agent : Agent) (st : State) :
  let result := (GenerateCard lib g reg agent st).1 in
  result.2 = None
  /\ (forall err,
        Translator.ToJSON lib (Some (initial_card lib g reg agent)) = inr err ->
        spec_PublicCard (card_Spec result.1) = "")
  /\ (cg_Translator g = None -> spec_PublicCard (card_Spec result.1) = "").
Proof.
  intros result. subst result. rewrite GenerateCard_unfold.
  cbv zeta. cbn [fst snd with_Status card_Spec card_Status].
  split; [reflexivity|]. unfold embed_public_card. split.
  - intros err Herr. rewrite Herr. by destruct (cg_Translator g).
  - by intros ->.
Qed.

(** *** Ranging over the annotations *)

Lemma annotation_step_comm (m : gmap string string) (x y : string * string) :
  x.1 <> y.1 ->
  annotation_step (annotation_step m x) y = annotation_step (annotation_step m y) x.
Proof.
  intros Hne. unfold annotation_step.
  destruct (GoStr.HasPrefix x.1 AnnotationCardMetadataPrefix) eqn:Hx;
    destruct (GoStr.HasPrefix y.1 AnnotationCardMetadataPrefix) eqn:Hy; try done.
  apply insert_insert_ne. intros Heq. apply Hne.
  by apply (GoStrFacts.TrimPrefix_inj AnnotationCardMetadataPrefix).
Qed.

Lemma foldl_annotation_step_perm (l1 l2 : list (string * string)) :
  l1 ≡ₚ l2 -> NoDup l1.*1 ->
  forall m, foldl annotation_step m l1 = foldl annotation_step m l2.
Proof.
  induction 1 as [|x l1 l2 Hperm IH|x y l|l1 l2 l3 H12 IH12 H23 IH23];
    intros Hnodup m.
  - reflexivity.
  - cbn. apply IH. by apply NoDup_cons_1_2 in Hnodup.
  - cbn. f_equal. apply annotation_step_comm.
    cbn in Hnodup. apply NoDup_cons_1_1 in Hnodup.
    intros Heq. apply Hnodup. rewrite Heq. by left.
  - rewrite IH12 by done. apply IH23. by rewrite <- H12.
Qed.

(** Whatever order the annotation map is ranged over, the metadata is the
    same. *)
Lemma extractMetadata_any_order (agent : Agent) (order : list (string * string)) :
  order ≡ₚ map_to_list (agent_Annotations agent) ->
  extractMetadata_ranging order agent = extractMetadata agent.
Proof.
  intros Hperm. unfold extractMetadata, extractMetadata_ranging.
  apply foldl_annotation_step_perm; [done|].
  rewrite Hperm. apply NoDup_fst_map_to_list.
Qed.

(** The translator reads nothing but the spec of the Card. *)
Lemma ToJSON_depends_on_spec (card1 card2 : AgentCard) :
  card_Spec card1 = card_Spec card2 ->
  Translator.ToJSON lib (Some card1) = Translator.ToJSON lib (Some card2).
Proof.
  intros Hspec. unfold Translator.ToJSON, Translator.ToA2ACard,
    Translator.extractDescription, Translator.extractVersion,
    Translator.extractPrimaryURL, Translator.extractSkills,
    Translator.extractProvider, Translator.extractIconURL,
    Translator.extractDocURL.
  by rewrite Hspec.
Qed.

(** C9, as amended. For a fixed Registry, Agent and cluster view, two
    invocations of the derivation produce Cards with the same identity,
    the same spec (whatever order the annotation map is ranged over) and
    the same hash, generation and health field in the status; the two
    Cards are identical when the clock reads the same time at both
    invocations, for [lastSeen] and the transition time of the condition
    are the time of the invocation.  The translated document is a function
    of the Card spec alone. *)
Theorem GenerateCard_deterministic_up_to_clock
    (g : CardGenerator) (reg : AgentRegistry) (agent : Agent) (st1 st2 : State) :
  let c1 := (GenerateCard lib g reg agent st1).1.1 in
  let c2 := (GenerateCard lib g reg agent st2).1.1 in
  let now1 := cl_clock (cg_Client g) (st_clock_reads st1) in
  let now2 := cl_clock (cg_Client g) (st_clock_reads st2) in
  (forall order, order ≡ₚ map_to_list (agent_Annotations agent) ->
     extractMetadata_ranging order agent = extractMetadata agent)
  /\ card_Name c1 = card_Name c2
  /\ card_Namespace c1 = card_Namespace c2
  /\ card_OwnerReferences c1 = card_OwnerReferences c2
  /\ card_Spec c1 = card_Spec c2
  /\ cstat_Hash (card_Status c1) = cstat_Hash (card_Status c2)
  /\ cstat_ObservedGeneration (card_Status c1) = cstat_ObservedGeneration (card_Status c2)
  /\ cstat_EndpointHealthy (card_Status c1) = cstat_EndpointHealthy (card_Status c2)
  /\ cstat_LastSeen (card_Status c1) = Some now1
  /\ cstat_LastSeen (card_Status c2) = Some now2
  /\ (now1 = now2 -> c1 = c2)
  /\ (forall card1 card2, card_Spec card1 = card_Spec card2 ->
        Translator.ToJSON lib (Some card1) = Translator.ToJSON lib (Some card2)).
Proof.
  intros c1 c2 now1 now2. subst c1 c2 now1 now2.
  rewrite !GenerateCard_unfold. cbv zeta. cbn [fst snd].
  split; [apply extractMetadata_any_order|].
  repeat (split; [reflexivity|]).
  split; [by intros ->|]. apply ToJSON_depends_on_spec.
Qed.

End CardGenFacts.


(** S1: no rule matches; the derived Card has no endpoints and its
    serialized spec has no [endpoints] member. *)
Lemma GenerateCard_without_endpoints_witness :
  let result := (GenerateCard Reference.lib (Scenario.generator Scenario.s1_cluster)
                   Scenario.r1 Scenario.a1 Scenario.st0).1 in
  result.2 = None
  /\ card_Name result.1 = "a1"
  /\ card_Namespace result.1 = "n"
  /\ spec_Endpoints (card_Spec result.1) = []
  /\ Json.member "endpoints" (CardJson.AgentCardSpec_json (card_Spec result.1)) = None
  /\ ~ endpoints_present result.1.
Proof.
  apply (GenerateCard_without_endpoints Reference.lib
           (Scenario.generator Scenario.s1_cluster) Scenario.r1 Scenario.a1 Scenario.st0);
    vm_compute; reflexivity.
Defined.

(** C5 fails as stated on S1: no endpoint rule matches for the Agent, and
    the serialized spec of its Card has no [endpoints] member at all, where
    the claim wants the member present with an empty list. *)
Lemma S1_endpoints_member_absent :
  agent_Annotations Scenario.a1 !! AnnotationA2AEndpoint = None
  /\ has_A2AConfig Scenario.a1 = false
  /\ cl_services Scenario.s1_cluster !! card_key Scenario.a1 = None
  /\ ~ endpoints_present
       (GenerateCard Reference.lib (Scenario.generator Scenario.s1_cluster)
          Scenario.r1 Scenario.a1 Scenario.st0).1.1.
Proof.
  repeat split; try (vm_compute; reflexivity).
  unfold endpoints_present. vm_compute. intros [v Hv]. discriminate Hv.
Qed.

(** S1 under the reference library: the hash is the SHA-256 of the rendered
    spec, which carries the translated document; with the public document
    blanked the hash is another one. *)
Lemma GenerateCard_hash_witness :
  let card := (GenerateCard Reference.lib (Scenario.generator Scenario.s1_cluster)
                 Scenario.r1 Scenario.a1 Scenario.st0).1.1 in
  cstat_Hash (card_Status card)
    = "99ec35cd22b206d33e87ed94b270fdfbf60e5446275d47ff0eaf183b901ca119"
  /\ spec_PublicCard (card_Spec card)
     = Reference.render
         (Reference.a2a_json
            {| doc_Name := "a1"; doc_Description := "hello"; doc_Version := "7";
               doc_URL := "";
               doc_Capabilities :=
                 {| caps_Streaming := Some true; caps_PushNotifications := Some false;
                    caps_StateTransitionHistory := Some false |};
               doc_DefaultInputModes := ["text"]; doc_DefaultOutputModes := ["text"];
               doc_Skills := [ {| sskill_ID := "default"; sskill_Name := "General Purpose";
                                  sskill_Description := Some "General purpose agent";
                                  sskill_Tags := [] |} ];
               doc_Provider := None; doc_IconURL := None; doc_DocumentationURL := None;
               doc_ProtocolVersion := Some "0.3.0" |})
  /\ calculateHash Reference.lib (spec_with_PublicCard "" (card_Spec card))
     = "702b64cfb264f14a655703be5e647c1adefd1c7d0a633c9b52bbcf04868b4d46"
  /\ CardJson.AgentCardSpec_json (spec_with_PublicCard "" (card_Spec card))
     <> CardJson.AgentCardSpec_json (card_Spec card).
Proof.
  pose proof (GenerateCard_hash Reference.lib (Scenario.generator Scenario.s1_cluster)
                Scenario.r1 Scenario.a1 Scenario.st0) as (Hhash & Hdoc & _ & Hcover).
  cbv zeta in Hhash, Hdoc |- *.
  split; [rewrite Hhash; vm_compute; reflexivity|].
  split; [apply (Hdoc NewTranslator); vm_compute; reflexivity|].
  split; [vm_compute; reflexivity|].
  refine (proj1 (Hcover _ _ _)). vm_compute. discriminate.
Defined.

(** A failing document marshaller: the Card is produced all the same. *)
Lemma GenerateCard_never_fails_witness :
  let result := (GenerateCard Reference.lib_marshal_fails
                   (Scenario.generator Scenario.s1_cluster)
                   Scenario.r1 Scenario.a1 Scenario.st0).1 in
  result.2 = None /\ spec_PublicCard (card_Spec result.1) = "".
Proof.
  pose proof (GenerateCard_never_fails Reference.lib_marshal_fails
                (Scenario.generator Scenario.s1_cluster)
                Scenario.r1 Scenario.a1 Scenario.st0) as (Herr & Hdoc & _).
  split; [exact Herr|].
  apply (Hdoc "failed to marshal A2A card: json: unsupported value").
  vm_compute. reflexivity.
Defined.

(** Two invocations at equal clock readings give the same Card. *)
Lemma GenerateCard_deterministic_up_to_clock_witness :
  (GenerateCard Reference.lib (Scenario.generator Scenario.s1_cluster)
     Scenario.r1 Scenario.a1 Scenario.st0).1.1
  = (GenerateCard Reference.lib (Scenario.generator Scenario.s1_cluster)
       Scenario.r1 Scenario.a1 (tick_probe Scenario.st0)).1.1.
Proof.
  apply (GenerateCard_deterministic_up_to_clock Reference.lib
           (Scenario.generator Scenario.s1_cluster) Scenario.r1 Scenario.a1).
  reflexivity.
Defined.

(** C9 fails as stated on S1: the second of two invocations on the same
    Registry, Agent and Services yields a different Card, because the status
    carries the time of the invocation (1000, then 1001). *)
Lemma GenerateCard_twice_differs :
  let first := GenerateCard Reference.lib (Scenario.generator Scenario.s1_cluster)
                 Scenario.r1 Scenario.a1 Scenario.st0 in
  let second := GenerateCard Reference.lib (Scenario.generator Scenario.s1_cluster)
                  Scenario.r1 Scenario.a1 first.2 in
  cstat_LastSeen (card_Status first.1.1) = Some 1000
  /\ cstat_LastSeen (card_Status second.1.1) = Some 1001
  /\ first.1.1 <> second.1.1.
Proof.
  cbv zeta. split; [vm_compute; reflexivity|]. split; [vm_compute; reflexivity|].
  intros Heq.
  apply (f_equal (fun card => cstat_LastSeen (card_Status card))) in Heq.
  vm_compute in Heq. discriminate Heq.
Qed.

(** ** The health prober *)

Section CheckerFacts.
Context (c : Checker) (cl : Cluster).

Lemma checkEndpoint_state (endpoint : AgentEndpoint) (st : State) :
  (checkEndpoint c cl endpoint st).2 = tick_probe st.
Proof.
  unfold checkEndpoint.
  destruct (cl_url_ok cl (ep_URL endpoint)); [|done].
  destruct (cl_ctx_done cl (st_probes st)); [done|].
  by destruct (cl_http_head cl (ep_URL endpoint)).
Qed.

(** A probe either reports healthy without error, exactly when the
    endpoint answers with a status in [200, 500), or it is passed over. *)
Lemma checkEndpoint_cases (endpoint : AgentEndpoint) (st : State) :
  (checkEndpoint c cl endpoint st = ((true, None), tick_probe st)
   /\ healthy_answer cl (st_probes st) endpoint)
  \/ (exists healthy err,
        checkEndpoint c cl endpoint st = ((healthy, err), tick_probe st)
        /\ (healthy = false \/ exists e, err = Some e)
        /\ (healthy = true -> err <> None)
        /\ ~ healthy_answer cl (st_probes st) endpoint).
Proof.
  unfold checkEndpoint, healthy_answer, answers.
  destruct (cl_url_ok cl (ep_URL endpoint)) eqn:Hurl; cbn [negb].
  2:{ right. do 2 eexists. split; [reflexivity|]. split; [by left|].
      split; [done|]. intros (code & (? & _) & _). done. }
  destruct (cl_ctx_done cl (st_probes st)) eqn:Hctx.
  { right. do 2 eexists. split; [reflexivity|]. split; [by left|].
    split; [done|]. intros (code & (_ & ? & _) & _). done. }
  destruct (cl_http_head cl (ep_URL endpoint)) as [code|err] eqn:Hhead.
  2:{ right. do 2 eexists. split; [reflexivity|]. split; [by left|].
      split; [done|]. intros (code & (_ & _ & ?) & _). done. }
  destruct ((200 <=? code) && (code <? 500)) eqn:Hrange.
  - left. split; [done|]. exists code. split; [done|].
    apply andb_true_iff in Hrange as [H1 H2]. lia.
  - right. do 2 eexists. split; [reflexivity|]. split; [by left|].
    split; [done|]. intros (code' & (_ & _ & [= <-]) & Hc).
    apply andb_false_iff in Hrange as [H|H]; lia.
Qed.

Lemma check_each_skip (endpoint : AgentEndpoint) (rest : list AgentEndpoint)
    (st : State) :
  ~ healthy_answer cl (st_probes st) endpoint ->
  check_each c cl (endpoint :: rest) st = check_each c cl rest (tick_probe st).
Proof.
  intros Hno. cbn [check_each].
  destruct (checkEndpoint_cases endpoint st)
    as [[_ Hyes]|(healthy & err & -> & Hskip & _)]; [done|].
  destruct Hskip as [->|[e ->]]; [by destruct err|done].
Qed.

Lemma check_each_hit (endpoint : AgentEndpoint) (rest : list AgentEndpoint)
    (st : State) :
  healthy_answer cl (st_probes st) endpoint ->
  check_each c cl (endpoint :: rest) st = ((true, None), tick_probe st).
Proof.
  intros Hyes. cbn [check_each].
  destruct (checkEndpoint_cases endpoint st)
    as [[-> _]|(healthy & err & _ & _ & _ & Hno)]; done.
Qed.

Lemma healthy_answer_dec (n : nat) (endpoint : AgentEndpoint) :
  healthy_answer cl n endpoint \/ ~ healthy_answer cl n endpoint.
Proof.
  pose (st := {| st_cards := ∅; st_applied := []; st_status_updates := [];
                 st_clock_reads := 0; st_probes := n |}).
  destruct (checkEndpoint_cases endpoint st) as [[_ H]|(? & ? & _ & _ & _ & H)];
    [by left|by right].
Qed.

(** The loop stops at the first endpoint that answers healthily, having
    probed the endpoints before it in order; if there is none it has
    probed them all. *)
Lemma check_each_spec (endpoints : list AgentEndpoint) (st : State) :
  (exists i endpoint,
      endpoints !! i = Some endpoint
      /\ healthy_answer cl (st_probes st + i) endpoint
      /\ (forall j other, (j < i)%nat -> endpoints !! j = Some other ->
            ~ healthy_answer cl (st_probes st + j) other)
      /\ (check_each c cl endpoints st).1 = (true, None)
      /\ st_probes (check_each c cl endpoints st).2 = (st_probes st + S i)%nat)
  \/ ((forall j other, endpoints !! j = Some other ->
         ~ healthy_answer cl (st_probes st + j) other)
      /\ (check_each c cl endpoints st).1 = (false, Some "all endpoints unhealthy")
      /\ st_probes (check_each c cl endpoints st).2
         = (st_probes st + length endpoints)%nat).
Proof.
  revert st. induction endpoints as [|endpoint rest IH]; intros st.
  - right. split; [by intros j other [=]|]. split; [done|]. cbn. lia.
  - destruct (healthy_answer_dec (st_probes st) endpoint) as [Hyes|Hno].
    + left. exists 0%nat, endpoint. rewrite check_each_hit by done.
      rewrite Nat.add_0_r. split; [done|]. split; [done|].
      split; [intros; lia|]. split; [done|]. cbn. lia.
    + rewrite check_each_skip by done.
      destruct (IH (tick_probe st))
        as [(i & e & Hi & Hyes & Hfirst & Hres & Hprobes)|(Hnone & Hres & Hprobes)];
        cbn [tick_probe st_probes] in *.
      * left. exists (S i), e. split; [done|].
        split; [by rewrite Nat.add_succ_r|].
        split; [|split; [done|lia]].
        intros [|j] other Hj Hother.
        -- cbn in Hother. injection Hother as <-. by rewrite Nat.add_0_r.
        -- rewrite Nat.add_succ_r. apply (Hfirst j); [lia|done].
      * right. split; [|split; [done|cbn; lia]].
        intros [|j] other Hother.
        -- cbn in Hother. injection Hother as <-. by rewrite Nat.add_0_r.
        -- rewrite Nat.add_succ_r. by apply (Hnone j).
Qed.

Lemma CheckEndpoints_nonempty (endpoints : list AgentEndpoint) (st : State) :
  endpoints <> [] ->
  CheckEndpoints c cl endpoints st = check_each c cl endpoints st.
Proof. by destruct endpoints. Qed.

Lemma CheckEndpoints_true_answer (endpoints : list AgentEndpoint) (st : State) :
  (CheckEndpoints c cl endpoints st).1.1 = true ->
  exists i endpoint,
    endpoints !! i = Some endpoint
    /\ healthy_answer cl (st_probes st + i) endpoint.
Proof.
  destruct endpoints as [|e0 rest] eqn:Hlist; [done|].
  rewrite <- Hlist. rewrite CheckEndpoints_nonempty by (by rewrite Hlist).
  destruct (check_each_spec endpoints st)
    as [(i & e & Hi & Hyes & _)|(_ & Hres & _)].
  - intros _. by exists i, e.
  - by rewrite Hres.
Qed.

(** C8. The prober probes the endpoints in order.  It returns healthy,
    without error, exactly when some endpoint replies within the probe
    timeout with a status code in [200, 500); it then stops at the first
    such endpoint, after having passed over every earlier endpoint that
    failed.  When no endpoint does, every endpoint has been tried and the
    result is unhealthy, with an error. *)
Theorem CheckEndpoints_healthy_iff (endpoints : list AgentEndpoint) (st : State) :
  let result := CheckEndpoints c cl endpoints st in
  (result.1.1 = true <->
     exists i endpoint,
       endpoints !! i = Some endpoint
       /\ healthy_answer cl (st_probes st + i) endpoint)
  /\ (result.1.1 = true ->
        result.1.2 = None
        /\ exists i endpoint,
             endpoints !! i = Some endpoint
             /\ healthy_answer cl (st_probes st + i) endpoint
             /\ (forall j other, (j < i)%nat -> endpoints !! j = Some other ->
                   ~ healthy_answer cl (st_probes st + j) other)
             /\ st_probes result.2 = (st_probes st + S i)%nat)
  /\ (result.1.1 = false ->
        result.1.2 <> None
        /\ st_probes result.2 = (st_probes st + length endpoints)%nat).
Proof.
  intros result. subst result.
  destruct endpoints as [|e0 rest] eqn:Hlist.
  { cbn. split; [|split].
    - split; [done|]. by intros (i & e & [=] & _).
    - done.
    - intros _. split; [done|lia]. }
  rewrite <- Hlist. rewrite CheckEndpoints_nonempty by (by rewrite Hlist).
  destruct (check_each_spec endpoints st)
    as [(i & e & Hi & Hyes & Hfirst & Hres & Hprobes)|(Hnone & Hres & Hprobes)];
    rewrite Hres; cbn [fst snd].
  - split; [|split]; try done.
    + split; [|done]. intros _. by exists i, e.
    + intros _. split; [done|]. by exists i, e.
  - split; [|split]; try done.
    split; [done|]. intros (i & e & Hi & Hyes). by destruct (Hnone i e).
Qed.

End CheckerFacts.

(** ** The reconciler *)

Section ControllerFacts.
Context (lib : GoLib).

Lemma check_each_probes_only (c : Checker) (cl : Cluster)
    (endpoints : list AgentEndpoint) (st : State) :
  probes_only st (check_each c cl endpoints st).2.
Proof.
  revert st. induction endpoints as [|endpoint rest IH]; intros st; [done|].
  cbn [check_each].
  pose proof (checkEndpoint_state c cl endpoint st) as Hst.
  destruct (checkEndpoint c cl endpoint st) as [[healthy err] st1].
  cbn in Hst. subst st1.
  assert (Hrest : probes_only st (check_each c cl rest (tick_probe st)).2)
    by apply (IH (tick_probe st)).
  destruct err; [done|]. by destruct healthy.
Qed.

Lemma CheckEndpoints_probes_only (c : Checker) (cl : Cluster)
    (endpoints : list AgentEndpoint) (st : State) :
  probes_only st (CheckEndpoints c cl endpoints st).2.
Proof.
  destruct endpoints; [done|]. apply check_each_probes_only.
Qed.

(** The health block sets the health field exactly when there is a
    checker and at least one endpoint; it touches nothing else. *)
Lemma probe_health_spec (r : AgentRegistryController) (card : AgentCard) (st : State) :
  let result := probe_health r card st in
  card_Name result.1 = card_Name card
  /\ card_Namespace result.1 = card_Namespace card
  /\ card_Spec result.1 = card_Spec card
  /\ cstat_Hash (card_Status result.1) = cstat_Hash (card_Status card)
  /\ probes_only st result.2
  /\ cstat_EndpointHealthy (card_Status result.1)
     = match ctl_HealthChecker r, spec_Endpoints (card_Spec card) with
       | Some checker, _ :: _ =>
           Some (CheckEndpoints checker (ctl_Client r)
                   (spec_Endpoints (card_Spec card)) st).1.1
       | _, _ => cstat_EndpointHealthy (card_Status card)
       end.
Proof.
  unfold probe_health.
  destruct (ctl_HealthChecker r) as [checker|]; [|done].
  destruct (spec_Endpoints (card_Spec card)) as [|e rest] eqn:Heps; [done|].
  pose proof (CheckEndpoints_probes_only checker (ctl_Client r) (e :: rest) st) as Hfr.
  destruct (CheckEndpoints checker (ctl_Client r) (e :: rest) st)
    as [[healthy err] st1].
  done.
Qed.

(** The apply step issues exactly one apply request, for the Card with the
    health field and the owner reference set; the Card is stored unless the
    request fails. *)
Lemma apply_card_spec (r : AgentRegistryController) (reg : AgentRegistry)
    (card : AgentCard) (st : State) :
  let key := (card_Namespace card, card_Name card) in
  let applied :=
    SetOwnerReferences [controller_ref reg] (probe_health r card st).1 in
  let result := apply_card r reg card st in
  st_applied result.2 = (st_applied st ++ [applied])%list
  /\ st_status_updates result.2 = st_status_updates st
  /\ st_clock_reads result.2 = st_clock_reads st
  /\ st_cards result.2
     = match cl_patch_err (ctl_Client r) key with
       | Some _ => st_cards st
       | None => <[key := applied]> (st_cards st)
       end
  /\ (result.1 = None <-> cl_patch_err (ctl_Client r) key = None).
Proof.
  intros key applied result. subst key applied result.
  unfold apply_card.
  pose proof (probe_health_spec r card st) as (Hname & Hns & _ & _ & Hfr & _).
  destruct (probe_health r card st) as [card1 st1]. cbn [fst snd] in *.
  destruct Hfr as (Hcards & Happlied & Hupd & Hclock).
  unfold Client_PatchApply. cbn [SetOwnerReferences card_Name card_Namespace].
  rewrite Hname, Hns.
  destruct (cl_patch_err (ctl_Client r) (card_Namespace card, card_Name card));
    cbn; rewrite ?Hcards, ?Happlied, ?Hupd, ?Hclock; done.
Qed.

Lemma reconcileAgentCard_unfold (r : AgentRegistryController) (reg : AgentRegistry)
    (agent : Agent) (st : State) :
  let card := (GenerateCard lib (controller_generator r) reg agent st).1.1 in
  reconcileAgentCard lib r reg agent st
  = match Client_GetCard (ctl_Client r) (tick_clock st) (card_key agent) with
    | Found existing =>
        if bool_decide (cstat_Hash (card_Status existing) = cstat_Hash (card_Status card))
        then (None, tick_clock st)
        else apply_card r reg card (tick_clock st)
    | NotFound => apply_card r reg card (tick_clock st)
    | GetFailed err =>
        (Some (Errorf_w "failed to get existing agent card" err), tick_clock st)
    end.
Proof.
  intros card. subst card. unfold reconcileAgentCard.
  pose proof (GenerateCard_key lib (controller_generator r) reg agent st) as [Hns Hname].
  cbv zeta in Hns, Hname. revert Hns Hname.
  rewrite GenerateCard_unfold. cbv zeta. cbn [fst snd].
  intros -> ->. reflexivity.
Qed.

(** C7. The deduplication fast path: when the Card stored under the
    Agent's namespace and name carries the hash of the freshly derived
    Card, [reconcileAgentCard] succeeds without issuing an apply request,
    without probing, and leaves every stored Card, that one included, as
    it was. *)
Theorem reconcileAgentCard_dedup
    (r : AgentRegistryController) (reg : AgentRegistry) (agent : Agent)
    (st : State) (existing : AgentCard) :
  let derived := (GenerateCard lib (controller_generator r) reg agent st).1.1 in
  let result := reconcileAgentCard lib r reg agent st in
  cl_get_card_err (ctl_Client r) (card_key agent) = None ->
  st_cards st !! card_key agent = Some existing ->
  cstat_Hash (card_Status existing) = cstat_Hash (card_Status derived) ->
  result.1 = None
  /\ st_applied result.2 = st_applied st
  /\ st_cards result.2 = st_cards st
  /\ st_cards result.2 !! card_key agent = Some existing
  /\ st_probes result.2 = st_probes st.
Proof.
  intros derived result Hget Hstored Hhash. subst result.
  rewrite reconcileAgentCard_unfold.
  unfold Client_GetCard, get_from. cbn [tick_clock st_cards].
  rewrite Hget, Hstored. fold derived.
  rewrite bool_decide_eq_true_2 by done. done.
Qed.

(** C3, as amended. With a checker and a non-empty endpoint list, the
    Card sent in the apply request always carries a definite health value,
    the boolean returned by the prober, never "unknown".  When the
    lifecycle context is already cancelled as probing starts, every probe
    errors, the prober returns false and the Card records unhealthy;
    cancellation never yields healthy. *)
Theorem recorded_health_is_definite
    (r : AgentRegistryController) (reg : AgentRegistry) (agent : Agent)
    (st : State) (checker : Checker) (applied : AgentCard) :
  let derived := (GenerateCard lib (controller_generator r) reg agent st).1.1 in
  let result := reconcileAgentCard lib r reg agent st in
  ctl_HealthChecker r = Some checker ->
  spec_Endpoints (card_Spec derived) <> [] ->
  st_applied result.2 = (st_applied st ++ [applied])%list ->
  cstat_EndpointHealthy (card_Status applied)
    = Some (CheckEndpoints checker (ctl_Client r)
              (spec_Endpoints (card_Spec derived)) (tick_clock st)).1.1
  /\ cstat_EndpointHealthy (card_Status applied) <> None
  /\ (cancelled_from (ctl_Client r) (st_probes st) ->
      cstat_EndpointHealthy (card_Status applied) = Some false).
Proof.
  intros derived result Hchecker Heps Happlied. subst result.
  rewrite reconcileAgentCard_unfold in Happlied. fold derived in Happlied.
  assert (Hsent : applied = SetOwnerReferences [controller_ref reg]
                              (probe_health r derived (tick_clock st)).1).
  { pose proof (apply_card_spec r reg derived (tick_clock st)) as (Hlog & _).
    cbv zeta in Hlog. cbn [tick_clock st_applied] in Hlog.
    assert (Hsame : forall l (x y : AgentCard), (l ++ [x])%list = (l ++ [y])%list -> y = x).
    { intros l x y H. apply app_inv_head in H. congruence. }
    assert (Hno : forall l (x : AgentCard), l <> (l ++ [x])%list).
    { intros l x H. apply (f_equal length) in H. rewrite length_app in H. cbn in H. lia. }
    destruct (Client_GetCard (ctl_Client r) (tick_clock st) (card_key agent))
      as [existing| |err].
    - destruct (bool_decide (cstat_Hash (card_Status existing)
                             = cstat_Hash (card_Status derived))).
      + cbn in Happlied. by apply Hno in Happlied.
      + rewrite Hlog in Happlied. by apply Hsame in Happlied.
    - rewrite Hlog in Happlied. by apply Hsame in Happlied.
    - cbn in Happlied. by apply Hno in Happlied. }
  pose proof (probe_health_spec r derived (tick_clock st))
    as (_ & _ & _ & _ & _ & Hhealth).
  cbv zeta in Hhealth. rewrite Hchecker in Hhealth.
  destruct (spec_Endpoints (card_Spec derived)) as [|e rest] eqn:Hlist; [done|].
  assert (Hrec : cstat_EndpointHealthy (card_Status applied)
                 = Some (CheckEndpoints checker (ctl_Client r) (e :: rest)
                           (tick_clock st)).1.1).
  { by rewrite Hsent. }
  split; [done|]. split; [by rewrite Hrec|].
  intros Hcancel. rewrite Hrec. f_equal.
  destruct ((CheckEndpoints checker (ctl_Client r) (e :: rest) (tick_clock st)).1.1)
    eqn:Hhealthy; [|done].
  apply CheckEndpoints_true_answer in Hhealthy
    as (i & endpoint & _ & code & (_ & Hlive & _) & _).
  cbn [tick_clock st_probes] in Hlive.
  rewrite Hcancel in Hlive by lia. done.
Qed.

(** *** Stored Cards across a pass *)

Lemma reconcileAgentCard_cards (r : AgentRegistryController) (reg : AgentRegistry)
    (agent : Agent) (st : State) :
  let result := reconcileAgentCard lib r reg agent st in
  (forall key, key <> card_key agent ->
     st_cards result.2 !! key = st_cards st !! key)
  /\ (is_Some (st_cards st !! card_key agent) ->
      is_Some (st_cards result.2 !! card_key agent))
  /\ (result.1 = None -> is_Some (st_cards result.2 !! card_key agent))
  /\ (cl_get_card_err (ctl_Client r) (card_key agent) = None ->
      cl_patch_err (ctl_Client r) (card_key agent) = None ->
      result.1 = None)
  /\ st_status_updates result.2 = st_status_updates st.
Proof.
  intros result. subst result. rewrite reconcileAgentCard_unfold.
  set (derived := (GenerateCard lib (controller_generator r) reg agent st).1.1).
  pose proof (apply_card_spec r reg derived (tick_clock st))
    as (_ & Hupd & _ & Hcards & Herr).
  cbv zeta in Hcards, Herr.
  destruct (GenerateCard_key lib (controller_generator r) reg agent st) as [Hns Hname].
  fold derived in Hns, Hname. rewrite Hns, Hname in Hcards, Herr.
  fold (card_key agent) in Hcards, Herr.
  cbn [tick_clock st_cards st_status_updates] in Hcards, Hupd.
  assert (Happly :
    let result := apply_card r reg derived (tick_clock st) in
    (forall key, key <> card_key agent ->
       st_cards result.2 !! key = st_cards st !! key)
    /\ (is_Some (st_cards st !! card_key agent) ->
        is_Some (st_cards result.2 !! card_key agent))
    /\ (result.1 = None -> is_Some (st_cards result.2 !! card_key agent))
    /\ (cl_get_card_err (ctl_Client r) (card_key agent) = None ->
        cl_patch_err (ctl_Client r) (card_key agent) = None ->
        result.1 = None)
    /\ st_status_updates result.2 = st_status_updates st).
  { cbv zeta. rewrite Hcards.
    destruct (cl_patch_err (ctl_Client r) (card_key agent)) as [e|] eqn:Hpatch.
    - repeat split; try done.
      + intros Hnone. apply Herr in Hnone. done.
    - repeat split; try done.
      + intros key Hne. by rewrite lookup_insert_ne.
      + intros _. rewrite lookup_insert_eq. by eexists.
      + intros _. rewrite lookup_insert_eq. by eexists.
      + intros _ _. by apply Herr. }
  unfold Client_GetCard, get_from. cbn [tick_clock st_cards].
  destruct (cl_get_card_err (ctl_Client r) (card_key agent)) as [e|] eqn:Hget.
  { cbn. repeat split; done. }
  destruct (st_cards st !! card_key agent) as [existing|] eqn:Hstored; [|exact Happly].
  destruct (bool_decide (cstat_Hash (card_Status existing)
                         = cstat_Hash (card_Status derived))); [|exact Happly].
  cbn. rewrite Hstored. repeat split; try done; by eexists.
Qed.

Lemma reconcile_each_cards (r : AgentRegistryController) (reg : AgentRegistry)
    (agents : list Agent) (count : Z) (st : State) :
  let result := reconcile_each lib r reg agents count st in
  (forall key, is_Some (st_cards st !! key) -> is_Some (st_cards result.2 !! key))
  /\ (forall key, (forall agent, agent ∈ agents -> card_key agent <> key) ->
        st_cards result.2 !! key = st_cards st !! key)
  /\ (forall agent, agent ∈ agents ->
        cl_get_card_err (ctl_Client r) (card_key agent) = None ->
        cl_patch_err (ctl_Client r) (card_key agent) = None ->
        is_Some (st_cards result.2 !! card_key agent))
  /\ st_status_updates result.2 = st_status_updates st.
Proof.
  revert count st. induction agents as [|agent rest IH]; intros count st.
  { cbn. repeat split; try done. intros agent Hin. by apply elem_of_nil in Hin. }
  cbn [reconcile_each].
  pose proof (reconcileAgentCard_cards r reg agent st)
    as (Hframe & Hkeep & Hok & Hnofault & Hupd).
  cbv zeta in Hframe, Hkeep, Hok, Hnofault, Hupd.
  destruct (reconcileAgentCard lib r reg agent st) as [err st1].
  cbn [fst snd] in *.
  assert (Hmono1 : forall key, is_Some (st_cards st !! key) ->
                               is_Some (st_cards st1 !! key)).
  { intros key Hsome. destruct (decide (key = card_key agent)) as [->|Hne];
      [by apply Hkeep|by rewrite Hframe]. }
  assert (Hgoal : forall count',
    let result := reconcile_each lib r reg rest count' st1 in
    (forall key, is_Some (st_cards st !! key) -> is_Some (st_cards result.2 !! key))
    /\ (forall key, (forall a, a ∈ agent :: rest -> card_key a <> key) ->
          st_cards result.2 !! key = st_cards st !! key)
    /\ (forall a, a ∈ agent :: rest ->
          cl_get_card_err (ctl_Client r) (card_key a) = None ->
          cl_patch_err (ctl_Client r) (card_key a) = None ->
          is_Some (st_cards result.2 !! card_key a))
    /\ st_status_updates result.2 = st_status_updates st).
  { intros count'. destruct (IH count' st1) as (Hmono & Hfr & Hnew & Hupd').
    cbv zeta. split; [|split; [|split]].
    - intros key Hsome. by apply Hmono, Hmono1.
    - intros key Hnot. rewrite Hfr.
      + apply Hframe. intros ->. by apply (Hnot agent); [left|].
      + intros a Ha. apply Hnot. by right.
    - intros a Ha Hget Hpatch. apply elem_of_cons in Ha as [->|Ha].
      + apply Hmono, Hok. by apply Hnofault.
      + by apply Hnew.
    - by rewrite Hupd'. }
  destruct err; apply Hgoal.
Qed.

(** *** Status writes *)

Lemma updateStatus_spec (r : AgentRegistryController) (reg : AgentRegistry)
    (phase message : string) (count : Z) (st : State) :
  let result := updateStatus r reg phase message count st in
  st_cards result.2 = st_cards st
  /\ st_applied result.2 = st_applied st
  /\ st_status_updates result.2 = (st_status_updates st ++ [result.1])%list
  /\ reg_Spec result.1 = reg_Spec reg
  /\ reg_Namespace result.1 = reg_Namespace reg
  /\ rstat_Phase (reg_Status result.1) = phase
  /\ rstat_RegisteredAgents (reg_Status result.1) = count
  /\ rstat_LastSync (reg_Status result.1)
     = Some (cl_clock (ctl_Client r) (st_clock_reads st)).
Proof. cbv zeta. unfold updateStatus. cbn. repeat split; reflexivity. Qed.

(** The status write stamps [lastSync] whatever the phase. *)
Lemma updateStatus_stamps (r : AgentRegistryController) (reg : AgentRegistry)
    (phase message : string) (count : Z) (st : State) :
  is_Some (rstat_LastSync (reg_Status (updateStatus r reg phase message count st).1)).
Proof.
  destruct (updateStatus_spec r reg phase message count st)
    as (_ & _ & _ & _ & _ & _ & _ & ->). by eexists.
Qed.

Lemma discoverAgents_spec_only (r : AgentRegistryController) (reg reg' : AgentRegistry) :
  reg_Spec reg' = reg_Spec reg -> reg_Namespace reg' = reg_Namespace reg ->
  discoverAgents r reg' = discoverAgents r reg.
Proof. intros Hspec Hns. unfold discoverAgents. by rewrite Hspec, Hns. Qed.

Lemma discoverAgents_selected (r : AgentRegistryController) (reg : AgentRegistry)
    (agents : list Agent) :
  discoverAgents r reg = inl agents ->
  forall agent, agent ∈ agents -> selected agent = true.
Proof.
  unfold discoverAgents, filterAgentsByAnnotation. intros Hdisc agent Hin.
  destruct (disc_NamespaceSelector (rspec_Discovery (reg_Spec reg))).
  - destruct (getMatchingNamespaces r l); [|done].
    injection Hdisc as <-. by apply list_elem_of_filter in Hin as [? _].
  - destruct (Client_ListAgents (ctl_Client r) (reg_Namespace reg)); [|done].
    injection Hdisc as <-. by apply list_elem_of_filter in Hin as [? _].
Qed.

(** Without a namespace selector the pass works on the selected Agents of
    the Registry's own namespace. *)
Lemma discoverAgents_own_namespace (r : AgentRegistryController) (reg : AgentRegistry)
    (agents : list Agent) :
  disc_NamespaceSelector (rspec_Discovery (reg_Spec reg)) = None ->
  discoverAgents r reg = inl agents ->
  forall agent,
    agent ∈ agents <->
    agent ∈ cl_agents (ctl_Client r)
    /\ agent_Namespace agent = reg_Namespace reg
    /\ selected agent = true.
Proof.
  unfold discoverAgents, filterAgentsByAnnotation, Client_ListAgents.
  intros -> Hdisc agent.
  destruct (cl_list_agents_err (ctl_Client r) (reg_Namespace reg)); [done|].
  injection Hdisc as <-. rewrite !list_elem_of_filter. tauto.
Qed.

(** The status writes of one pass over a Registry: each is stamped. *)
Lemma reconcileAgentRegistry_writes (r : AgentRegistryController)
    (reg : AgentRegistry) (st : State) :
  exists writes,
    st_status_updates (reconcileAgentRegistry lib r reg st).2
    = (st_status_updates st ++ writes)%list
    /\ Forall (fun reg' => is_Some (rstat_LastSync (reg_Status reg'))) writes.
Proof.
  unfold reconcileAgentRegistry.
  destruct (disc_EnableAutoDiscovery (rspec_Discovery (reg_Spec reg))); cbn [negb].
  - pose proof (updateStatus_spec r reg PhaseDiscovering "Discovering agents" 0 st)
      as (_ & _ & Hlog1 & _).
    pose proof (updateStatus_stamps r reg PhaseDiscovering "Discovering agents" 0 st)
      as Hstamp1.
    cbv zeta in Hlog1.
    destruct (updateStatus r reg PhaseDiscovering "Discovering agents" 0 st)
      as [reg1 st1]. cbn [fst snd] in *.
    destruct (discoverAgents r reg1) as [agents|err].
    + pose proof (reconcile_each_cards r reg1 agents 0 st1) as (_ & _ & _ & Heach).
      cbv zeta in Heach.
      destruct (reconcile_each lib r reg1 agents 0 st1) as [count st2].
      cbn [fst snd] in *.
      pose proof (updateStatus_spec r reg1 PhaseReady "Discovery complete"
                    (int32_of_int count) st2) as (_ & _ & Hlog2 & _).
      pose proof (updateStatus_stamps r reg1 PhaseReady "Discovery complete"
                    (int32_of_int count) st2) as Hstamp2.
      cbv zeta in Hlog2.
      destruct (updateStatus r reg1 PhaseReady "Discovery complete"
                  (int32_of_int count) st2) as [reg2 st3]. cbn [fst snd] in *.
      exists [reg1; reg2]. split.
      * rewrite Hlog2, Heach, Hlog1. by rewrite <- app_assoc.
      * by repeat constructor.
    + exists [reg1]. split; [done|]. by repeat constructor.
  - pose proof (updateStatus_spec r reg PhaseNotStarted "Auto-discovery disabled" 0 st)
      as (_ & _ & Hlog1 & _).
    pose proof (updateStatus_stamps r reg PhaseNotStarted "Auto-discovery disabled" 0 st)
      as Hstamp1.
    cbv zeta in Hlog1.
    destruct (updateStatus r reg PhaseNotStarted "Auto-discovery disabled" 0 st)
      as [reg1 st1]. cbn [fst snd] in *.
    exists [reg1]. split; [done|]. by repeat constructor.
Qed.

Lemma list_all_elem (r : AgentRegistryController) (namespaces : list string)
    (agent : Agent) :
  agent ∈ list_all r namespaces <->
  agent ∈ cl_agents (ctl_Client r)
  /\ agent_Namespace agent ∈ namespaces
  /\ listed (ctl_Client r) agent.
Proof.
  unfold listed. induction namespaces as [|ns rest IH]; cbn [list_all].
  { split; [by intros ?%elem_of_nil|by intros (_ & ?%elem_of_nil & _)]. }
  unfold Client_ListAgents.
  destruct (cl_list_agents_err (ctl_Client r) ns) as [e|] eqn:Hns.
  - rewrite IH, elem_of_cons. split; [tauto|].
    intros (? & [->|?] & Herr); [congruence|tauto].
  - rewrite elem_of_app, IH, list_elem_of_filter, elem_of_cons.
    split; [|tauto]. intros [[-> ?]|?]; [tauto|tauto].
Qed.

(** The Agents a pass works on are the selected Agents in the scope of the
    Registry whose namespace could be listed. *)
Lemma discoverAgents_in_scope (r : AgentRegistryController) (reg : AgentRegistry)
    (agents : list Agent) :
  discoverAgents r reg = inl agents ->
  forall agent,
    agent ∈ agents <->
    in_scope (ctl_Client r) reg agent
    /\ selected agent = true
    /\ listed (ctl_Client r) agent.
Proof.
  unfold discoverAgents, filterAgentsByAnnotation, in_scope, getMatchingNamespaces.
  intros Hdisc agent.
  destruct (disc_NamespaceSelector (rspec_Discovery (reg_Spec reg))) as [selector|].
  - destruct (cl_select_namespaces (ctl_Client r) selector) as [namespaces|e] eqn:Hsel;
      [|done].
    injection Hdisc as <-. rewrite list_elem_of_filter, list_all_elem. split.
    + intros (Hs & Hin & Hns & Hl). split; [split; [done|by exists namespaces]|done].
    + intros ((Hin & namespaces' & [= <-] & Hns) & Hs & Hl). done.
  - unfold Client_ListAgents, listed in *.
    destruct (cl_list_agents_err (ctl_Client r) (reg_Namespace reg)) as [e|] eqn:Herr;
      [done|].
    injection Hdisc as <-. rewrite !list_elem_of_filter. split.
    + intros (Hs & Hns & Hin). rewrite Hns. done.
    + intros ((Hin & Hns) & Hs & _). done.
Qed.

(** C1, as amended. After a successful pass over a Registry with
    discovery enabled the phase is Ready, and the pass has worked on
    exactly the selected Agents (register-to-registry is "true" and
    discovery-disabled is not) in the scope of the Registry whose namespace
    could be listed; without a namespace selector that is every selected
    Agent in scope.  Every such Agent has a Card of its name in its
    namespace, provided the read and the apply of that Card did not fail.
    The pass never removes a Card: every Card stored before the pass is
    stored after it, and what is stored under a name that belongs to no
    such Agent, such as the Card of an Agent that has been switched to
    unselected, is left exactly as it was. *)
Theorem pass_adds_and_keeps_cards
    (r : AgentRegistryController) (reg : AgentRegistry) (st : State) :
  let cl := ctl_Client r in
  let pass := reconcileAgentRegistry lib r reg st in
  disc_EnableAutoDiscovery (rspec_Discovery (reg_Spec reg)) = true ->
  pass.1.1 = None ->
  rstat_Phase (reg_Status pass.1.2) = PhaseReady
  /\ (exists agents,
        discoverAgents r reg = inl agents
        /\ forall agent,
             agent ∈ agents <->
             in_scope cl reg agent /\ selected agent = true /\ listed cl agent)
  /\ (disc_NamespaceSelector (rspec_Discovery (reg_Spec reg)) = None ->
      forall agent, in_scope cl reg agent -> listed cl agent)
  /\ (forall agent,
        in_scope cl reg agent -> selected agent = true -> listed cl agent ->
        cl_get_card_err cl (card_key agent) = None ->
        cl_patch_err cl (card_key agent) = None ->
        is_Some (st_cards pass.2 !! card_key agent))
  /\ (forall key, is_Some (st_cards st !! key) -> is_Some (st_cards pass.2 !! key))
  /\ (forall key,
        (forall agent,
           in_scope cl reg agent -> selected agent = true -> listed cl agent ->
           card_key agent <> key) ->
        st_cards pass.2 !! key = st_cards st !! key).
Proof.
  intros cl pass Henabled. subst cl pass.
  unfold reconcileAgentRegistry. rewrite Henabled. cbn [negb].
  pose proof (updateStatus_spec r reg PhaseDiscovering "Discovering agents" 0 st)
    as (Hcards1 & _ & _ & Hspec1 & Hns1 & _).
  cbv zeta in Hcards1, Hspec1, Hns1.
  destruct (updateStatus r reg PhaseDiscovering "Discovering agents" 0 st)
    as [reg1 st1]. cbn [fst snd] in *.
  rewrite (discoverAgents_spec_only r reg reg1 Hspec1 Hns1).
  destruct (discoverAgents r reg) as [agents|cause] eqn:Hdisc.
  2:{ destruct (updateStatus r reg1 PhaseError
                  (Errorf_w "failed to discover agents" cause) 0 st1).
      cbn [fst snd]. intros Hsucc. discriminate Hsucc. }
  pose proof (discoverAgents_in_scope r reg agents Hdisc) as Hscope.
  pose proof (reconcile_each_cards r reg1 agents 0 st1) as (Hmono & Hframe & Hnew & _).
  cbv zeta in Hmono, Hframe, Hnew.
  destruct (reconcile_each lib r reg1 agents 0 st1) as [count st2].
  cbn [fst snd] in *.
  pose proof (updateStatus_spec r reg1 PhaseReady "Discovery complete"
                (int32_of_int count) st2) as (Hcards3 & _ & _ & _ & _ & Hphase & _).
  cbv zeta in Hcards3, Hphase.
  destruct (updateStatus r reg1 PhaseReady "Discovery complete"
              (int32_of_int count) st2) as [reg2 st3]. cbn [fst snd] in *.
  intros _. rewrite Hcards3. rewrite Hcards1 in Hmono, Hframe.
  split; [done|]. split; [by exists agents|]. split; [|split; [|split; [done|]]].
  - intros Hsel agent [_ Hns]. rewrite Hsel in Hns. unfold listed. rewrite Hns.
    revert Hdisc. unfold discoverAgents, Client_ListAgents. rewrite Hsel.
    by destruct (cl_list_agents_err (ctl_Client r) (reg_Namespace reg)).
  - intros agent Hin Hsel Hlisted. apply Hnew, Hscope. done.
  - intros key Hother. apply Hframe. intros agent (Hin & Hsel & Hlisted)%Hscope.
    by apply Hother.
Qed.

(** Every status write of the reconciler that records a terminal phase,
    Ready or Error, sets [lastSync]. *)
Lemma terminal_status_writes_set_lastSync
    (r : AgentRegistryController) (req : string * string) (st : State) :
  exists writes,
    st_status_updates (Reconcile lib r req st).2
    = (st_status_updates st ++ writes)%list
    /\ Forall (fun reg => terminal_phase reg ->
                          is_Some (rstat_LastSync (reg_Status reg))) writes.
Proof.
  unfold Reconcile.
  destruct (Client_GetRegistry (ctl_Client r) req) as [reg| |err].
  2,3: exists []; split; [by rewrite app_nil_r|constructor].
  destruct (reconcileAgentRegistry_writes r reg st) as (writes & Hlog & Hstamped).
  destruct (reconcileAgentRegistry lib r reg st) as [[err reg1] st1].
  cbn [fst snd] in *.
  destruct err as [err|].
  - pose proof (updateStatus_spec r reg1 PhaseError err 0 st1) as (_ & _ & Hlog2 & _).
    pose proof (updateStatus_stamps r reg1 PhaseError err 0 st1) as Hstamp2.
    cbv zeta in Hlog2.
    destruct (updateStatus r reg1 PhaseError err 0 st1) as [reg2 st2].
    cbn [fst snd] in *.
    exists (writes ++ [reg2])%list. split.
    + by rewrite Hlog2, Hlog, <- app_assoc.
    + apply Forall_app. split.
      * eapply Forall_impl; [exact Hstamped|]. by intros.
      * by repeat constructor.
  - exists writes. split; [done|].
    eapply Forall_impl; [exact Hstamped|]. by intros.
Qed.

End ControllerFacts.

(** The second endpoint answers 200 after the first one failed: healthy,
    after two probes. *)
Lemma CheckEndpoints_healthy_iff_witness :
  let result := CheckEndpoints (NewChecker 5000000000) Scenario.probe_cluster
                  [Scenario.dead_endpoint; Scenario.live_endpoint] Scenario.st0 in
  result.1.1 = true /\ result.1.2 = None.
Proof.
  pose proof (CheckEndpoints_healthy_iff (NewChecker 5000000000) Scenario.probe_cluster
                [Scenario.dead_endpoint; Scenario.live_endpoint] Scenario.st0)
    as (Hiff & Hnil & _).
  cbv zeta in Hiff, Hnil |- *.
  assert (Hhealthy :
    (CheckEndpoints (NewChecker 5000000000) Scenario.probe_cluster
       [Scenario.dead_endpoint; Scenario.live_endpoint] Scenario.st0).1.1 = true).
  { apply Hiff. exists 1%nat, Scenario.live_endpoint. split; [reflexivity|].
    exists 200. split; [|lia]. repeat split; reflexivity. }
  split; [exact Hhealthy|]. exact (proj1 (Hnil Hhealthy)).
Defined.

(** S5: a second pass over S1 finds the stored hash and skips the apply. *)
Lemma reconcileAgentCard_dedup_witness :
  let result := reconcileAgentCard Reference.lib
                  (Scenario.controller Scenario.s1_cluster)
                  Scenario.r1 Scenario.a1 Scenario.st_after_s1 in
  result.1 = None
  /\ st_applied result.2 = st_applied Scenario.st_after_s1
  /\ st_cards result.2 = st_cards Scenario.st_after_s1
  /\ st_cards result.2 !! card_key Scenario.a1 = Some Scenario.card_after_s1
  /\ st_probes result.2 = st_probes Scenario.st_after_s1.
Proof.
  apply (reconcileAgentCard_dedup Reference.lib
           (Scenario.controller Scenario.s1_cluster)
           Scenario.r1 Scenario.a1 Scenario.st_after_s1 Scenario.card_after_s1);
    vm_compute; reflexivity.
Defined.

(** S3 with a cancelled context: the Card sent in the apply request records
    unhealthy. *)
Lemma recorded_health_is_definite_witness :
  cstat_EndpointHealthy
    (card_Status
       (SetOwnerReferences [controller_ref Scenario.r1]
          (with_EndpointHealthy false
             (GenerateCard Reference.lib (Scenario.generator Scenario.s3_cancelled)
                Scenario.r1 Scenario.a1_override Scenario.st0).1.1)))
  = Some false.
Proof.
  refine (proj2 (proj2 (recorded_health_is_definite Reference.lib
           (Scenario.controller Scenario.s3_cancelled)
           Scenario.r1 Scenario.a1_override Scenario.st0 (NewChecker 5000000000)
           _ _ _ _)) _).
  - reflexivity.
  - vm_compute. discriminate.
  - vm_compute. reflexivity.
  - intros m _. reflexivity.
Defined.

(** C3 fails as stated on S3 with the lifecycle context cancelled before the
    first probe: the one endpoint is probed, the probe errors, and the Card
    sent in the apply request records unhealthy ([Some false]) where the
    claim wants unknown ([None]). *)
Lemma cancelled_context_records_unhealthy :
  let result := reconcileAgentCard Reference.lib
                  (Scenario.controller Scenario.s3_cancelled)
                  Scenario.r1 Scenario.a1_override Scenario.st0 in
  cl_ctx_done Scenario.s3_cancelled 0 = true
  /\ result.1 = None
  /\ st_probes result.2 = 1%nat
  /\ (fun card => (spec_Endpoints (card_Spec card),
                   cstat_EndpointHealthy (card_Status card)))
       <$> st_applied result.2
     = [ ([ {| ep_URL := "https://x.example:9000"; ep_Protocol := "http";
               ep_Port := 0 |} ],
          Some false) ].
Proof. vm_compute. repeat split; reflexivity. Qed.

(** S1: after the pass the Card n/a1 exists. *)
Lemma pass_adds_and_keeps_cards_witness :
  let pass := reconcileAgentRegistry Reference.lib
                (Scenario.controller Scenario.s1_cluster) Scenario.r1 Scenario.st0 in
  pass.1.1 = None
  /\ rstat_Phase (reg_Status pass.1.2) = PhaseReady
  /\ is_Some (st_cards pass.2 !! ("n", "a1")).
Proof.
  pose proof (pass_adds_and_keeps_cards Reference.lib
                (Scenario.controller Scenario.s1_cluster) Scenario.r1 Scenario.st0)
    as H.
  cbv zeta in H.
  destruct H as (Hphase & _ & _ & Hnew & _).
  - reflexivity.
  - vm_compute. reflexivity.
  - split; [vm_compute; reflexivity|]. split; [exact Hphase|].
    apply (Hnew Scenario.a1); [|reflexivity..].
    split; [by left|reflexivity].
Defined.

(** C1 fails as stated on S6: after a first pass has stored the Card n/a1,
    the Agent gets discovery-disabled and is no longer selected; the next
    pass succeeds, counts no registered Agent, and the Card n/a1 is still
    there. *)
Lemma S6_card_survives_flip :
  let pass2 := reconcileAgentRegistry Reference.lib
                 (Scenario.controller Scenario.s6_cluster)
                 Scenario.r1 Scenario.st_after_s1 in
  st_cards Scenario.st_after_s1 !! ("n", "a1") = Some Scenario.card_after_s1
  /\ selected Scenario.a1_disabled = false
  /\ pass2.1.1 = None
  /\ rstat_Phase (reg_Status pass2.1.2) = "Ready"
  /\ rstat_RegisteredAgents (reg_Status pass2.1.2) = 0
  /\ st_cards pass2.2 !! ("n", "a1") = Some Scenario.card_after_s1.
Proof. vm_compute. repeat split; reflexivity. Qed.

(** A selected Agent in scope whose namespace cannot be listed: with a
    namespace selector that matches [n] and a refused listing of [n], the
    listing is passed over, the pass succeeds with phase Ready and count
    zero, and the selected Agent n/a1 has no Card. *)
Lemma unlisted_namespace_gets_no_card :
  let r := Scenario.controller Scenario.unlisted_cluster in
  let pass := reconcileAgentRegistry Reference.lib r Scenario.r1_selecting
                Scenario.st0 in
  in_scope Scenario.unlisted_cluster Scenario.r1_selecting Scenario.a1
  /\ selected Scenario.a1 = true
  /\ discoverAgents r Scenario.r1_selecting = inl []
  /\ pass.1.1 = None
  /\ rstat_Phase (reg_Status pass.1.2) = "Ready"
  /\ rstat_RegisteredAgents (reg_Status pass.1.2) = 0
  /\ st_cards pass.2 !! ("n", "a1") = None.
Proof.
  cbv zeta. split.
  { split; [by left|]. exists ["n"]. split; [reflexivity|by left]. }
  vm_compute. repeat split; reflexivity.
Qed.

(** S1: the pass writes the status twice; its last write has the terminal
    phase Ready and is stamped. *)
Lemma terminal_status_writes_set_lastSync_witness :
  exists written,
    last (st_status_updates
            (Reconcile Reference.lib (Scenario.controller Scenario.s1_cluster)
               ("n", "r1") Scenario.st0).2) = Some written
    /\ terminal_phase written
    /\ is_Some (rstat_LastSync (reg_Status written)).
Proof.
  destruct (terminal_status_writes_set_lastSync Reference.lib
              (Scenario.controller Scenario.s1_cluster) ("n", "r1") Scenario.st0)
    as (writes & Hlog & Hstamped).
  assert (Hlast : exists written,
             last (st_status_updates
                     (Reconcile Reference.lib
                        (Scenario.controller Scenario.s1_cluster)
                        ("n", "r1") Scenario.st0).2) = Some written
             /\ rstat_Phase (reg_Status written) = PhaseReady).
  { eexists. split; vm_compute; reflexivity. }
  destruct Hlast as (written & Hlast & Hphase).
  exists written. split; [exact Hlast|]. split; [by left|].
  rewrite Hlog in Hlast. cbn [Scenario.st0 st_status_updates app] in Hlast.
  apply last_Some_elem_of in Hlast.
  rewrite Forall_forall in Hstamped. apply Hstamped; [exact Hlast|by left].
Defined.

(** C2. The code at the failing inputs: the pass over a Registry with
    discovery switched off performs one status write, with phase
    NotStarted, and that write sets [lastSync]; so does the Discovering
    pre-mark of a pass over S1.  The claim, like the comment of the field
    (the time of the last successful sync), has neither write set it. *)
Lemma nonterminal_status_writes_set_lastSync :
  (fun reg => (rstat_Phase (reg_Status reg), rstat_LastSync (reg_Status reg)))
    <$> st_status_updates
          (Reconcile Reference.lib (Scenario.controller Scenario.s1_disabled)
             ("n", "r1") Scenario.st0).2
  = [ ("NotStarted", Some 1000) ]
  /\ (fun reg => (rstat_Phase (reg_Status reg), rstat_LastSync (reg_Status reg)))
       <$> st_status_updates
             (Reconcile Reference.lib (Scenario.controller Scenario.s1_cluster)
                ("n", "r1") Scenario.st0).2
     = [ ("Discovering", Some 1000); ("Ready", Some 1002) ].
Proof. vm_compute. split; reflexivity. Qed.

(** S4: the capabilities annotation is split at commas and trimmed, and the
    description and the [card-] annotations end up in the metadata. *)
Example S4_capabilities_and_metadata :
  let agent :=
    Scenario.agent_with
      (<[ AnnotationCapabilities := "kubernetes, monitoring, alerting" ]>
         (<[ "kagent.dev/card-team" := "platform" ]>
            {[ AnnotationRegisterToRegistry := "true" ]})) in
  extractCapabilities Reference.lib agent = ["kubernetes"; "monitoring"; "alerting"]
  /\ extractMetadata agent = <[ "team" := "platform" ]> {[ "description" := "hello" ]}.
Proof. cbv zeta. split; vm_compute; reflexivity. Qed.

(** * Further properties of the code *)

(** ** Splitting, joining and printing numbers *)

Module GoStrMore.
Import GoStr.

Lemma SplitByte_nonempty (sep : ascii) (s : string) : SplitByte sep s <> [].
Proof.
  destruct s as [|c s]; cbn; [done|].
  destruct (Ascii.eqb c sep); [done|]. by destruct (SplitByte sep s).
Qed.

(** Joining the pieces with the separator gives the string back. *)
Lemma Join_SplitByte (sep : ascii) (s : string) :
  Join (SplitByte sep s) (String sep EmptyString) = s.
Proof.
  induction s as [|c s IH]; [reflexivity|].
  cbn [SplitByte]. pose proof (SplitByte_nonempty sep s) as Hne.
  destruct (Ascii.eqb_spec c sep) as [->|Hc].
  - destruct (SplitByte sep s) as [|piece rest]; [done|].
    change (Join (EmptyString :: piece :: rest) (String sep EmptyString))
      with (String sep (Join (piece :: rest) (String sep EmptyString))).
    by rewrite IH.
  - destruct (SplitByte sep s) as [|piece rest]; [done|].
    destruct rest as [|piece' rest].
    + cbn in IH |- *. by rewrite IH.
    + change (Join (String c piece :: piece' :: rest) (String sep EmptyString))
        with (String c (Join (piece :: piece' :: rest) (String sep EmptyString))).
      by rewrite IH.
Qed.

(** No piece contains the separator. *)
Lemma SplitByte_pieces (sep : ascii) (s : string) :
  Forall (fun piece => contains_byte sep piece = false) (SplitByte sep s).
Proof.
  induction s as [|c s IH]; cbn [SplitByte]; [by repeat constructor|].
  destruct (Ascii.eqb c sep) eqn:Hc; [by constructor|].
  destruct (SplitByte sep s) as [|piece rest].
  { constructor; [|constructor]. cbn. by rewrite Hc. }
  inversion IH as [|? ? Hpiece Hrest]; subst.
  constructor; [|done]. cbn. by rewrite Hc, Hpiece.
Qed.

Lemma to_uint_nonnil (p : positive) : Pos.to_uint p <> Decimal.Nil.
Proof.
  intros H. pose proof (DecimalPos.Unsigned.of_to p) as Hp.
  rewrite H in Hp. discriminate Hp.
Qed.

(** Parsing what [Itoa] printed gives the number back. *)
Lemma Atoi_Itoa (z : Z) : Atoi (Itoa z) = Some z.
Proof.
  unfold Atoi, Itoa. rewrite NilZero.isi.
  - cbn. by rewrite DecimalZ.of_to.
  - destruct z; cbn; try discriminate. intros [= H]. by apply to_uint_nonnil in H.
  - destruct z; cbn; try discriminate. intros [= H]. by apply to_uint_nonnil in H.
Qed.

Lemma Itoa_inj (z1 z2 : Z) : Itoa z1 = Itoa z2 -> z1 = z2.
Proof.
  intros H. apply (f_equal Atoi) in H. rewrite !Atoi_Itoa in H. congruence.
Qed.

End GoStrMore.

(** ** More on the derivation engine *)

Section CardGenMore.
Context (lib : GoLib).

(** X1. The capabilities annotation overrides the skill list.  When it is
    present, even empty, the capabilities are the trimmed pieces between
    the commas of its value: at least one piece, none containing a comma,
    and joined by commas they give the value back.  Without it the
    capabilities are the non-empty names of the declared skills, in declared
    order. *)
Theorem extractCapabilities_cases (agent : Agent) :
  (forall capStr,
      agent_Annotations agent !! AnnotationCapabilities = Some capStr ->
      exists pieces,
        extractCapabilities lib agent = strings_TrimSpace lib <$> pieces
        /\ pieces <> []
        /\ length (extractCapabilities lib agent) = length pieces
        /\ GoStr.Join pieces "," = capStr
        /\ Forall (fun piece => contains_byte "," piece = false) pieces)
  /\ (agent_Annotations agent !! AnnotationCapabilities = None ->
      extractCapabilities lib agent
      = filter (fun name => name <> "") (skill_Name <$> declared_skills agent)
      /\ Forall (fun name => name <> "") (extractCapabilities lib agent)
      /\ extractCapabilities lib agent `sublist_of` (skill_Name <$> declared_skills agent)).
Proof.
  unfold extractCapabilities, declared_skills. split.
  - intros capStr ->. exists (GoStr.SplitByte "," capStr).
    split; [done|]. split; [apply GoStrMore.SplitByte_nonempty|].
    split; [by rewrite length_fmap|].
    split; [apply GoStrMore.Join_SplitByte|apply GoStrMore.SplitByte_pieces].
  - intros ->.
    assert (Hsub : forall names : list string,
               Forall (fun name => name <> "") (filter (fun name => name <> "") names)
               /\ filter (fun name => name <> "") names `sublist_of` names).
    { intros names. split; [|apply sublist_filter].
      apply Forall_forall. intros name Hin.
      by apply list_elem_of_filter in Hin as [? _]. }
    destruct (aspec_Declarative (agent_Spec agent)) as [decl|];
      [|by repeat split; [constructor|]].
    destruct (decl_A2AConfig decl) as [cfg|]; [|by repeat split; [constructor|]].
    destruct (a2a_Skills cfg) as [|skill skills] eqn:Hskills;
      [by repeat split; [constructor|]|].
    unfold skill_names. split; [done|]. apply Hsub.
Qed.

(** *** Metadata *)

Lemma annotation_step_other (m : gmap string string) (kv : string * string)
    (key : string) :
  (GoStr.HasPrefix kv.1 AnnotationCardMetadataPrefix = true ->
   GoStr.TrimPrefix kv.1 AnnotationCardMetadataPrefix <> key) ->
  annotation_step m kv !! key = m !! key.
Proof.
  intros Hother. unfold annotation_step.
  destruct (GoStr.HasPrefix kv.1 AnnotationCardMetadataPrefix); [|done].
  rewrite lookup_insert_ne; [done|]. by apply Hother.
Qed.

Lemma foldl_annotation_step_other (l : list (string * string))
    (m : gmap string string) (key : string) :
  (forall kv, kv ∈ l ->
     GoStr.HasPrefix kv.1 AnnotationCardMetadataPrefix = true ->
     GoStr.TrimPrefix kv.1 AnnotationCardMetadataPrefix <> key) ->
  foldl annotation_step m l !! key = m !! key.
Proof.
  revert m. induction l as [|kv l IH]; intros m Hother; [done|].
  cbn [foldl]. rewrite IH.
  - apply annotation_step_other. apply Hother. by left.
  - intros kv' Hin. apply Hother. by right.
Qed.

Lemma foldl_annotation_step_hit (l : list (string * string))
    (m : gmap string string) (k v : string) :
  NoDup l.*1 -> (k, v) ∈ l ->
  GoStr.HasPrefix k AnnotationCardMetadataPrefix = true ->
  foldl annotation_step m l !! GoStr.TrimPrefix k AnnotationCardMetadataPrefix = Some v.
Proof.
  revert m. induction l as [|kv l IH]; intros m Hnodup Hin Hprefix.
  { by apply elem_of_nil in Hin. }
  cbn in Hnodup. apply NoDup_cons in Hnodup as [Hfresh Hnodup].
  cbn [foldl]. apply elem_of_cons in Hin as [<-|Hin]; [|by apply IH].
  rewrite foldl_annotation_step_other.
  - unfold annotation_step. cbn [fst snd]. rewrite Hprefix.
    by rewrite lookup_insert_eq.
  - intros kv' Hin' Hprefix' Heq. apply Hfresh.
    apply (GoStrFacts.TrimPrefix_inj AnnotationCardMetadataPrefix) in Heq; [|done..].
    cbn [fst]. rewrite <- Heq. apply list_elem_of_fmap. by exists kv'.
Qed.

(** X2. In the metadata the [card-] annotations have the last word: every
    annotation whose key carries the prefix puts its value under the rest of
    the key, over whatever the description, model config or tool list had
    put there.  A key that no such annotation contributes to keeps what the
    Agent's spec gave it: the description if it is not empty, the model
    config reference if there is one, the comma-joined names of the tools
    if any tool has a name, and nothing under any other key. *)
Theorem extractMetadata_lookup (agent : Agent) :
  (forall k v,
      agent_Annotations agent !! k = Some v ->
      GoStr.HasPrefix k AnnotationCardMetadataPrefix = true ->
      extractMetadata agent !! GoStr.TrimPrefix k AnnotationCardMetadataPrefix = Some v)
  /\ (forall key,
        ~ annotation_target agent key ->
        extractMetadata agent !! key = metadata_before_annotations agent !! key)
  /\ metadata_before_annotations agent !! "description"
     = Translator.nonempty_ptr (aspec_Description (agent_Spec agent))
  /\ metadata_before_annotations agent !! "modelConfig"
     = aspec_Declarative (agent_Spec agent)
         ≫= (fun decl => Translator.nonempty_ptr (decl_ModelConfig decl))
  /\ metadata_before_annotations agent !! "tools"
     = aspec_Declarative (agent_Spec agent)
         ≫= (fun decl => match omap tool_name (decl_Tools decl) with
                         | [] => None
                         | names => Some (GoStr.Join names ",")
                         end)
  /\ (forall key, key <> "description" -> key <> "modelConfig" -> key <> "tools" ->
        metadata_before_annotations agent !! key = None).
Proof.
  split; [|split].
  - intros k v Hk Hprefix. unfold extractMetadata, extractMetadata_ranging.
    apply foldl_annotation_step_hit; [apply NoDup_fst_map_to_list| |done].
    by apply elem_of_map_to_list.
  - intros key Hnot. unfold extractMetadata, extractMetadata_ranging.
    fold (metadata_before_annotations agent).
    apply foldl_annotation_step_other. intros [k v] Hin Hprefix Heq.
    apply Hnot. exists k. apply elem_of_map_to_list in Hin.
    split; [by eexists|done].
  - unfold metadata_before_annotations, declarative_metadata, put_if_nonempty,
      Translator.nonempty_ptr.
    destruct (aspec_Declarative (agent_Spec agent)) as [decl|]; cbn [mbind option_bind].
    + repeat split.
      * destruct (omap tool_name (decl_Tools decl));
          destruct (Json.is_empty_string (decl_ModelConfig decl));
          destruct (Json.is_empty_string (aspec_Description (agent_Spec agent)));
          by simplify_map_eq.
      * destruct (omap tool_name (decl_Tools decl));
          destruct (Json.is_empty_string (decl_ModelConfig decl));
          destruct (Json.is_empty_string (aspec_Description (agent_Spec agent)));
          by simplify_map_eq.
      * destruct (omap tool_name (decl_Tools decl));
          destruct (Json.is_empty_string (decl_ModelConfig decl));
          destruct (Json.is_empty_string (aspec_Description (agent_Spec agent)));
          by simplify_map_eq.
      * intros key H1 H2 H3.
        destruct (omap tool_name (decl_Tools decl));
          destruct (Json.is_empty_string (decl_ModelConfig decl));
          destruct (Json.is_empty_string (aspec_Description (agent_Spec agent)));
          by simplify_map_eq.
    + repeat split.
      * destruct (Json.is_empty_string (aspec_Description (agent_Spec agent)));
          by simplify_map_eq.
      * destruct (Json.is_empty_string (aspec_Description (agent_Spec agent)));
          by simplify_map_eq.
      * destruct (Json.is_empty_string (aspec_Description (agent_Spec agent)));
          by simplify_map_eq.
      * intros key H1 H2 H3.
        destruct (Json.is_empty_string (aspec_Description (agent_Spec agent)));
          by simplify_map_eq.
Qed.

End CardGenMore.

(** ** The translator *)

Section TranslatorMore.
Context (lib : GoLib).

Lemma nonempty_ptr_Some (s t : string) :
  Translator.nonempty_ptr s = Some t -> t = s /\ s <> "".
Proof.
  unfold Translator.nonempty_ptr. destruct s; cbn; [done|].
  intros [= <-]. done.
Qed.

Lemma string_app_inv_head (p s1 s2 : string) : p ++ s1 = p ++ s2 -> s1 = s2.
Proof.
  induction p as [|c p IH]; cbn; [done|]. intros [= H]. by apply IH.
Qed.

Lemma skills_from_length (start : Z) (caps : list string) :
  length (Translator.skills_from start caps) = length caps.
Proof.
  revert start. induction caps as [|cap caps IH]; intros start; cbn; [done|].
  by rewrite IH.
Qed.

Lemma skills_from_lookup (start : Z) (caps : list string) (i : nat) (cap : string) :
  caps !! i = Some cap ->
  Translator.skills_from start caps !! i
  = Some {| sskill_ID := "skill-" ++ GoStr.Itoa (start + Z.of_nat i);
            sskill_Name := cap;
            sskill_Description := None;
            sskill_Tags := [] |}.
Proof.
  revert start i. induction caps as [|c caps IH]; intros start i; [done|].
  destruct i as [|i]; cbn [Translator.skills_from].
  - intros [= ->]. cbn. by rewrite Z.add_0_r.
  - intros Hi. etrans; [exact (IH (start + 1) i Hi)|].
    do 4 f_equal. lia.
Qed.

Lemma skills_from_ids (start : Z) (caps : list string) (id : string) :
  id ∈ sskill_ID <$> Translator.skills_from start caps ->
  exists z, start <= z /\ id = "skill-" ++ GoStr.Itoa z.
Proof.
  revert start. induction caps as [|c caps IH]; intros start; cbn.
  { intros H. by apply elem_of_nil in H. }
  intros [->|Hin]%elem_of_cons.
  - exists start. split; [lia|done].
  - destruct (IH _ Hin) as (z & Hz & ->). exists z. split; [lia|done].
Qed.

Lemma skills_from_NoDup (start : Z) (caps : list string) :
  NoDup (sskill_ID <$> Translator.skills_from start caps).
Proof.
  revert start. induction caps as [|c caps IH]; intros start; cbn; [constructor|].
  constructor; [|apply IH].
  intros Hin. apply skills_from_ids in Hin as (z & Hz & Heq).
  apply string_app_inv_head, GoStrMore.Itoa_inj in Heq. lia.
Qed.

(** X3. The skills of the translated document.  Without capabilities the
    document has the single skill "default"; otherwise it has one skill per
    capability, in order, the i-th named after the i-th capability with the
    id "skill-i".  In both cases the list is not empty and the ids are
    pairwise different. *)
Theorem extractSkills_spec (card : AgentCard) :
  let caps := spec_Capabilities (card_Spec card) in
  let skills := Translator.extractSkills card in
  skills <> []
  /\ NoDup (sskill_ID <$> skills)
  /\ (caps = [] ->
      sskill_ID <$> skills = ["default"] /\ sskill_Name <$> skills = ["General Purpose"])
  /\ (caps <> [] ->
      length skills = length caps
      /\ sskill_Name <$> skills = caps
      /\ forall i cap, caps !! i = Some cap ->
           skills !! i
           = Some {| sskill_ID := "skill-" ++ GoStr.Itoa (Z.of_nat i);
                     sskill_Name := cap;
                     sskill_Description := None;
                     sskill_Tags := [] |}).
Proof.
  intros caps skills. subst caps skills. unfold Translator.extractSkills.
  destruct (spec_Capabilities (card_Spec card)) as [|cap caps] eqn:Hcaps.
  { repeat split; try done. repeat constructor. set_solver. }
  split; [done|]. split; [apply skills_from_NoDup|]. split; [done|].
  intros _. split; [apply skills_from_length|]. split.
  - apply list_eq. intros i. rewrite list_lookup_fmap.
    destruct ((cap :: caps) !! i) as [c|] eqn:Hi.
    + by rewrite (skills_from_lookup 0 _ i c Hi).
    + apply lookup_ge_None in Hi.
      rewrite (proj2 (lookup_ge_None _ _)); [done|].
      by rewrite skills_from_length.
  - intros i c Hi. by rewrite (skills_from_lookup 0 _ i c Hi).
Qed.

(** X4. What the translator always fills in.  A nil Card is refused; for
    any Card the document has a description and a version that are not
    empty (the metadata description or "Agent <name>", the Card version or
    "1.0.0"), its URL is that of the first endpoint (empty without
    endpoints), a provider exactly when the metadata names the provider
    organization (a provider URL alone is dropped), and its optional icon,
    documentation and protocol-version fields are absent rather than
    empty. *)
Theorem ToA2ACard_spec (card : AgentCard) :
  (exists err, Translator.ToA2ACard None = inr err)
  /\ exists doc,
       Translator.ToA2ACard (Some card) = inl doc
       /\ doc_Name doc = spec_Name (card_Spec card)
       /\ doc_Description doc <> ""
       /\ (forall desc, spec_Metadata (card_Spec card) !! "description" = Some desc ->
             desc <> "" -> doc_Description doc = desc)
       /\ doc_Version doc <> ""
       /\ (spec_Version (card_Spec card) <> "" ->
             doc_Version doc = spec_Version (card_Spec card))
       /\ doc_URL doc = default "" (ep_URL <$> head (spec_Endpoints (card_Spec card)))
       /\ (is_Some (doc_Provider doc)
           <-> is_Some (spec_Metadata (card_Spec card) !! "provider.organization"))
       /\ doc_IconURL doc <> Some ""
       /\ doc_DocumentationURL doc <> Some ""
       /\ doc_ProtocolVersion doc <> Some "".
Proof.
  split; [by eexists|]. eexists. split; [reflexivity|]. cbn.
  assert (Hptr : forall s, Translator.nonempty_ptr s <> Some "").
  { intros s H. by apply nonempty_ptr_Some in H as [<- ?]. }
  repeat split; try apply Hptr.
  - unfold Translator.extractDescription.
    destruct (spec_Metadata (card_Spec card) !! "description") as [desc|]; [|done].
    by destruct desc.
  - intros desc Hdesc Hne. unfold Translator.extractDescription.
    rewrite Hdesc. by destruct desc.
  - unfold Translator.extractVersion. by destruct (spec_Version (card_Spec card)).
  - intros Hne. unfold Translator.extractVersion.
    by destruct (spec_Version (card_Spec card)).
  - unfold Translator.extractPrimaryURL. by destruct (spec_Endpoints (card_Spec card)).
  - unfold Translator.extractProvider.
    destruct (spec_Metadata (card_Spec card) !! "provider.organization");
      [by eexists|by intros [? ?]].
  - unfold Translator.extractProvider.
    destruct (spec_Metadata (card_Spec card) !! "provider.organization");
      [by eexists|by intros [? ?]].
Qed.

(** X5. The document embedded in a derived Card describes that Card:
    translating the Card returned by [GenerateCard] again gives the very
    string in its public-document field, whenever the generator has a
    translator and the translation succeeds; when it fails it fails again
    and the field is empty. *)
Theorem GenerateCard_public_card_fixpoint
    (g : CardGenerator) (reg : AgentRegistry) (agent : Agent) (st : State)
    (translator : Translator_t) :
  cg_Translator g = Some translator ->
  let card := (GenerateCard lib g reg agent st).1.1 in
  match Translator.ToJSON lib (Some card) with
  | inl doc => spec_PublicCard (card_Spec card) = doc
  | inr _ => spec_PublicCard (card_Spec card) = ""
  end.
Proof.
  intros Htr card. subst card. rewrite GenerateCard_unfold.
  cbv zeta. cbn [fst snd].
  set (initial := initial_card lib g reg agent).
  unfold embed_public_card. rewrite Htr.
  destruct (Translator.ToJSON lib (Some initial)) as [doc|err] eqn:Hjson.
  - change (match Translator.ToJSON lib (Some initial) with
            | inl doc' => doc = doc'
            | inr _ => doc = ""
            end).
    by rewrite Hjson.
  - change (match Translator.ToJSON lib (Some initial) with
            | inl doc' => "" = doc'
            | inr _ => "" = ""
            end).
    by rewrite Hjson.
Qed.

End TranslatorMore.

(** S3 under the reference library: the embedded document is the
    translation of the Card it is embedded in. *)
Lemma GenerateCard_public_card_fixpoint_witness :
  let card := (GenerateCard Reference.lib (Scenario.generator Scenario.s3_cluster)
                 Scenario.r1 Scenario.a1_override Scenario.st0).1.1 in
  Translator.ToJSON Reference.lib (Some card) = inl (spec_PublicCard (card_Spec card)).
Proof.
  pose proof (GenerateCard_public_card_fixpoint Reference.lib
                (Scenario.generator Scenario.s3_cluster) Scenario.r1
                Scenario.a1_override Scenario.st0 NewTranslator eq_refl) as H.
  cbv zeta in H |- *.
  destruct (Translator.ToJSON Reference.lib
              (Some (GenerateCard Reference.lib (Scenario.generator Scenario.s3_cluster)
                       Scenario.r1 Scenario.a1_override Scenario.st0).1.1))
    as [doc|err] eqn:Hjson.
  - by rewrite H.
  - vm_compute in Hjson. discriminate Hjson.
Defined.

(** ** The serialized spec determines the spec *)

Section SpecJson.
Context (lib : GoLib).

(** Decide every [omitempty] test, then look the key up. *)
Ltac by_members :=
  repeat match goal with
         | |- context [if ?b then _ else _] => destruct b
         end;
  reflexivity.

Ltac member_of_string field :=
  unfold CardJson.AgentCardSpec_json, CardJson.ObjectReference_json,
    CardJson.AgentEndpoint_json, Json.member, Json.omitempty, Json.field;
  destruct field; cbn [Json.is_empty_string]; by_members.

Lemma opt_string_inj (s1 s2 : string) : opt_string s1 = opt_string s2 -> s1 = s2.
Proof. destruct s1, s2; cbn; congruence. Qed.

Lemma ref_member_kind r :
  Json.member "kind" (CardJson.ObjectReference_json r) = opt_string (ref_Kind r).
Proof. member_of_string (ref_Kind r). Qed.
Lemma ref_member_namespace r :
  Json.member "namespace" (CardJson.ObjectReference_json r) = opt_string (ref_Namespace r).
Proof. member_of_string (ref_Namespace r). Qed.
Lemma ref_member_name r :
  Json.member "name" (CardJson.ObjectReference_json r) = opt_string (ref_Name r).
Proof. member_of_string (ref_Name r). Qed.
Lemma ref_member_uid r :
  Json.member "uid" (CardJson.ObjectReference_json r) = opt_string (ref_UID r).
Proof. member_of_string (ref_UID r). Qed.
Lemma ref_member_apiVersion r :
  Json.member "apiVersion" (CardJson.ObjectReference_json r) = opt_string (ref_APIVersion r).
Proof. member_of_string (ref_APIVersion r). Qed.
Lemma ref_member_resourceVersion r :
  Json.member "resourceVersion" (CardJson.ObjectReference_json r)
  = opt_string (ref_ResourceVersion r).
Proof. member_of_string (ref_ResourceVersion r). Qed.
Lemma ref_member_fieldPath r :
  Json.member "fieldPath" (CardJson.ObjectReference_json r) = opt_string (ref_FieldPath r).
Proof. member_of_string (ref_FieldPath r). Qed.

Lemma ObjectReference_json_inj (r1 r2 : ObjectReference) :
  CardJson.ObjectReference_json r1 = CardJson.ObjectReference_json r2 -> r1 = r2.
Proof.
  intros H.
  pose proof (f_equal (Json.member "kind") H) as H1.
  pose proof (f_equal (Json.member "namespace") H) as H2.
  pose proof (f_equal (Json.member "name") H) as H3.
  pose proof (f_equal (Json.member "uid") H) as H4.
  pose proof (f_equal (Json.member "apiVersion") H) as H5.
  pose proof (f_equal (Json.member "resourceVersion") H) as H6.
  pose proof (f_equal (Json.member "fieldPath") H) as H7.
  rewrite !ref_member_kind in H1. rewrite !ref_member_namespace in H2.
  rewrite !ref_member_name in H3. rewrite !ref_member_uid in H4.
  rewrite !ref_member_apiVersion in H5. rewrite !ref_member_resourceVersion in H6.
  rewrite !ref_member_fieldPath in H7.
  apply opt_string_inj in H1, H2, H3, H4, H5, H6, H7.
  destruct r1, r2; cbn in *; congruence.
Qed.

Lemma ep_member_url e :
  Json.member "url" (CardJson.AgentEndpoint_json e) = Some (JStr (ep_URL e)).
Proof.
  unfold CardJson.AgentEndpoint_json, Json.member, Json.omitempty, Json.field.
  reflexivity.
Qed.
Lemma ep_member_protocol e :
  Json.member "protocol" (CardJson.AgentEndpoint_json e) = opt_string (ep_Protocol e).
Proof. member_of_string (ep_Protocol e). Qed.
Lemma ep_member_port e :
  Json.member "port" (CardJson.AgentEndpoint_json e)
  = if ep_Port e =? 0 then None else Some (JNum (ep_Port e)).
Proof.
  unfold CardJson.AgentEndpoint_json, Json.member, Json.omitempty, Json.field.
  destruct (Json.is_empty_string (ep_Protocol e)); destruct (ep_Port e =? 0); reflexivity.
Qed.

Lemma AgentEndpoint_json_inj (e1 e2 : AgentEndpoint) :
  CardJson.AgentEndpoint_json e1 = CardJson.AgentEndpoint_json e2 -> e1 = e2.
Proof.
  intros H.
  pose proof (f_equal (Json.member "url") H) as H1.
  pose proof (f_equal (Json.member "protocol") H) as H2.
  pose proof (f_equal (Json.member "port") H) as H3.
  rewrite !ep_member_url in H1. rewrite !ep_member_protocol in H2.
  rewrite !ep_member_port in H3. apply opt_string_inj in H2.
  assert (ep_Port e1 = ep_Port e2).
  { destruct (Z.eqb_spec (ep_Port e1) 0), (Z.eqb_spec (ep_Port e2) 0); congruence. }
  destruct e1, e2; cbn in *; congruence.
Qed.

Lemma fmap_inj_list {A B} (f : A -> B) (l1 l2 : list A) :
  (forall x y, f x = f y -> x = y) -> f <$> l1 = f <$> l2 -> l1 = l2.
Proof.
  intros Hf. revert l2. induction l1 as [|x l1 IH]; intros [|y l2]; cbn; try done.
  intros [= Hxy Hl]. f_equal; [by apply Hf|by apply IH].
Qed.

Lemma of_string_map_inj (m1 m2 : gmap string string) :
  Json.of_string_map m1 = Json.of_string_map m2 -> m1 = m2.
Proof.
  unfold Json.of_string_map. intros [= H].
  apply map_to_list_inj.
  assert (Hperm : prod_map id JStr <$> map_to_list m1
                  ≡ₚ prod_map id JStr <$> map_to_list m2).
  { rewrite <- (merge_sort_Permutation Json.field_le
                  (prod_map id JStr <$> map_to_list m1)).
    rewrite H. apply merge_sort_Permutation. }
  apply (fmap_Permutation (prod_map id json_string)) in Hperm.
  rewrite <- !list_fmap_compose in Hperm.
  assert (Hid : forall l : list (string * string),
             prod_map id json_string ∘ prod_map id JStr <$> l = l).
  { intros l. rewrite <- (list_fmap_id l) at 2. apply list_fmap_ext.
    by intros i [k v]. }
  by rewrite !Hid in Hperm.
Qed.

Lemma spec_member_name s :
  Json.member "name" (CardJson.AgentCardSpec_json s) = Some (JStr (spec_Name s)).
Proof. reflexivity. Qed.
Lemma spec_member_version s :
  Json.member "version" (CardJson.AgentCardSpec_json s) = opt_string (spec_Version s).
Proof. member_of_string (spec_Version s). Qed.
Lemma spec_member_sourceRef s :
  Json.member "sourceRef" (CardJson.AgentCardSpec_json s)
  = Some (CardJson.ObjectReference_json (spec_SourceRef s)).
Proof.
  unfold CardJson.AgentCardSpec_json, Json.member, Json.omitempty, Json.field.
  destruct (Json.is_empty_string (spec_Version s)); reflexivity.
Qed.
Lemma spec_member_capabilities s :
  Json.member "capabilities" (CardJson.AgentCardSpec_json s)
  = match spec_Capabilities s with
    | [] => None
    | caps => Some (JArr (JStr <$> caps))
    end.
Proof.
  unfold CardJson.AgentCardSpec_json, Json.member, Json.omitempty, Json.field.
  destruct (spec_Capabilities s); cbn [Json.is_empty_list]; by_members.
Qed.
Lemma spec_member_a2aVersion s :
  Json.member "a2aVersion" (CardJson.AgentCardSpec_json s) = opt_string (spec_A2AVersion s).
Proof. member_of_string (spec_A2AVersion s). Qed.
Lemma spec_member_metadata s :
  Json.member "metadata" (CardJson.AgentCardSpec_json s)
  = if bool_decide (spec_Metadata s = ∅) then None
    else Some (Json.of_string_map (spec_Metadata s)).
Proof.
  unfold CardJson.AgentCardSpec_json, Json.member, Json.omitempty, Json.field.
  destruct (bool_decide (spec_Metadata s = ∅)); by_members.
Qed.

(** X6. The JSON tree of a Card spec determines the spec: two specs with
    the same serialized tree agree on every field, the endpoint list, the
    capabilities and the metadata map included.  Hence two different specs
    have the same hash only if the digests of their two different
    serializations collide. *)
Theorem AgentCardSpec_json_determines_spec (spec1 spec2 : AgentCardSpec) :
  (CardJson.AgentCardSpec_json spec1 = CardJson.AgentCardSpec_json spec2
   <-> spec1 = spec2)
  /\ (spec1 <> spec2 ->
      calculateHash lib spec1 = calculateHash lib spec2 ->
      digests_collide lib (CardJson.AgentCardSpec_json spec1)
        (CardJson.AgentCardSpec_json spec2)).
Proof.
  assert (Hinj : CardJson.AgentCardSpec_json spec1 = CardJson.AgentCardSpec_json spec2 ->
                 spec1 = spec2).
  { intros H.
    pose proof (f_equal (Json.member "name") H) as H1.
    pose proof (f_equal (Json.member "version") H) as H2.
    pose proof (f_equal (Json.member "sourceRef") H) as H3.
    pose proof (f_equal (Json.member "endpoints") H) as H4.
    pose proof (f_equal (Json.member "capabilities") H) as H5.
    pose proof (f_equal (Json.member "a2aVersion") H) as H6.
    pose proof (f_equal (Json.member "metadata") H) as H7.
    pose proof (AgentCardSpec_json_publicCard spec1 spec2 H) as H8.
    rewrite !spec_member_name in H1. rewrite !spec_member_version in H2.
    rewrite !spec_member_sourceRef in H3. rewrite !member_endpoints in H4.
    rewrite !spec_member_capabilities in H5. rewrite !spec_member_a2aVersion in H6.
    rewrite !spec_member_metadata in H7.
    apply opt_string_inj in H2, H6.
    assert (H1' : spec_Name spec1 = spec_Name spec2) by congruence.
    assert (H3' : spec_SourceRef spec1 = spec_SourceRef spec2).
    { apply ObjectReference_json_inj. congruence. }
    assert (H4' : spec_Endpoints spec1 = spec_Endpoints spec2).
    { destruct (spec_Endpoints spec1) as [|e1 l1] eqn:E1,
        (spec_Endpoints spec2) as [|e2 l2] eqn:E2; try done.
      apply (fmap_inj_list CardJson.AgentEndpoint_json);
        [apply AgentEndpoint_json_inj|congruence]. }
    assert (H5' : spec_Capabilities spec1 = spec_Capabilities spec2).
    { destruct (spec_Capabilities spec1) as [|c1 l1] eqn:E1,
        (spec_Capabilities spec2) as [|c2 l2] eqn:E2; try done.
      apply (fmap_inj_list JStr); [congruence|congruence]. }
    assert (H7' : spec_Metadata spec1 = spec_Metadata spec2).
    { destruct (bool_decide_reflect (spec_Metadata spec1 = ∅)) as [E1|E1],
        (bool_decide_reflect (spec_Metadata spec2 = ∅)) as [E2|E2]; try done.
      - congruence.
      - apply of_string_map_inj. congruence. }
    clear H H1 H3 H4 H5 H7.
    destruct spec1, spec2; cbn in *; congruence. }
  split; [split; [exact Hinj|by intros ->]|].
  intros Hne Hhash. unfold calculateHash in Hhash. apply GoStrFacts.Hex_inj in Hhash.
  split; [|done]. intros Heq. by apply Hne, Hinj.
Qed.

End SpecJson.

(** ** More on the reconciler *)

Section ControllerMore.
Context (lib : GoLib).

(** X7. The annotation filter keeps exactly the Agents whose
    register-to-registry annotation is the string "true" and whose
    discovery-disabled annotation is not; it keeps them in their order, and
    filtering again changes nothing. *)
Theorem filterAgentsByAnnotation_spec (agents : list Agent) :
  (forall agent,
      agent ∈ filterAgentsByAnnotation agents <->
      agent ∈ agents
      /\ agent_Annotations agent !! AnnotationRegisterToRegistry = Some "true"
      /\ agent_Annotations agent !! AnnotationDiscoveryDisabled <> Some "true")
  /\ filterAgentsByAnnotation agents `sublist_of` agents
  /\ filterAgentsByAnnotation (filterAgentsByAnnotation agents)
     = filterAgentsByAnnotation agents.
Proof.
  unfold filterAgentsByAnnotation. split; [|split].
  - intros agent. rewrite list_elem_of_filter.
    unfold selected, annotation_is_true.
    rewrite andb_true_iff, negb_true_iff, bool_decide_eq_true, bool_decide_eq_false.
    tauto.
  - apply sublist_filter.
  - apply list_filter_filter_l. done.
Qed.

(** X8. Which failures discovery tolerates.  Without a namespace selector
    it fails exactly when listing the Registry's namespace fails.  With a
    selector it fails exactly when selecting the namespaces fails; a
    namespace whose listing fails is passed over, and the result holds the
    selected Agents of the namespaces that could be listed. *)
Theorem discoverAgents_failures (r : AgentRegistryController) (reg : AgentRegistry) :
  let cl := ctl_Client r in
  (disc_NamespaceSelector (rspec_Discovery (reg_Spec reg)) = None ->
   ((exists err, discoverAgents r reg = inr err)
    <-> is_Some (cl_list_agents_err cl (reg_Namespace reg))))
  /\ (forall selector,
        disc_NamespaceSelector (rspec_Discovery (reg_Spec reg)) = Some selector ->
        ((exists err, discoverAgents r reg = inr err)
         <-> exists err, cl_select_namespaces cl selector = inr err)
        /\ forall namespaces,
             cl_select_namespaces cl selector = inl namespaces ->
             exists agents,
               discoverAgents r reg = inl agents
               /\ forall agent,
                    agent ∈ agents <->
                    selected agent = true
                    /\ agent ∈ cl_agents cl
                    /\ agent_Namespace agent ∈ namespaces
                    /\ cl_list_agents_err cl (agent_Namespace agent) = None).
Proof.
  intros cl. subst cl. unfold discoverAgents. split.
  - intros ->. unfold Client_ListAgents.
    destruct (cl_list_agents_err (ctl_Client r) (reg_Namespace reg)) as [e|].
    + split; [by eexists|]. intros _. by eexists.
    + split; [by intros [? ?]|by intros [? ?]].
  - intros selector ->. unfold getMatchingNamespaces. split.
    + destruct (cl_select_namespaces (ctl_Client r) selector) as [namespaces|e].
      * split; [by intros [? ?]|by intros [? ?]].
      * split; [by eexists|]. intros _. by eexists.
    + intros namespaces ->. eexists. split; [reflexivity|].
      intros agent. unfold filterAgentsByAnnotation. rewrite list_elem_of_filter.
      assert (Hall : agent ∈ list_all r namespaces <->
                agent ∈ cl_agents (ctl_Client r)
                /\ agent_Namespace agent ∈ namespaces
                /\ cl_list_agents_err (ctl_Client r) (agent_Namespace agent) = None).
      { induction namespaces as [|ns rest IH]; cbn [list_all].
        { split; [by intros ?%elem_of_nil|by intros (_ & ?%elem_of_nil & _)]. }
        unfold Client_ListAgents.
        destruct (cl_list_agents_err (ctl_Client r) ns) as [e|] eqn:Hns.
        - rewrite IH, elem_of_cons. split; [tauto|].
          intros (? & [->|?] & Herr); [congruence|tauto].
        - rewrite elem_of_app, IH, list_elem_of_filter, elem_of_cons.
          split; [|tauto]. intros [[-> ?]|?]; [tauto|tauto]. }
      rewrite Hall. tauto.
Qed.

(** *** Counting *)

Lemma reconcileAgentCard_get_fault (r : AgentRegistryController) (reg : AgentRegistry)
    (agent : Agent) (st : State) :
  is_Some (cl_get_card_err (ctl_Client r) (card_key agent)) ->
  is_Some (reconcileAgentCard lib r reg agent st).1.
Proof.
  intros [e He]. rewrite reconcileAgentCard_unfold.
  unfold Client_GetCard, get_from. rewrite He. by eexists.
Qed.

Lemma reconcile_each_count (r : AgentRegistryController) (reg : AgentRegistry)
    (agents : list Agent) (count : Z) (st : State) :
  let result := reconcile_each lib r reg agents count st in
  count <= result.1 <= count + Z.of_nat (length agents)
  /\ ((forall agent, agent ∈ agents -> no_card_faults (ctl_Client r) agent) ->
      result.1 = count + Z.of_nat (length agents))
  /\ ((forall agent, agent ∈ agents ->
         is_Some (cl_get_card_err (ctl_Client r) (card_key agent))) ->
      result.1 = count).
Proof.
  revert count st. induction agents as [|agent rest IH]; intros count st.
  { cbn. repeat split; lia. }
  cbn [reconcile_each length].
  pose proof (reconcileAgentCard_cards lib r reg agent st) as (_ & _ & _ & Hok & _).
  pose proof (reconcileAgentCard_get_fault r reg agent st) as Hfault.
  cbv zeta in Hok.
  destruct (reconcileAgentCard lib r reg agent st) as [[err|] st1]; cbn [fst snd] in *.
  - destruct (IH count st1) as (Hb & Hall & Hnone). cbv zeta in *.
    split; [lia|]. split.
    + intros Hno. destruct (Hno agent) as [Hget Hpatch]; [by left|].
      by specialize (Hok Hget Hpatch).
    + intros Hget. apply Hnone. intros a Ha. apply Hget. by right.
  - destruct (IH (count + 1) st1) as (Hb & Hall & Hnone). cbv zeta in *.
    split; [lia|]. split.
    + intros Hno. rewrite Hall; [lia|]. intros a Ha. apply Hno. by right.
    + intros Hget. destruct (Hfault (Hget agent ltac:(by left))) as [? ?]. done.
Qed.

(** X9. The registered count.  A pass over a Registry with discovery
    enabled succeeds whenever discovery succeeds, whatever happens to the
    single Cards; the count it writes is the number of discovered Agents
    whose Card was reconciled without error (converted to 32 bits), between
    zero and the number of discovered Agents: all of them when no read or
    apply fails, none when every read fails. *)
Theorem registered_count (r : AgentRegistryController) (reg : AgentRegistry)
    (st : State) (agents : list Agent) :
  let pass := reconcileAgentRegistry lib r reg st in
  disc_EnableAutoDiscovery (rspec_Discovery (reg_Spec reg)) = true ->
  discoverAgents r reg = inl agents ->
  exists count,
    pass.1.1 = None
    /\ rstat_RegisteredAgents (reg_Status pass.1.2) = int32_of_int count
    /\ 0 <= count <= Z.of_nat (length agents)
    /\ (Z.of_nat (length agents) < 2 ^ 31 ->
        rstat_RegisteredAgents (reg_Status pass.1.2) = count)
    /\ ((forall agent, agent ∈ agents -> no_card_faults (ctl_Client r) agent) ->
        count = Z.of_nat (length agents))
    /\ ((forall agent, agent ∈ agents ->
           is_Some (cl_get_card_err (ctl_Client r) (card_key agent))) ->
        count = 0).
Proof.
  intros pass Henabled Hdisc. subst pass.
  unfold reconcileAgentRegistry. rewrite Henabled. cbn [negb].
  pose proof (updateStatus_spec r reg PhaseDiscovering "Discovering agents" 0 st)
    as (_ & _ & _ & Hspec1 & Hns1 & _).
  cbv zeta in Hspec1, Hns1.
  destruct (updateStatus r reg PhaseDiscovering "Discovering agents" 0 st)
    as [reg1 st1]. cbn [fst snd] in *.
  rewrite (discoverAgents_spec_only r reg reg1 Hspec1 Hns1), Hdisc.
  pose proof (reconcile_each_count r reg1 agents 0 st1) as (Hb & Hall & Hnone).
  cbv zeta in Hb, Hall, Hnone.
  destruct (reconcile_each lib r reg1 agents 0 st1) as [count st2].
  cbn [fst snd] in *.
  pose proof (updateStatus_spec r reg1 PhaseReady "Discovery complete"
                (int32_of_int count) st2) as (_ & _ & _ & _ & _ & _ & Hcount & _).
  cbv zeta in Hcount.
  destruct (updateStatus r reg1 PhaseReady "Discovery complete"
              (int32_of_int count) st2) as [reg2 st3]. cbn [fst snd] in *.
  exists count. split; [done|]. split; [done|]. split; [lia|]. split.
  - intros Hsmall. rewrite Hcount. unfold int32_of_int.
    rewrite Z.mod_small; lia.
  - split; [intros H; rewrite Hall; [lia|done]|intros H; by rewrite Hnone].
Qed.

End ControllerMore.

(** S1: one Agent, no failing call, registered count 1. *)
Lemma registered_count_witness :
  rstat_RegisteredAgents
    (reg_Status (reconcileAgentRegistry Reference.lib
                   (Scenario.controller Scenario.s1_cluster)
                   Scenario.r1 Scenario.st0).1.2) = 1.
Proof.
  destruct (registered_count Reference.lib (Scenario.controller Scenario.s1_cluster)
              Scenario.r1 Scenario.st0 [Scenario.a1] eq_refl)
    as (count & _ & _ & _ & Hsmall & Hall & _).
  - vm_compute. reflexivity.
  - rewrite Hsmall; [|cbn; lia]. rewrite Hall; [reflexivity|].
    intros agent Hin. split; reflexivity.
Defined.

(** ** What a pass applies and stores *)

Section AppliedCards.
Context (lib : GoLib).

Lemma CheckEndpoints_probe_bound (c : Checker) (cl : Cluster)
    (endpoints : list AgentEndpoint) (st : State) :
  (st_probes st <= st_probes (CheckEndpoints c cl endpoints st).2
   <= st_probes st + length endpoints)%nat.
Proof.
  destruct endpoints as [|e rest] eqn:Hlist; [cbn; lia|].
  rewrite <- Hlist. rewrite CheckEndpoints_nonempty by (by rewrite Hlist).
  destruct (check_each_spec c cl endpoints st)
    as [(i & e' & Hi & _ & _ & _ & ->)|(_ & _ & ->)]; [|lia].
  apply lookup_lt_Some in Hi. lia.
Qed.

Lemma probe_health_probe_bound (r : AgentRegistryController) (card : AgentCard)
    (st : State) :
  (st_probes st <= st_probes (probe_health r card st).2
   <= st_probes st + length (spec_Endpoints (card_Spec card)))%nat.
Proof.
  unfold probe_health.
  destruct (ctl_HealthChecker r) as [checker|]; [|cbn; lia].
  destruct (spec_Endpoints (card_Spec card)) as [|e rest] eqn:Heps; [cbn; lia|].
  pose proof (CheckEndpoints_probe_bound checker (ctl_Client r) (e :: rest) st) as Hb.
  destruct (CheckEndpoints checker (ctl_Client r) (e :: rest) st) as [[healthy err] st1].
  exact Hb.
Qed.

Lemma GenerateCard_derived (r : AgentRegistryController) (reg : AgentRegistry)
    (agent : Agent) (st : State) :
  let card := (GenerateCard lib (controller_generator r) reg agent st).1.1 in
  card_Spec card = derived_spec lib r reg agent
  /\ cstat_Hash (card_Status card) = calculateHash lib (derived_spec lib r reg agent)
  /\ spec_SourceRef (derived_spec lib r reg agent) = buildSourceRef agent
  /\ spec_Name (derived_spec lib r reg agent) = agent_Name agent.
Proof.
  rewrite GenerateCard_unfold. cbv zeta. cbn [fst snd].
  split; [reflexivity|]. split; [reflexivity|].
  unfold derived_spec, embed_public_card. cbn [controller_generator cg_Translator].
  destruct (Translator.ToJSON lib
              (Some (initial_card lib (controller_generator r) reg agent))); done.
Qed.

(** What one call of [reconcileAgentCard] does to the apply log, the
    probe counter and the stored Cards. *)
Lemma reconcileAgentCard_effect (r : AgentRegistryController) (reg : AgentRegistry)
    (agent : Agent) (st : State) :
  let result := reconcileAgentCard lib r reg agent st in
  (st_applied result.2 = st_applied st
   /\ st_probes result.2 = st_probes st
   /\ st_cards result.2 = st_cards st)
  \/ (exists applied,
        st_applied result.2 = (st_applied st ++ [applied])%list
        /\ card_OwnerReferences applied = [controller_ref reg]
        /\ card_Namespace applied = agent_Namespace agent
        /\ card_Name applied = agent_Name agent
        /\ card_Spec applied = derived_spec lib r reg agent
        /\ hash_consistent lib applied
        /\ (st_probes st <= st_probes result.2
            <= st_probes st + length (spec_Endpoints (card_Spec applied)))%nat
        /\ st_cards result.2
           = match cl_patch_err (ctl_Client r) (card_key agent) with
             | Some _ => st_cards st
             | None => <[card_key agent := applied]> (st_cards st)
             end).
Proof.
  intros result. subst result. rewrite reconcileAgentCard_unfold.
  set (derived := (GenerateCard lib (controller_generator r) reg agent st).1.1).
  destruct (GenerateCard_derived r reg agent st) as (Hspec & Hhash & _).
  destruct (GenerateCard_key lib (controller_generator r) reg agent st) as [Hns Hname].
  fold derived in Hspec, Hhash, Hns, Hname.
  assert (Happly :
    exists applied,
      st_applied (apply_card r reg derived (tick_clock st)).2
      = (st_applied st ++ [applied])%list
      /\ card_OwnerReferences applied = [controller_ref reg]
      /\ card_Namespace applied = agent_Namespace agent
      /\ card_Name applied = agent_Name agent
      /\ card_Spec applied = derived_spec lib r reg agent
      /\ hash_consistent lib applied
      /\ (st_probes st <= st_probes (apply_card r reg derived (tick_clock st)).2
          <= st_probes st + length (spec_Endpoints (card_Spec applied)))%nat
      /\ st_cards (apply_card r reg derived (tick_clock st)).2
         = match cl_patch_err (ctl_Client r) (card_key agent) with
           | Some _ => st_cards st
           | None => <[card_key agent := applied]> (st_cards st)
           end).
  { pose proof (apply_card_spec r reg derived (tick_clock st))
      as (Hlog & _ & _ & Hcards & _).
    pose proof (probe_health_spec r derived (tick_clock st))
      as (Hn & Hs & Hsp & Hh & _ & _).
    pose proof (probe_health_probe_bound r derived (tick_clock st)) as Hb.
    cbv zeta in Hlog, Hcards, Hn, Hs, Hsp, Hh.
    rewrite Hns, Hname in Hcards. fold (card_key agent) in Hcards.
    eexists. split; [exact Hlog|].
    cbn [SetOwnerReferences card_OwnerReferences card_Namespace card_Name card_Spec].
    split; [done|]. split; [by rewrite Hs|]. split; [by rewrite Hn|].
    split; [by rewrite Hsp|]. split.
    { unfold hash_consistent. cbn [SetOwnerReferences card_Status card_Spec].
      by rewrite Hh, Hsp, Hhash, Hspec. }
    split; [|exact Hcards].
    rewrite Hsp. unfold apply_card.
    destruct (probe_health r derived (tick_clock st)) as [card1 st1].
    cbn [fst snd tick_clock st_probes] in Hb.
    unfold Client_PatchApply.
    by destruct (cl_patch_err (ctl_Client r)
                   (card_Namespace (SetOwnerReferences [controller_ref reg] card1),
                    card_Name (SetOwnerReferences [controller_ref reg] card1))). }
  unfold Client_GetCard, get_from. cbn [tick_clock st_cards].
  destruct (cl_get_card_err (ctl_Client r) (card_key agent)); [by left|].
  destruct (st_cards st !! card_key agent) as [existing|]; [|by right].
  destruct (bool_decide (cstat_Hash (card_Status existing)
                         = cstat_Hash (card_Status derived))); [by left|by right].
Qed.

(** X10. Every Card the controller sends in an apply request for an Agent
    has exactly one owner reference, the controller reference to the
    Registry; it has the Agent's namespace and name, a source reference to
    the Agent, and the hash in its status is the hash of its spec: neither
    the health field nor the owner reference disturb it.  At most one
    request is sent per call, the endpoints are probed only on this path,
    at most once each, and a successful request stores exactly that Card. *)
Theorem reconcileAgentCard_applies_owned_card
    (r : AgentRegistryController) (reg : AgentRegistry) (agent : Agent) (st : State) :
  let result := reconcileAgentCard lib r reg agent st in
  exists applied_now,
    st_applied result.2 = (st_applied st ++ applied_now)%list
    /\ (length applied_now <= 1)%nat
    /\ (applied_now = [] ->
        st_probes result.2 = st_probes st /\ st_cards result.2 = st_cards st)
    /\ forall card, card ∈ applied_now ->
         card_OwnerReferences card = [controller_ref reg]
         /\ owner_Controller (controller_ref reg) = Some true
         /\ owner_Name (controller_ref reg) = reg_Name reg
         /\ owner_UID (controller_ref reg) = reg_UID reg
         /\ card_Namespace card = agent_Namespace agent
         /\ card_Name card = agent_Name agent
         /\ spec_SourceRef (card_Spec card) = buildSourceRef agent
         /\ hash_consistent lib card
         /\ (st_probes result.2
             <= st_probes st + length (spec_Endpoints (card_Spec card)))%nat
         /\ (result.1 = None -> st_cards result.2 !! card_key agent = Some card).
Proof.
  intros result. subst result.
  destruct (GenerateCard_derived r reg agent st) as (_ & _ & Href & _).
  pose proof (reconcileAgentCard_cards lib r reg agent st) as Hcards.
  cbv zeta in Hcards.
  pose proof (reconcileAgentCard_unfold lib r reg agent st) as Hunfold.
  pose proof (apply_card_spec r reg
                (GenerateCard lib (controller_generator r) reg agent st).1.1
                (tick_clock st)) as (_ & _ & _ & _ & Herr).
  destruct (GenerateCard_key lib (controller_generator r) reg agent st) as [Hns Hname].
  cbv zeta in Hunfold, Herr, Hns, Hname. rewrite Hns, Hname in Herr.
  fold (card_key agent) in Herr.
  destruct (reconcileAgentCard_effect r reg agent st)
    as [(Hlog & Hprobes & Hsame)
       |(applied & Hlog & Howner & Hcns & Hcname & Hspec & Hhash & Hb & Hstore)].
  - exists []. rewrite app_nil_r. split; [done|]. split; [cbn; lia|].
    split; [done|]. intros card Hin. by apply elem_of_nil in Hin.
  - exists [applied]. split; [done|]. split; [cbn; lia|].
    split; [done|]. intros card Hin. apply list_elem_of_singleton in Hin as ->.
    split; [done|]. split; [done|]. split; [done|]. split; [done|].
    split; [done|]. split; [done|]. split; [by rewrite Hspec|].
    split; [done|]. split; [lia|].
    intros Hnone. rewrite Hstore.
    destruct (cl_patch_err (ctl_Client r) (card_key agent)) as [e|] eqn:Hpatch;
      [|by rewrite lookup_insert_eq].
    (* the apply failed, so the call cannot have returned nil *)
    exfalso. rewrite Hunfold in Hnone, Hlog.
    assert (Hno : forall l (x : AgentCard), l <> (l ++ [x])%list).
    { intros l x H. apply (f_equal length) in H. rewrite length_app in H. cbn in H. lia. }
    unfold Client_GetCard, get_from in Hnone, Hlog.
    cbn [tick_clock st_cards] in Hnone, Hlog.
    destruct (cl_get_card_err (ctl_Client r) (card_key agent)); [done|].
    destruct (st_cards st !! card_key agent) as [existing|].
    + destruct (bool_decide _).
      * cbn in Hlog. by apply Hno in Hlog.
      * apply Herr in Hnone. congruence.
    + apply Herr in Hnone. congruence.
Qed.

(** Stored hashes stay consistent across one call. *)
Lemma reconcileAgentCard_hashes
    (r : AgentRegistryController) (reg : AgentRegistry) (agent : Agent) (st : State) :
  map_Forall (fun _ card => hash_consistent lib card) (st_cards st) ->
  map_Forall (fun _ card => hash_consistent lib card)
    (st_cards (reconcileAgentCard lib r reg agent st).2).
Proof.
  intros Hinv.
  destruct (reconcileAgentCard_effect r reg agent st)
    as [(_ & _ & ->)|(applied & _ & _ & _ & _ & _ & Hhash & _ & ->)]; [done|].
  destruct (cl_patch_err (ctl_Client r) (card_key agent)); [done|].
  by apply map_Forall_insert_2.
Qed.

Lemma reconcile_each_hashes
    (r : AgentRegistryController) (reg : AgentRegistry) (agents : list Agent)
    (count : Z) (st : State) :
  map_Forall (fun _ card => hash_consistent lib card) (st_cards st) ->
  map_Forall (fun _ card => hash_consistent lib card)
    (st_cards (reconcile_each lib r reg agents count st).2).
Proof.
  revert count st. induction agents as [|agent rest IH]; intros count st Hinv; [done|].
  cbn [reconcile_each].
  pose proof (reconcileAgentCard_hashes r reg agent st Hinv) as Hinv1.
  destruct (reconcileAgentCard lib r reg agent st) as [[err|] st1]; by apply IH.
Qed.

(** X11. Stored hashes stay consistent: if every stored Card carries the
    hash of its own spec before a pass over a Registry, so does every
    stored Card after it, whatever the pass skipped, applied or failed
    to do. *)
Theorem pass_keeps_hashes_consistent
    (r : AgentRegistryController) (reg : AgentRegistry) (st : State) :
  map_Forall (fun _ card => hash_consistent lib card) (st_cards st) ->
  map_Forall (fun _ card => hash_consistent lib card)
    (st_cards (reconcileAgentRegistry lib r reg st).2).
Proof.
  intros Hinv. unfold reconcileAgentRegistry.
  destruct (disc_EnableAutoDiscovery (rspec_Discovery (reg_Spec reg))); cbn [negb].
  - pose proof (updateStatus_spec r reg PhaseDiscovering "Discovering agents" 0 st)
      as (Hcards1 & _).
    cbv zeta in Hcards1.
    destruct (updateStatus r reg PhaseDiscovering "Discovering agents" 0 st)
      as [reg1 st1]. cbn [fst snd] in *.
    destruct (discoverAgents r reg1) as [agents|err]; [|cbn; by rewrite Hcards1].
    rewrite <- Hcards1 in Hinv.
    pose proof (reconcile_each_hashes r reg1 agents 0 st1 Hinv) as Hinv2.
    destruct (reconcile_each lib r reg1 agents 0 st1) as [count st2].
    cbn [fst snd] in *.
    pose proof (updateStatus_spec r reg1 PhaseReady "Discovery complete"
                  (int32_of_int count) st2) as (Hcards3 & _).
    cbv zeta in Hcards3.
    destruct (updateStatus r reg1 PhaseReady "Discovery complete"
                (int32_of_int count) st2) as [reg2 st3]. cbn [fst snd] in *.
    by rewrite Hcards3.
  - pose proof (updateStatus_spec r reg PhaseNotStarted "Auto-discovery disabled" 0 st)
      as (Hcards1 & _).
    cbv zeta in Hcards1.
    destruct (updateStatus r reg PhaseNotStarted "Auto-discovery disabled" 0 st)
      as [reg1 st1]. cbn [fst snd] in *. by rewrite Hcards1.
Qed.

End AppliedCards.

(** S2 after S1: the store produced by a first pass is consistent and stays
    so when the Service appears and the Card is applied again. *)
Lemma pass_keeps_hashes_consistent_witness :
  map_Forall (fun _ card => hash_consistent Reference.lib card)
    (st_cards (reconcileAgentRegistry Reference.lib
                 (Scenario.controller Scenario.s2_cluster)
                 Scenario.r1 Scenario.st_after_s1).2).
Proof.
  apply pass_keeps_hashes_consistent.
  intros key card Hcard.
  assert (Hstore : st_cards Scenario.st_after_s1
                   = {[ ("n", "a1") := Scenario.card_after_s1 ]}).
  { vm_compute. reflexivity. }
  rewrite Hstore in Hcard. apply lookup_singleton_Some in Hcard as [_ <-].
  vm_compute. reflexivity.
Defined.

(** ** A second pass *)

Section SecondPass.
Context (lib : GoLib).

Lemma derived_spec_reg_spec (r : AgentRegistryController) (reg reg' : AgentRegistry)
    (agent : Agent) :
  reg_Spec reg' = reg_Spec reg ->
  derived_spec lib r reg' agent = derived_spec lib r reg agent.
Proof.
  intros Hspec. unfold derived_spec, initial_card. by rewrite Hspec.
Qed.

(** Without failing calls the Card stored for the Agent afterwards carries
    the hash of the derived spec. *)
Lemma reconcileAgentCard_stores_derived (r : AgentRegistryController)
    (reg : AgentRegistry) (agent : Agent) (st : State) :
  no_card_faults (ctl_Client r) agent ->
  exists card,
    st_cards (reconcileAgentCard lib r reg agent st).2 !! card_key agent = Some card
    /\ cstat_Hash (card_Status card) = calculateHash lib (derived_spec lib r reg agent).
Proof.
  intros [Hget Hpatch]. fold (card_key agent) in Hget, Hpatch.
  destruct (GenerateCard_derived lib r reg agent st) as (_ & Hhash & _).
  cbv zeta in Hhash.
  pose proof (reconcileAgentCard_unfold lib r reg agent st) as Hunfold.
  cbv zeta in Hunfold.
  destruct (reconcileAgentCard_effect lib r reg agent st)
    as [(Hlog & _ & Hsame)|(applied & _ & _ & _ & _ & Hspec & Hcons & _ & Hstore)].
  - (* nothing applied: the stored Card already had the hash *)
    rewrite Hunfold in Hlog. rewrite Hsame.
    unfold Client_GetCard, get_from in Hlog. cbn [tick_clock st_cards] in Hlog.
    rewrite Hget in Hlog.
    pose proof (apply_card_spec r reg
                  (GenerateCard lib (controller_generator r) reg agent st).1.1
                  (tick_clock st)) as (Happlied & _).
    cbv zeta in Happlied. cbn [tick_clock st_applied] in Happlied.
    assert (Hno : forall l (x : AgentCard), (l ++ [x])%list <> l).
    { intros l x H. apply (f_equal length) in H. rewrite length_app in H. cbn in H. lia. }
    destruct (st_cards st !! card_key agent) as [existing|];
      [|rewrite Happlied in Hlog; by apply Hno in Hlog].
    destruct (bool_decide_reflect
                (cstat_Hash (card_Status existing)
                 = cstat_Hash (card_Status
                                 (GenerateCard lib (controller_generator r) reg agent st).1.1)))
      as [Heq|Hne]; [|rewrite Happlied in Hlog; by apply Hno in Hlog].
    exists existing. split; [done|]. by rewrite Heq.
  - rewrite Hstore, Hpatch. exists applied. rewrite lookup_insert_eq.
    split; [done|]. unfold hash_consistent in Hcons. by rewrite Hcons, Hspec.
Qed.

(** A stored Card with the hash of the derived spec is skipped. *)
Lemma reconcileAgentCard_skips (r : AgentRegistryController) (reg : AgentRegistry)
    (agent : Agent) (st : State) (card : AgentCard) :
  cl_get_card_err (ctl_Client r) (card_key agent) = None ->
  st_cards st !! card_key agent = Some card ->
  cstat_Hash (card_Status card) = calculateHash lib (derived_spec lib r reg agent) ->
  reconcileAgentCard lib r reg agent st = (None, tick_clock st).
Proof.
  intros Hget Hstored Hhash.
  destruct (GenerateCard_derived lib r reg agent st) as (_ & Hderived & _).
  cbv zeta in Hderived.
  rewrite reconcileAgentCard_unfold. unfold Client_GetCard, get_from.
  cbn [tick_clock st_cards]. rewrite Hget, Hstored.
  rewrite bool_decide_eq_true_2; [done|]. by rewrite Hhash, Hderived.
Qed.

Lemma reconcile_each_stores_derived (r : AgentRegistryController) (reg : AgentRegistry)
    (agents : list Agent) (count : Z) (st : State) :
  NoDup (card_key <$> agents) ->
  (forall agent, agent ∈ agents -> no_card_faults (ctl_Client r) agent) ->
  forall agent, agent ∈ agents ->
    exists card,
      st_cards (reconcile_each lib r reg agents count st).2 !! card_key agent = Some card
      /\ cstat_Hash (card_Status card) = calculateHash lib (derived_spec lib r reg agent).
Proof.
  revert count st. induction agents as [|a rest IH]; intros count st Hnodup Hno agent Hin.
  { by apply elem_of_nil in Hin. }
  cbn in Hnodup. apply NoDup_cons in Hnodup as [Hfresh Hnodup].
  cbn [reconcile_each].
  pose proof (reconcileAgentCard_stores_derived r reg a st (Hno a ltac:(by left)))
    as (card & Hcard & Hhash).
  destruct (reconcileAgentCard lib r reg a st) as [err st1]. cbn [fst snd] in *.
  assert (Hgoal : forall count',
    exists card',
      st_cards (reconcile_each lib r reg rest count' st1).2 !! card_key agent = Some card'
      /\ cstat_Hash (card_Status card')
         = calculateHash lib (derived_spec lib r reg agent)).
  { intros count'. apply elem_of_cons in Hin as [->|Hin].
    - exists card. split; [|done].
      destruct (reconcile_each_cards lib r reg rest count' st1) as (_ & Hframe & _).
      rewrite Hframe; [done|]. intros a' Ha' Heq. apply Hfresh.
      rewrite <- Heq. apply list_elem_of_fmap. by exists a'.
    - apply IH; [done| |done]. intros a' Ha'. apply Hno. by right. }
  destruct err; apply Hgoal.
Qed.

Lemma reconcile_each_skips_all (r : AgentRegistryController) (reg : AgentRegistry)
    (agents : list Agent) (count : Z) (st : State) :
  (forall agent, agent ∈ agents ->
     cl_get_card_err (ctl_Client r) (card_key agent) = None
     /\ exists card,
          st_cards st !! card_key agent = Some card
          /\ cstat_Hash (card_Status card)
             = calculateHash lib (derived_spec lib r reg agent)) ->
  let result := reconcile_each lib r reg agents count st in
  result.1 = count + Z.of_nat (length agents)
  /\ st_cards result.2 = st_cards st
  /\ st_applied result.2 = st_applied st
  /\ st_probes result.2 = st_probes st.
Proof.
  revert count st. induction agents as [|a rest IH]; intros count st Hall.
  { cbn. repeat split; lia. }
  cbn [reconcile_each length].
  destruct (Hall a ltac:(by left)) as (Hget & card & Hcard & Hhash).
  rewrite (reconcileAgentCard_skips r reg a st card Hget Hcard Hhash).
  destruct (IH (count + 1) (tick_clock st)) as (Hcount & Hcards & Happlied & Hprobes).
  { intros a' Ha'. apply Hall. by right. }
  cbv zeta in *. cbn [tick_clock st_cards st_applied st_probes] in *.
  repeat split; try done. lia.
Qed.

(** A pass over a store that already holds, for every discovered Agent, a
    Card with the derived hash. *)
Lemma pass_over_settled_store
    (r : AgentRegistryController) (reg : AgentRegistry) (st : State)
    (agents : list Agent) :
  let pass := reconcileAgentRegistry lib r reg st in
  disc_EnableAutoDiscovery (rspec_Discovery (reg_Spec reg)) = true ->
  discoverAgents r reg = inl agents ->
  (forall agent, agent ∈ agents ->
     cl_get_card_err (ctl_Client r) (card_key agent) = None
     /\ exists card,
          st_cards st !! card_key agent = Some card
          /\ cstat_Hash (card_Status card)
             = calculateHash lib (derived_spec lib r reg agent)) ->
  pass.1.1 = None
  /\ st_applied pass.2 = st_applied st
  /\ st_cards pass.2 = st_cards st
  /\ st_probes pass.2 = st_probes st
  /\ rstat_RegisteredAgents (reg_Status pass.1.2)
     = int32_of_int (Z.of_nat (length agents)).
Proof.
  intros pass Henabled Hdisc Hstored. subst pass.
  unfold reconcileAgentRegistry. rewrite Henabled. cbn [negb].
  pose proof (updateStatus_spec r reg PhaseDiscovering "Discovering agents" 0 st)
    as (Hcards1 & Happlied1 & _ & Hspec1 & Hns1 & _).
  cbv zeta in Hcards1, Happlied1, Hspec1, Hns1.
  assert (Hprobes1 : st_probes (updateStatus r reg PhaseDiscovering
                                  "Discovering agents" 0 st).2 = st_probes st)
    by reflexivity.
  destruct (updateStatus r reg PhaseDiscovering "Discovering agents" 0 st)
    as [reg1 st1]. cbn [fst snd] in *.
  rewrite (discoverAgents_spec_only r reg reg1 Hspec1 Hns1), Hdisc.
  assert (Hall : forall agent, agent ∈ agents ->
             cl_get_card_err (ctl_Client r) (card_key agent) = None
             /\ exists card,
                  st_cards st1 !! card_key agent = Some card
                  /\ cstat_Hash (card_Status card)
                     = calculateHash lib (derived_spec lib r reg1 agent)).
  { intros agent Hin. destruct (Hstored agent Hin) as (Hget & card & Hcard & Hhash).
    split; [done|]. exists card. rewrite Hcards1. split; [done|].
    by rewrite (derived_spec_reg_spec r reg reg1 agent Hspec1). }
  pose proof (reconcile_each_skips_all r reg1 agents 0 st1 Hall)
    as (Hcount & Hcards2 & Happlied2 & Hprobes2).
  cbv zeta in Hcount, Hcards2, Happlied2, Hprobes2.
  destruct (reconcile_each lib r reg1 agents 0 st1) as [count st2].
  cbn [fst snd] in *.
  pose proof (updateStatus_spec r reg1 PhaseReady "Discovery complete"
                (int32_of_int count) st2)
    as (Hcards3 & Happlied3 & _ & _ & _ & _ & Hcount3 & _).
  cbv zeta in Hcards3, Happlied3, Hcount3.
  assert (Hprobes3 : st_probes (updateStatus r reg1 PhaseReady "Discovery complete"
                                  (int32_of_int count) st2).2 = st_probes st2)
    by reflexivity.
  destruct (updateStatus r reg1 PhaseReady "Discovery complete"
              (int32_of_int count) st2) as [reg2 st3]. cbn [fst snd] in *.
  split; [done|]. split; [congruence|]. split; [congruence|]. split; [congruence|].
  by rewrite Hcount3, Hcount.
Qed.

(** What a first pass without failing calls leaves behind. *)
Lemma pass_settles_store
    (r : AgentRegistryController) (reg : AgentRegistry) (st : State)
    (agents : list Agent) :
  let pass := reconcileAgentRegistry lib r reg st in
  disc_EnableAutoDiscovery (rspec_Discovery (reg_Spec reg)) = true ->
  discoverAgents r reg = inl agents ->
  NoDup (card_key <$> agents) ->
  (forall agent, agent ∈ agents -> no_card_faults (ctl_Client r) agent) ->
  rstat_RegisteredAgents (reg_Status pass.1.2)
  = int32_of_int (Z.of_nat (length agents))
  /\ forall agent, agent ∈ agents ->
       exists card,
         st_cards pass.2 !! card_key agent = Some card
         /\ cstat_Hash (card_Status card)
            = calculateHash lib (derived_spec lib r reg agent).
Proof.
  intros pass Henabled Hdisc Hnodup Hno. subst pass.
  unfold reconcileAgentRegistry. rewrite Henabled. cbn [negb].
  pose proof (updateStatus_spec r reg PhaseDiscovering "Discovering agents" 0 st)
    as (_ & _ & _ & Hspec1 & Hns1 & _).
  cbv zeta in Hspec1, Hns1.
  destruct (updateStatus r reg PhaseDiscovering "Discovering agents" 0 st)
    as [reg1 st1]. cbn [fst snd] in *.
  rewrite (discoverAgents_spec_only r reg reg1 Hspec1 Hns1), Hdisc.
  pose proof (reconcile_each_stores_derived r reg1 agents 0 st1 Hnodup Hno) as Hstored.
  pose proof (reconcile_each_count lib r reg1 agents 0 st1) as (_ & Hall & _).
  cbv zeta in Hall. specialize (Hall Hno).
  destruct (reconcile_each lib r reg1 agents 0 st1) as [count st2].
  cbn [fst snd] in *.
  pose proof (updateStatus_spec r reg1 PhaseReady "Discovery complete"
                (int32_of_int count) st2)
    as (Hcards3 & _ & _ & _ & _ & _ & Hcount & _).
  cbv zeta in Hcards3, Hcount.
  destruct (updateStatus r reg1 PhaseReady "Discovery complete"
              (int32_of_int count) st2) as [reg2 st3]. cbn [fst snd] in *.
  split; [by rewrite Hcount, Hall|].
  intros agent Hin. destruct (Hstored agent Hin) as (card & Hcard & Hhash).
  exists card. rewrite Hcards3. split; [done|].
  by rewrite <- (derived_spec_reg_spec r reg reg1 agent Hspec1).
Qed.

(** X12. A second pass changes nothing.  When discovery is enabled, the
    discovered Agents have pairwise different namespace/name keys and no
    read or apply of their Cards fails, a pass over the state left by a
    first pass over the same Registry succeeds without a single apply
    request or probe: the stored Cards are untouched and every Agent is
    counted as registered again. *)
Theorem second_pass_applies_nothing
    (r : AgentRegistryController) (reg : AgentRegistry) (st : State)
    (agents : list Agent) :
  let pass1 := reconcileAgentRegistry lib r reg st in
  let pass2 := reconcileAgentRegistry lib r reg pass1.2 in
  disc_EnableAutoDiscovery (rspec_Discovery (reg_Spec reg)) = true ->
  discoverAgents r reg = inl agents ->
  NoDup (card_key <$> agents) ->
  (forall agent, agent ∈ agents -> no_card_faults (ctl_Client r) agent) ->
  pass2.1.1 = None
  /\ st_applied pass2.2 = st_applied pass1.2
  /\ st_cards pass2.2 = st_cards pass1.2
  /\ st_probes pass2.2 = st_probes pass1.2
  /\ rstat_RegisteredAgents (reg_Status pass2.1.2)
     = int32_of_int (Z.of_nat (length agents))
  /\ rstat_RegisteredAgents (reg_Status pass1.1.2)
     = int32_of_int (Z.of_nat (length agents)).
Proof.
  intros pass1 pass2 Henabled Hdisc Hnodup Hno.
  destruct (pass_settles_store r reg st agents Henabled Hdisc Hnodup Hno)
    as [Hcount1 Hstored].
  destruct (pass_over_settled_store r reg pass1.2 agents Henabled Hdisc)
    as (H1 & H2 & H3 & H4 & H5).
  { intros agent Hin. split; [by destruct (Hno agent Hin)|by apply Hstored]. }
  by repeat split.
Qed.

End SecondPass.

(** S5: a second pass over S1 applies nothing. *)
Lemma second_pass_applies_nothing_witness :
  let pass1 := reconcileAgentRegistry Reference.lib
                 (Scenario.controller Scenario.s1_cluster) Scenario.r1 Scenario.st0 in
  let pass2 := reconcileAgentRegistry Reference.lib
                 (Scenario.controller Scenario.s1_cluster) Scenario.r1 pass1.2 in
  pass2.1.1 = None
  /\ st_applied pass2.2 = st_applied pass1.2
  /\ st_cards pass2.2 = st_cards pass1.2.
Proof.
  destruct (second_pass_applies_nothing Reference.lib
              (Scenario.controller Scenario.s1_cluster) Scenario.r1 Scenario.st0
              [Scenario.a1]) as (Herr & Happlied & Hcards & _).
  - reflexivity.
  - vm_compute. reflexivity.
  - repeat constructor. set_solver.
  - intros agent Hin. split; reflexivity.
  - cbv zeta. by repeat split.
Defined.

(** ** Status writes and the outcome of Reconcile *)

Section StatusMore.
Context (lib : GoLib).

Lemma upsert_condition_elem (condition : Condition) (existing : list Condition) :
  condition ∈ upsert_condition condition existing.
Proof.
  induction existing as [|c rest IH]; cbn; [by left|].
  destruct (bool_decide (cond_Type c = cond_Type condition)); [by left|by right].
Qed.

Lemma upsert_condition_types (condition : Condition) (existing : list Condition) :
  cond_Type <$> upsert_condition condition existing
  = if bool_decide (cond_Type condition ∈ cond_Type <$> existing)
    then cond_Type <$> existing
    else ((cond_Type <$> existing) ++ [cond_Type condition])%list.
Proof.
  induction existing as [|c rest IH]; cbn [upsert_condition fmap list_fmap].
  { rewrite bool_decide_eq_false_2; [done|]. by intros ?%elem_of_nil. }
  destruct (bool_decide_reflect (cond_Type c = cond_Type condition)) as [Heq|Hne].
  - rewrite bool_decide_eq_true_2; [by cbn; rewrite Heq|]. rewrite Heq. by left.
  - cbn [fmap list_fmap]. change (list_fmap _ _ cond_Type ?l) with (cond_Type <$> l).
    rewrite IH.
    destruct (bool_decide_reflect (cond_Type condition ∈ cond_Type <$> rest)) as [Hin|Hnin].
    + rewrite bool_decide_eq_true_2; [done|]. by right.
    + rewrite bool_decide_eq_false_2; [done|].
      intros [?|?]%elem_of_cons; [congruence|done].
Qed.

Lemma upsert_condition_others (condition : Condition) (existing : list Condition)
    (c : Condition) :
  cond_Type c <> cond_Type condition ->
  (c ∈ upsert_condition condition existing <-> c ∈ existing).
Proof.
  intros Hne. induction existing as [|c' rest IH]; cbn [upsert_condition].
  { rewrite list_elem_of_singleton. split; [by intros ->|by intros ?%elem_of_nil]. }
  destruct (bool_decide_reflect (cond_Type c' = cond_Type condition)) as [Heq|Hne'].
  - rewrite !elem_of_cons. split; [intros [->|?]; [done|tauto]|].
    intros [->|?]; [congruence|tauto].
  - rewrite !elem_of_cons, IH. tauto.
Qed.

(** X13. The conditions after a status write.  The write records one
    condition with status True and the given message, of type Error for
    phase Error, Discovering for phase Discovering and Ready for every
    other phase, NotStarted included.  It replaces the first condition of
    that type or is appended; conditions of other types are never removed
    or changed, so the list grows by at most one and types that were
    pairwise different stay so. *)
Theorem updateStatus_conditions (r : AgentRegistryController) (reg : AgentRegistry)
    (phase message : string) (count : Z) (st : State) :
  let before := rstat_Conditions (reg_Status reg) in
  let after := rstat_Conditions (reg_Status (updateStatus r reg phase message count st).1) in
  let written := status_condition reg phase message
                   (cl_clock (ctl_Client r) (st_clock_reads st)) in
  written ∈ after
  /\ cond_Type written = condition_type_of phase
  /\ cond_Status written = ConditionTrue
  /\ cond_Message written = message
  /\ cond_ObservedGeneration written = reg_Generation reg
  /\ (forall c, cond_Type c <> condition_type_of phase -> (c ∈ after <-> c ∈ before))
  /\ (length before <= length after <= S (length before))%nat
  /\ (length after = length before <-> condition_type_of phase ∈ cond_Type <$> before)
  /\ (NoDup (cond_Type <$> before) -> NoDup (cond_Type <$> after)).
Proof.
  intros before after written. subst before after written.
  unfold updateStatus. cbn.
  set (written := status_condition reg phase message
                    (cl_clock (ctl_Client r) (st_clock_reads st))).
  set (before := rstat_Conditions (reg_Status reg)).
  assert (Htype : cond_Type written = condition_type_of phase) by reflexivity.
  pose proof (upsert_condition_types written before) as Htypes.
  assert (Hlen : length (upsert_condition written before)
                 = length (cond_Type <$> upsert_condition written before))
    by (by rewrite length_fmap).
  split; [apply upsert_condition_elem|]. split; [done|]. split; [done|].
  split; [done|]. split; [done|]. split.
  { intros c Hc. apply upsert_condition_others. by rewrite Htype. }
  rewrite <- Htype.
  destruct (bool_decide_reflect (cond_Type written ∈ cond_Type <$> before)) as [Hin|Hnin];
    rewrite Hlen, Htypes, ?length_app, !length_fmap; cbn [length].
  - split; [lia|]. split; [done|done].
  - split; [lia|]. split; [split; [lia|done]|].
    intros Hnodup. apply NoDup_app. split; [done|]. split.
    + intros x Hx ->%list_elem_of_singleton. done.
    + apply NoDup_singleton.
Qed.

(** X14. A pass over a Registry with discovery switched off does nothing
    but write the status once: phase NotStarted, registered count zero,
    observed generation equal to the generation.  It lists no Agent (so no
    listing failure can fail it), issues no apply request and no probe and
    leaves the stored Cards alone. *)
Theorem pass_with_discovery_disabled
    (r : AgentRegistryController) (reg : AgentRegistry) (st : State) :
  let pass := reconcileAgentRegistry lib r reg st in
  disc_EnableAutoDiscovery (rspec_Discovery (reg_Spec reg)) = false ->
  pass.1.1 = None
  /\ st_status_updates pass.2 = (st_status_updates st ++ [pass.1.2])%list
  /\ rstat_Phase (reg_Status pass.1.2) = PhaseNotStarted
  /\ rstat_RegisteredAgents (reg_Status pass.1.2) = 0
  /\ rstat_ObservedGeneration (reg_Status pass.1.2) = reg_Generation reg
  /\ st_applied pass.2 = st_applied st
  /\ st_cards pass.2 = st_cards st
  /\ st_probes pass.2 = st_probes st.
Proof.
  intros pass Hoff. subst pass. unfold reconcileAgentRegistry. rewrite Hoff.
  cbn [negb]. unfold updateStatus. cbn. repeat split; reflexivity.
Qed.

(** X15. The outcomes of [Reconcile].  A Registry that is not found is a
    success that changes nothing and asks for no requeue; a failing read is
    returned as it is.  Otherwise the call fails exactly when discovery is
    enabled and fails: then the error says so, no requeue is asked for, and
    the last status write has phase Error, count zero and an Error
    condition carrying the message.  On success the requeue delay is the
    configured sync interval, five minutes when there is none. *)
Theorem Reconcile_outcomes (r : AgentRegistryController) (req : string * string)
    (st : State) :
  let run := Reconcile lib r req st in
  match Client_GetRegistry (ctl_Client r) req with
  | NotFound => run = (({| RequeueAfter := 0 |}, None), st)
  | GetFailed err => run = (({| RequeueAfter := 0 |}, Some err), st)
  | Found reg =>
      let enabled := disc_EnableAutoDiscovery (rspec_Discovery (reg_Spec reg)) in
      match run.1.2 with
      | None =>
          RequeueAfter run.1.1
          = default five_minutes (disc_SyncInterval (rspec_Discovery (reg_Spec reg)))
          /\ (enabled = true -> exists agents, discoverAgents r reg = inl agents)
      | Some err =>
          RequeueAfter run.1.1 = 0
          /\ enabled = true
          /\ (exists cause, discoverAgents r reg = inr cause
                            /\ err = Errorf_w "failed to discover agents" cause)
          /\ st_applied run.2 = st_applied st
          /\ st_cards run.2 = st_cards st
          /\ exists written,
               last (st_status_updates run.2) = Some written
               /\ rstat_Phase (reg_Status written) = PhaseError
               /\ rstat_RegisteredAgents (reg_Status written) = 0
               /\ exists c, c ∈ rstat_Conditions (reg_Status written)
                            /\ cond_Type c = AgentRegistryConditionTypeError
                            /\ cond_Reason c = "ReconciliationFailed"
                            /\ cond_Message c = err
      end
  end.
Proof.
  intros run. subst run. unfold Reconcile.
  destruct (Client_GetRegistry (ctl_Client r) req) as [reg| |e]; [|done..].
  cbv zeta. unfold reconcileAgentRegistry.
  destruct (disc_EnableAutoDiscovery (rspec_Discovery (reg_Spec reg))) eqn:Hen;
    cbn [negb].
  2:{ unfold updateStatus. cbn. split; [done|]. done. }
  pose proof (updateStatus_spec r reg PhaseDiscovering "Discovering agents" 0 st)
    as (Hcards1 & Happlied1 & _ & Hspec1 & Hns1 & _).
  cbv zeta in Hcards1, Happlied1, Hspec1, Hns1.
  destruct (updateStatus r reg PhaseDiscovering "Discovering agents" 0 st)
    as [reg1 st1]. cbn [fst snd] in *.
  rewrite (discoverAgents_spec_only r reg reg1 Hspec1 Hns1).
  destruct (discoverAgents r reg) as [agents|cause].
  - destruct (reconcile_each lib r reg1 agents 0 st1) as [count st2].
    destruct (updateStatus r reg1 PhaseReady "Discovery complete"
                (int32_of_int count) st2) as [reg2 st3] eqn:Hup.
    assert (Hspec2 : reg_Spec reg2 = reg_Spec reg1).
    { pose proof (updateStatus_spec r reg1 PhaseReady "Discovery complete"
                    (int32_of_int count) st2) as (_ & _ & _ & H & _).
      cbv zeta in H. by rewrite Hup in H. }
    cbn [fst snd]. rewrite Hspec2, Hspec1. split; [done|]. intros _. by eexists.
  - set (err := Errorf_w "failed to discover agents" cause).
    pose proof (updateStatus_spec r reg1 PhaseError err 0 st1)
      as (Hcards2 & Happlied2 & Hlog2 & _ & _ & Hphase2 & Hcount2 & _).
    assert (Hin : status_condition reg1 PhaseError err
                    (cl_clock (ctl_Client r) (st_clock_reads st1))
                  ∈ rstat_Conditions
                      (reg_Status (updateStatus r reg1 PhaseError err 0 st1).1))
      by apply upsert_condition_elem.
    cbv zeta in Hcards2, Happlied2, Hlog2, Hphase2, Hcount2.
    destruct (updateStatus r reg1 PhaseError err 0 st1) as [reg2 st2].
    cbn [fst snd] in *.
    split; [done|]. split; [done|]. split; [by exists cause|].
    split; [congruence|]. split; [congruence|].
    exists reg2. split; [by rewrite Hlog2, last_snoc|]. split; [done|]. split; [done|].
    eexists. split; [exact Hin|]. by repeat split.
Qed.

End StatusMore.

(** S1 with discovery switched off: one status write, nothing else. *)
Lemma pass_with_discovery_disabled_witness :
  let pass := reconcileAgentRegistry Reference.lib
                (Scenario.controller Scenario.s1_disabled)
                Scenario.r1_disabled Scenario.st0 in
  pass.1.1 = None
  /\ rstat_Phase (reg_Status pass.1.2) = PhaseNotStarted
  /\ st_applied pass.2 = []
  /\ st_cards pass.2 = ∅.
Proof.
  pose proof (pass_with_discovery_disabled Reference.lib
                (Scenario.controller Scenario.s1_disabled)
                Scenario.r1_disabled Scenario.st0 eq_refl) as H.
  cbv zeta in H. destruct H as (Herr & _ & Hphase & _ & _ & Happlied & Hcards & _).
  cbv zeta. split; [exact Herr|]. split; [exact Hphase|].
  split; [exact Happlied|exact Hcards].
Defined.

(** ** The form of the hash, Service URLs and the failures of one Agent *)

Lemma Hex_byte_digits (b : ascii) :
  is_hex_digit (GoStr.hex_digit (N_of_ascii b / 16))
  && is_hex_digit (GoStr.hex_digit (N_of_ascii b mod 16)) = true.
Proof. destruct b as [[] [] [] [] [] [] [] []]; reflexivity. Qed.

Lemma Hex_digits (s : string) : string_forall is_hex_digit (GoStr.Hex s) = true.
Proof.
  induction s as [|b s IH]; [reflexivity|].
  cbn [GoStr.Hex string_forall]. cbv zeta.
  pose proof (Hex_byte_digits b) as [H1 H2]%andb_prop.
  by rewrite H1, H2, IH.
Qed.

Lemma Hex_length (s : string) :
  String.length (GoStr.Hex s) = (2 * String.length s)%nat.
Proof.
  induction s as [|b s IH]; [reflexivity|].
  cbn [GoStr.Hex String.length]. cbv zeta. cbn [String.length]. rewrite IH. lia.
Qed.

Lemma string_app_assoc (s1 s2 s3 : string) : (s1 ++ s2) ++ s3 = s1 ++ s2 ++ s3.
Proof.
  induction s1 as [|c s1 IH]; [reflexivity|].
  change (String c ((s1 ++ s2) ++ s3) = String c (s1 ++ s2 ++ s3)). by rewrite IH.
Qed.

Section HashForm.
Context (lib : GoLib).

(** X16. The form of the content hash.  The hash of a Card spec consists
    of lower-case hexadecimal digits only, is twice as long as the digest
    of the serialized spec (64 characters for a 32-byte digest), and the
    digest is read back from it by decoding the digits pairwise. *)
Theorem calculateHash_hex (spec : AgentCardSpec) :
  let digest := digest_of lib (CardJson.AgentCardSpec_json spec) in
  string_forall is_hex_digit (calculateHash lib spec) = true
  /\ String.length (calculateHash lib spec) = (2 * String.length digest)%nat
  /\ GoStr.Unhex (calculateHash lib spec) = digest.
Proof.
  cbv zeta. unfold calculateHash, digest_of.
  split; [apply Hex_digits|]. split; [apply Hex_length|apply GoStrFacts.Unhex_Hex].
Qed.

Lemma service_url_inj (service : Service) (p1 p2 : ServicePort) :
  ep_URL (service_endpoint lib service p1) = ep_URL (service_endpoint lib service p2) ->
  port_Port p1 = port_Port p2.
Proof.
  cbn [service_endpoint ep_URL]. intros H.
  do 5 apply string_app_inv_head in H. by apply GoStrMore.Itoa_inj.
Qed.

(** X17. The endpoints of a Service-backed Agent.  For an Agent without
    endpoint annotation and without A2A sub-config whose Service is found,
    there is one endpoint per declared port, in order; the port number is
    the decimal numeral that ends the URL, so two endpoints with the same
    URL have the same port, and ports with pairwise different numbers give
    pairwise different URLs. *)
Theorem extractEndpoints_service_urls
    (g : CardGenerator) (agent : Agent) (service : Service) :
  let endpoints := extractEndpoints lib g agent in
  agent_Annotations agent !! AnnotationA2AEndpoint = None ->
  has_A2AConfig agent = false ->
  findServiceForAgent g agent = inl service ->
  length endpoints = length (svc_Ports service)
  /\ (forall i endpoint, endpoints !! i = Some endpoint ->
        exists port prefix,
          svc_Ports service !! i = Some port
          /\ ep_Port endpoint = port_Port port
          /\ ep_URL endpoint = prefix ++ ":" ++ GoStr.Itoa (ep_Port endpoint)
          /\ Atoi (GoStr.Itoa (ep_Port endpoint)) = Some (ep_Port endpoint))
  /\ (forall i j e1 e2, endpoints !! i = Some e1 -> endpoints !! j = Some e2 ->
        ep_URL e1 = ep_URL e2 -> ep_Port e1 = ep_Port e2)
  /\ (NoDup (port_Port <$> svc_Ports service) -> NoDup (ep_URL <$> endpoints)).
Proof.
  intros endpoints Hann Hcfg Hsvc. subst endpoints.
  unfold extractEndpoints. rewrite Hann, Hcfg, Hsvc.
  split; [by rewrite length_fmap|]. split; [|split].
  - intros i endpoint Hi. rewrite list_lookup_fmap in Hi.
    destruct (svc_Ports service !! i) as [port|]; [|done].
    injection Hi as <-. exists port.
    exists ("http://" ++ svc_Name service ++ "." ++ svc_Namespace service
            ++ ".svc.cluster.local").
    split; [done|]. split; [done|]. split; [|apply GoStrMore.Atoi_Itoa].
    cbn [service_endpoint ep_URL ep_Port].
    symmetry. rewrite !string_app_assoc. reflexivity.
  - intros i j e1 e2 Hi Hj Hurl. rewrite list_lookup_fmap in Hi, Hj.
    destruct (svc_Ports service !! i) as [p1|]; [|done].
    destruct (svc_Ports service !! j) as [p2|]; [|done].
    injection Hi as <-. injection Hj as <-.
    by apply (service_url_inj service).
  - intros Hnodup. rewrite <- list_fmap_compose.
    apply NoDup_fmap_2_strong.
    + intros p1 p2 Hp1 Hp2 Hurl. cbn in Hurl.
      apply (service_url_inj service) in Hurl.
      apply list_elem_of_lookup in Hp1 as [i Hi]. apply list_elem_of_lookup in Hp2 as [j Hj].
      assert (Hij : i = j).
      { eapply NoDup_lookup; [exact Hnodup| |].
        - rewrite list_lookup_fmap, Hi. reflexivity.
        - rewrite list_lookup_fmap, Hj. cbn. by rewrite Hurl. }
      subst j. congruence.
    + by apply NoDup_fmap_1 in Hnodup.
Qed.

(** X18. The failures of one Agent.  When reading the stored Card fails
    (other than not-found), the error is returned with no probe and no
    apply request.  Otherwise the only failure is a refused apply request,
    returned after exactly one request was sent.  Whatever fails, the
    stored Cards are left as they were; deriving the Card never fails. *)
Theorem reconcileAgentCard_failures
    (r : AgentRegistryController) (reg : AgentRegistry) (agent : Agent) (st : State) :
  let result := reconcileAgentCard lib r reg agent st in
  match cl_get_card_err (ctl_Client r) (card_key agent) with
  | Some cause =>
      result.1 = Some (Errorf_w "failed to get existing agent card" cause)
      /\ st_applied result.2 = st_applied st
      /\ st_probes result.2 = st_probes st
      /\ st_cards result.2 = st_cards st
  | None =>
      match result.1 with
      | Some err =>
          exists cause applied,
            cl_patch_err (ctl_Client r) (card_key agent) = Some cause
            /\ err = Errorf_w "failed to apply agent card" cause
            /\ st_applied result.2 = (st_applied st ++ [applied])%list
            /\ st_cards result.2 = st_cards st
      | None =>
          cl_patch_err (ctl_Client r) (card_key agent) = None
          \/ (st_applied result.2 = st_applied st /\ st_cards result.2 = st_cards st)
      end
  end.
Proof.
  intros result. subst result. rewrite reconcileAgentCard_unfold.
  set (derived := (GenerateCard lib (controller_generator r) reg agent st).1.1).
  destruct (GenerateCard_key lib (controller_generator r) reg agent st) as [Hns Hname].
  fold derived in Hns, Hname.
  assert (Happly :
    match (apply_card r reg derived (tick_clock st)).1 with
    | Some err =>
        exists cause applied,
          cl_patch_err (ctl_Client r) (card_key agent) = Some cause
          /\ err = Errorf_w "failed to apply agent card" cause
          /\ st_applied (apply_card r reg derived (tick_clock st)).2
             = (st_applied st ++ [applied])%list
          /\ st_cards (apply_card r reg derived (tick_clock st)).2 = st_cards st
    | None => cl_patch_err (ctl_Client r) (card_key agent) = None
    end).
  { pose proof (apply_card_spec r reg derived (tick_clock st))
      as (Happlied & _ & _ & Hcards & _).
    cbv zeta in Happlied, Hcards. rewrite Hns, Hname in Hcards.
    fold (card_key agent) in Hcards.
    revert Happlied Hcards. unfold apply_card.
    pose proof (probe_health_spec r derived (tick_clock st)) as (Hn & Hs & _).
    cbv zeta in Hn, Hs.
    destruct (probe_health r derived (tick_clock st)) as [card1 st1].
    cbn [fst snd] in *. unfold Client_PatchApply.
    cbn [SetOwnerReferences card_Name card_Namespace].
    rewrite Hn, Hs, Hns, Hname. fold (card_key agent).
    destruct (cl_patch_err (ctl_Client r) (card_key agent)) as [cause|];
      cbn [fst snd]; intros Happlied Hcards; [|done].
    exists cause. eexists. by repeat split. }
  unfold Client_GetCard, get_from.
  destruct (cl_get_card_err (ctl_Client r) (card_key agent)) as [cause|]; [done|].
  destruct (st_cards (tick_clock st) !! card_key agent) as [existing|].
  - case_bool_decide; [by right|].
    destruct (apply_card r reg derived (tick_clock st)) as [[err|] st2];
      cbn [fst snd] in *; [done|by left].
  - destruct (apply_card r reg derived (tick_clock st)) as [[err|] st2];
      cbn [fst snd] in *; [done|by left].
Qed.

End HashForm.

(** S2: the two ports of the Service give two different URLs. *)
Lemma extractEndpoints_service_urls_witness :
  NoDup (ep_URL <$> extractEndpoints Reference.lib
                      (Scenario.generator Scenario.s2_cluster) Scenario.a1).
Proof.
  refine (proj2 (proj2 (proj2 (extractEndpoints_service_urls Reference.lib
            (Scenario.generator Scenario.s2_cluster) Scenario.a1 Scenario.svc_a1
            _ _ _))) _); [vm_compute; reflexivity..|].
  vm_compute. apply NoDup_cons. split; [|apply NoDup_singleton].
  intros H%list_elem_of_singleton. discriminate H.
Defined.

(** ** The version of a Card *)

Section VersionMore.
Context (lib : GoLib).

Lemma GenerateCard_spec_version (g : CardGenerator) (reg : AgentRegistry)
    (agent : Agent) (st : State) :
  spec_Version (card_Spec (GenerateCard lib g reg agent st).1.1) = extractVersion agent.
Proof.
  rewrite GenerateCard_unfold. cbv zeta. cbn [fst snd with_Status card_Spec].
  unfold embed_public_card. destruct (cg_Translator g); [|reflexivity].
  by destruct (Translator.ToJSON lib (Some (initial_card lib g reg agent))).
Qed.

(** X19. The version of a derived Card is the [version] label when the
    Agent has one, else the [app.kubernetes.io/version] label when it has
    one, else the resource version.  A label that is present counts even
    when it is empty: then the Card version is empty, the serialized spec
    has no [version] member and the public document says 1.0.0, whatever
    the other label and the resource version are. *)
Theorem GenerateCard_version (g : CardGenerator) (reg : AgentRegistry)
    (agent : Agent) (st : State) :
  let card := (GenerateCard lib g reg agent st).1.1 in
  let version := spec_Version (card_Spec card) in
  version
  = default (default (agent_ResourceVersion agent)
               (agent_Labels agent !! "app.kubernetes.io/version"))
      (agent_Labels agent !! "version")
  /\ Json.member "version" (CardJson.AgentCardSpec_json (card_Spec card))
     = (if bool_decide (version = "") then None else Some (JStr version))
  /\ (exists doc, Translator.ToA2ACard (Some card) = inl doc
                  /\ doc_Version doc
                     = if bool_decide (version = "") then "1.0.0" else version)
  /\ (agent_Labels agent !! "version" = Some "" -> version = "").
Proof.
  cbv zeta. rewrite GenerateCard_spec_version.
  assert (Hdef : extractVersion agent
                 = default (default (agent_ResourceVersion agent)
                              (agent_Labels agent !! "app.kubernetes.io/version"))
                     (agent_Labels agent !! "version")).
  { unfold extractVersion.
    destruct (agent_Labels agent !! "version"); [done|].
    by destruct (agent_Labels agent !! "app.kubernetes.io/version"). }
  split; [exact Hdef|]. split; [|split].
  - rewrite spec_member_version, GenerateCard_spec_version.
    by destruct (extractVersion agent).
  - eexists. split; [reflexivity|]. cbn [doc_Version].
    unfold Translator.extractVersion. rewrite GenerateCard_spec_version.
    by destruct (extractVersion agent).
  - intros Hlabel. by rewrite Hdef, Hlabel.
Qed.

End VersionMore.
